(** * MedNote front end: the transcript labeler, the voice heuristics,
      the diagnosis reconciliation and the history store

    A shallow embedding of
      - [src/hooks/useVoiceAI]            (feature extraction, similarity,
                                           speaker identification, learning),
      - [src/components/RecorderClean.tsx] and the video-call capture component
                                          (the [onresult] handlers that label
                                           utterances by alternation),
      - [src/components/DiagnoseView.tsx] (stream, timeout, fallback),
      - [src/lib/history.ts]              (the persisted history list),
    followed by the properties established about them.

    JavaScript numbers are IEEE 754 binary64 values: they are modelled by
    Rocq's primitive floats, so that division by zero, NaN and rounding behave
    as they do in the browser.  JavaScript strings are sequences of UTF-16
    code units. *)

From Stdlib Require Import Strings.String Strings.Ascii.
From Stdlib Require Import ZArith NArith List Bool Lia.
From Stdlib Require Import Numbers.DecimalString.
From Stdlib Require Numbers.DecimalNat.
From Stdlib Require Import Sorting.Permutation Sorting.Sorted.
From Stdlib Require Import Floats.
Import ListNotations.

Set Warnings "-inexact-float,-register-all".

(* ================================================================== *)
(** * The JavaScript values and builtins the sources rely on          *)
(* ================================================================== *)

Module JS.

(** ** Strings *)

(** A string is its sequence of UTF-16 code units. *)
Definition jsstring := list N.

(** The code units of an ASCII literal. *)
Definition utf16 (s : string) : jsstring :=
  map N_of_ascii (list_ascii_of_string s).

(** [WhiteSpace] and [LineTerminator] of ECMAScript: what [trim] removes. *)
Definition isWhiteSpace (c : N) : bool :=
  (N.leb 9 c && N.leb c 13)          (* TAB, LF, VT, FF, CR *)
  || N.eqb c 32 || N.eqb c 160       (* SP, NBSP *)
  || N.eqb c 5760                    (* OGHAM SPACE MARK *)
  || (N.leb 8192 c && N.leb c 8202)  (* EN QUAD .. HAIR SPACE *)
  || N.eqb c 8232 || N.eqb c 8233    (* LS, PS *)
  || N.eqb c 8239 || N.eqb c 8287 || N.eqb c 12288
  || N.eqb c 65279.                  (* ZWNBSP *)

Fixpoint trimStart (s : jsstring) : jsstring :=
  match s with
  | [] => []
  | c :: s' => if isWhiteSpace c then trimStart s' else s
  end.

Fixpoint trimEnd (s : jsstring) : jsstring :=
  match s with
  | [] => []
  | c :: s' =>
      match trimEnd s' with
      | [] => if isWhiteSpace c then [] else [c]
      | t => c :: t
      end
  end.

(** [String.prototype.trim]. *)
Definition trim (s : jsstring) : jsstring := trimEnd (trimStart s).

(** [ToBoolean] on a string: only the empty string is falsy. *)
Definition truthy (s : jsstring) : bool :=
  match s with [] => false | _ :: _ => true end.

(** [a || b] on strings. *)
Definition or_else (a b : jsstring) : jsstring := if truthy a then a else b.

Fixpoint str_eqb (a b : jsstring) : bool :=
  match a, b with
  | [], [] => true
  | x :: a', y :: b' => N.eqb x y && str_eqb a' b'
  | _, _ => false
  end.

(** ** Numbers *)

Open Scope float_scope.

(** [x > y] and [x >= y]. *)
Definition gtb (x y : float) : bool := y <? x.
Definition geb (x y : float) : bool := y <=? x.

Definition is_neg_zero (x : float) : bool := (x =? 0) && (1 / x <? 0).

(** [Math.max] and [Math.min] on two arguments: NaN is contagious and
    [+0] is larger than [-0]. *)
Definition Math_max (a b : float) : float :=
  if is_nan a || is_nan b then nan
  else if a <? b then b
  else if b <? a then a
  else if is_neg_zero a then b else a.

Definition Math_min (a b : float) : float :=
  if is_nan a || is_nan b then nan
  else if a <? b then a
  else if b <? a then b
  else if is_neg_zero a then a else b.

Definition Math_abs : float -> float := abs.
Definition Math_sqrt : float -> float := sqrt.

(** [Math.log10]: ECMAScript fixes the special cases and leaves the rest
    as an implementation-approximated value, here [approx]. *)
Definition Math_log10 (approx : float -> float) (x : float) : float :=
  if is_nan x then nan
  else if x =? infinity then infinity
  else if x =? 1 then 0
  else if x =? 0 then neg_infinity
  else if x <? 0 then nan
  else approx x.

(** The four ways two numbers can compare, with the answer of every
    comparison operator in each. *)
Inductive float_order (x y : float) : Prop :=
| fo_lt : (x <? y) = true -> (x <=? y) = true -> (x =? y) = false ->
          (y <? x) = false -> (y <=? x) = false -> (y =? x) = false ->
          is_nan x = false -> is_nan y = false -> float_order x y
| fo_eq : (x <? y) = false -> (x <=? y) = true -> (x =? y) = true ->
          (y <? x) = false -> (y <=? x) = true -> (y =? x) = true ->
          is_nan x = false -> is_nan y = false -> float_order x y
| fo_gt : (x <? y) = false -> (x <=? y) = false -> (x =? y) = false ->
          (y <? x) = true -> (y <=? x) = true -> (y =? x) = false ->
          is_nan x = false -> is_nan y = false -> float_order x y
| fo_nan : (x <? y) = false -> (x <=? y) = false -> (x =? y) = false ->
           (y <? x) = false -> (y <=? x) = false -> (y =? x) = false ->
           is_nan x = true \/ is_nan y = true -> float_order x y.

(** The length of an array or typed array, as a number. *)
Definition of_length (n : nat) : float :=
  of_uint63 (Uint63.of_Z (Z.of_nat n)).

Close Scope float_scope.

(** ** Exceptions *)

(** The outcome of code that may throw. *)
Inductive completion (A : Type) : Type :=
| Normal (a : A)
| Throw (what : string).
Arguments Normal {A} a.
Arguments Throw {A} what.

Definition bind {A B} (c : completion A) (k : A -> completion B)
  : completion B :=
  match c with
  | Normal a => k a
  | Throw e => Throw e
  end.

(** [try { c } catch (e) { h e }]. *)
Definition try_catch {A} (c : completion A) (h : string -> completion A)
  : completion A :=
  match c with
  | Normal a => Normal a
  | Throw e => h e
  end.

End JS.

Notation "x <- c ;; k" := (JS.bind c (fun x => k))
  (at level 61, c at next level, right associativity).

(* ================================================================== *)
(** * useVoiceAI: features, similarity, identification, learning      *)
(* ================================================================== *)

Module VoiceAI.
Import JS.
Open Scope float_scope.

Inductive SpeakerType := doctor | patient | auto.

Definition SpeakerType_eqb (a b : SpeakerType) : bool :=
  match a, b with
  | doctor, doctor | patient, patient | auto, auto => true
  | _, _ => false
  end.

(** [VoiceProfile['features']]. *)
Record Features := mkFeatures {
  avgPitch : float;
  pitchVariance : float;
  avgIntensity : float;
  formantF1 : float;
  formantF2 : float;
  speechRate : float;
  voiceQuality : float
}.

(** [samples] counts learn calls; it is kept as a natural number (the
    source holds it in a number, exact for every count below 2^53). *)
Record VoiceProfile := mkProfile {
  id : SpeakerType;
  name : SpeakerType;
  features : Features;
  samples : nat
}.

Record VoiceAnalysis := mkAnalysis {
  speaker : SpeakerType;
  confidence : float;
  analysisFeatures : Features
}.

(** ** [Map<string, VoiceProfile>]: unique keys, insertion order *)

Definition ProfileMap := list (SpeakerType * VoiceProfile).

Fixpoint Map_get (m : ProfileMap) (k : SpeakerType) : option VoiceProfile :=
  match m with
  | [] => None
  | (k', v) :: m' => if SpeakerType_eqb k' k then Some v else Map_get m' k
  end.

(** [set] keeps the position of a key already present and appends a new
    key at the end. *)
Fixpoint Map_set (m : ProfileMap) (k : SpeakerType) (v : VoiceProfile)
  : ProfileMap :=
  match m with
  | [] => [(k, v)]
  | (k', v') :: m' =>
      if SpeakerType_eqb k' k then (k, v) :: m'
      else (k', v') :: Map_set m' k v
  end.

Definition Map_size (m : ProfileMap) : nat := length m.
Definition Map_values (m : ProfileMap) : list VoiceProfile := map snd m.

(** ** Feature extraction *)

(** The loop of [calculatePitchOptimized], from index 1 on: [prev] is
    [sample[i-1]]; [sum] is accumulated by the source and never read. *)
Fixpoint pitch_loop (prev : float) (rest : list float) (sum count : float)
  : float * float :=
  match rest with
  | [] => (sum, count)
  | x :: rest' =>
      let count' :=
        if negb (Bool.eqb (geb x 0) (geb prev 0)) then count + 1 else count in
      pitch_loop x rest' (sum + Math_abs x) count'
  end.

Definition calculatePitchOptimized (audioData : list float) : float :=
  let sampleSize := Math_min 2048 (of_length (length audioData)) in
  let sample := firstn 2048 audioData in
  let '(_, count) :=
    match sample with
    | [] => (0, 0)
    | x0 :: rest => pitch_loop x0 rest 0 0
    end in
  let crossingRate := count / (sampleSize / 44100) in
  crossingRate * 0.5.

Definition calculateFormantsOptimized (audioData : list float)
  : float * float :=
  let samples := firstn 1024 audioData in
  let sum := fold_left (fun sum x => sum + Math_abs x) samples 0 in
  let avgAmplitude := sum / of_length (length samples) in
  let f1 := 500 + (avgAmplitude * 300) in
  let f2 := 1200 + (avgAmplitude * 500) in
  (f1, f2).

(** The loop of [calculateSpeechRateOptimized]: [i] ranges over the
    interior indices, [prev] is [audioData[i-1]]. *)
Fixpoint peak_loop (prev : float) (rest : list float) (peakCount : float)
  : float :=
  match rest with
  | x :: ((next :: _) as rest') =>
      let peakCount' :=
        if gtb x 0.1 && gtb x prev && gtb x next
        then peakCount + 1 else peakCount in
      peak_loop x rest' peakCount'
  | _ => peakCount
  end.

Definition calculateSpeechRateOptimized (audioData : list float) : float :=
  let peakCount :=
    match audioData with
    | [] => 0
    | x0 :: rest => peak_loop x0 rest 0
    end in
  let duration := of_length (length audioData) / 44100 in
  (peakCount / duration) * 0.5.

Section Extraction.

(** The implementation-approximated part of [Math.log10]. *)
Variable log10_approx : float -> float.

Definition calculateIntensity (audioData : list float) : float :=
  let rms :=
    Math_sqrt
      (fold_left (fun sum sample => sum + sample * sample) audioData 0
       / of_length (length audioData)) in
  20 * Math_log10 log10_approx (rms + 1e-10).

(** [audioContext] tells whether an [AudioContext] could be created;
    without one the extractor throws. *)
Definition extractVoiceFeatures (audioContext : bool)
           (audioData : list float) : completion Features :=
  if negb audioContext then Throw "AudioContext nao inicializado"
  else
    let pitch := calculatePitchOptimized audioData in
    let intensity := calculateIntensity audioData in
    let '(f1, f2) := calculateFormantsOptimized audioData in
    let speechRate := calculateSpeechRateOptimized audioData in
    let pitchVariance := pitch * 0.1 in
    let voiceQuality := if gtb intensity (-20) then 0.8 else 0.4 in
    Normal {| avgPitch := pitch;
              pitchVariance := pitchVariance;
              avgIntensity := intensity;
              formantF1 := f1;
              formantF2 := f2;
              speechRate := speechRate;
              voiceQuality := voiceQuality |}.

End Extraction.

(** ** Similarity *)

Definition calculateSimilarity (features1 features2 : Features) : float :=
  let similarity := 0 in
  let similarity := similarity +
    0.25 * (1 - Math_abs (avgPitch features1 - avgPitch features2) / 400) in
  let similarity := similarity +
    0.15 * (1 - Math_abs (pitchVariance features1 - pitchVariance features2) / 100) in
  let similarity := similarity +
    0.1 * (1 - Math_abs (avgIntensity features1 - avgIntensity features2) / 60) in
  let similarity := similarity +
    0.2 * (1 - Math_abs (formantF1 features1 - formantF1 features2) / 1000) in
  let similarity := similarity +
    0.2 * (1 - Math_abs (formantF2 features1 - formantF2 features2) / 2000) in
  let similarity := similarity +
    0.05 * (1 - Math_abs (speechRate features1 - speechRate features2) / 10) in
  let similarity := similarity +
    0.05 * (1 - Math_abs (voiceQuality features1 - voiceQuality features2)) in
  Math_max 0 (Math_min 1 similarity).

(** ** The hook's state *)

Record State := mkState {
  voiceProfiles : ProfileMap;
  isLearning : bool;
  lastAnalysisRef : option VoiceAnalysis
}.

(** [useState(new Map())], [useState(true)], [useRef(null)]. *)
Definition initialState : State :=
  {| voiceProfiles := []; isLearning := true; lastAnalysisRef := None |}.

Definition zeroFeatures : Features :=
  {| avgPitch := 0; pitchVariance := 0; avgIntensity := 0;
     formantF1 := 0; formantF2 := 0; speechRate := 0; voiceQuality := 0 |}.

(** One step of the [forEach] of [identifySpeaker]. *)
Definition compareProfile (features : Features)
           (bestMatch : SpeakerType * float) (profile : VoiceProfile)
  : SpeakerType * float :=
  let similarity := calculateSimilarity features (VoiceAI.features profile) in
  if gtb similarity (snd bestMatch) then (name profile, similarity)
  else bestMatch.

Definition bestMatchOf (features : Features) (profiles : ProfileMap)
  : SpeakerType * float :=
  fold_left (compareProfile features) (Map_values profiles) (auto, 0).

Section Hook.

Variable log10_approx : float -> float.

(** [audioContext]: whether an [AudioContext] can be created;
    [decoded]: channel 0 of the decoded blob, or the decoding error. *)
Definition identifySpeaker (st : State) (audioContext : bool)
           (decoded : completion (list float))
  : completion (VoiceAnalysis * State) :=
  let body : completion (VoiceAnalysis * State) :=
    _ <- (if audioContext then Normal tt
          else Throw "AudioContext nao disponivel") ;;
    audioData <- decoded ;;
    features <- extractVoiceFeatures log10_approx audioContext audioData ;;
    if Nat.eqb (Map_size (voiceProfiles st)) 0 then
      let analysis :=
        {| speaker := doctor; confidence := 0.7;
           analysisFeatures := features |} in
      Normal (analysis,
              {| voiceProfiles := voiceProfiles st;
                 isLearning := isLearning st;
                 lastAnalysisRef := Some analysis |})
    else
      let bestMatch := bestMatchOf features (voiceProfiles st) in
      let threshold := 0.4 in
      let identifiedSpeaker :=
        if gtb (snd bestMatch) threshold then fst bestMatch else auto in
      let analysis :=
        {| speaker := identifiedSpeaker; confidence := snd bestMatch;
           analysisFeatures := features |} in
      Normal (analysis,
              {| voiceProfiles := voiceProfiles st;
                 isLearning := isLearning st;
                 lastAnalysisRef := Some analysis |}) in
  try_catch body
    (fun _ => Normal ({| speaker := auto; confidence := 0;
                         analysisFeatures := zeroFeatures |}, st)).

(** The updater passed to [setVoiceProfiles] by [learnVoice]. *)
Definition learnUpdate (speakerType : SpeakerType) (features : Features)
           (prev : ProfileMap) : ProfileMap :=
  match Map_get prev speakerType with
  | Some existingProfile =>
      let weight := 0.3 in
      let old := VoiceAI.features existingProfile in
      let updatedFeatures :=
        {| avgPitch :=
             avgPitch old * (1 - weight) + avgPitch features * weight;
           pitchVariance :=
             pitchVariance old * (1 - weight) + pitchVariance features * weight;
           avgIntensity :=
             avgIntensity old * (1 - weight) + avgIntensity features * weight;
           formantF1 :=
             formantF1 old * (1 - weight) + formantF1 features * weight;
           formantF2 :=
             formantF2 old * (1 - weight) + formantF2 features * weight;
           speechRate :=
             speechRate old * (1 - weight) + speechRate features * weight;
           voiceQuality :=
             voiceQuality old * (1 - weight) + voiceQuality features * weight
        |} in
      Map_set prev speakerType
        {| id := id existingProfile;
           name := name existingProfile;
           features := updatedFeatures;
           samples := samples existingProfile + 1 |}
  | None =>
      Map_set prev speakerType
        {| id := speakerType; name := speakerType;
           features := features; samples := 1 |}
  end.

Definition learnVoice (st : State) (audioContext : bool)
           (decoded : completion (list float)) (speakerType : SpeakerType)
  : completion State :=
  if negb (isLearning st) then Normal st
  else
    let body : completion State :=
      _ <- (if audioContext then Normal tt
            else Throw "AudioContext nao disponivel") ;;
      audioData <- decoded ;;
      features <- extractVoiceFeatures log10_approx audioContext audioData ;;
      Normal {| voiceProfiles :=
                  learnUpdate speakerType features (voiceProfiles st);
                isLearning := isLearning st;
                lastAnalysisRef := lastAnalysisRef st |} in
    try_catch body (fun _ => Normal st).

End Hook.

Definition resetVoiceProfiles (st : State) : State :=
  {| voiceProfiles := []; isLearning := true; lastAnalysisRef := None |}.

Definition stopLearning (st : State) : State :=
  {| voiceProfiles := voiceProfiles st; isLearning := false;
     lastAnalysisRef := lastAnalysisRef st |}.

Close Scope float_scope.
End VoiceAI.

(* ================================================================== *)
(** * The recognition results both capture components receive         *)
(* ================================================================== *)

Module Speech.
Import JS.

Inductive Language := pt | en.

(** [event.results[i]]: its first alternative's transcript and whether the
    engine will still revise it. *)
Record SpeechResult := mkResult {
  transcript : jsstring;
  isFinal : bool
}.

Record Event := mkEvent {
  resultIndex : nat;
  results : list SpeechResult
}.

(** The loop [for (i = event.resultIndex; i < event.results.length; i++)],
    shared by both handlers; 32 is the space appended to a final text. *)
Fixpoint collect (rs : list SpeechResult)
         (interimTranscript finalTranscript : jsstring)
  : jsstring * jsstring :=
  match rs with
  | [] => (interimTranscript, finalTranscript)
  | r :: rs' =>
      if isFinal r
      then collect rs' interimTranscript
                   (finalTranscript ++ transcript r ++ [32%N])
      else collect rs' (interimTranscript ++ transcript r) finalTranscript
  end.

Definition transcriptsOf (event : Event) : jsstring * jsstring :=
  collect (skipn (resultIndex event) (results event)) [] [].

(** What the loop leaves in [finalTranscript] and [interimTranscript]. *)
Definition finalText (event : Event) : jsstring := snd (transcriptsOf event).
Definition interimText (event : Event) : jsstring := fst (transcriptsOf event).

(** An event that delivers one finalized result and nothing else, and one
    that only carries provisional text. *)
Definition finalEvent (text : jsstring) : Event :=
  {| resultIndex := 0;
     results := [ {| transcript := text; isFinal := true |} ] |}.

Definition interimEvent (text : jsstring) : Event :=
  {| resultIndex := 0;
     results := [ {| transcript := text; isFinal := false |} ] |}.

(** [delivers events texts]: the events carry the finalized results [texts],
    one per event and in this order.  An event may carry interim results
    besides its finalized one, and events with interim results only may come
    in between. *)
Inductive delivers : list Event -> list jsstring -> Prop :=
| delivers_nil : delivers [] []
| delivers_final event text events texts :
    finalText event = text ++ [32%N] ->
    delivers events texts ->
    delivers (event :: events) (text :: texts)
| delivers_interim event events texts :
    finalText event = [] ->
    delivers events texts ->
    delivers (event :: events) texts.

Definition Medico : jsstring := utf16 "M" ++ [233%N] ++ utf16 "dico: ".
Definition robot : jsstring := [55358%N; 56598%N; 32%N].

End Speech.

(* ================================================================== *)
(** * RecorderClean.tsx: the microphone recorder                      *)
(* ================================================================== *)

Module Recorder.
Import JS Speech.
Import VoiceAI(SpeakerType, doctor, patient, auto).

Definition getSpeakerPrefix (speaker : SpeakerType) (patientName : jsstring)
           (language : Language) : jsstring :=
  match speaker with
  | doctor =>
      match language with pt => Medico | en => utf16 "Doctor: " end
  | patient =>
      let name :=
        or_else (trim patientName)
                (match language with
                 | pt => utf16 "Paciente" | en => utf16 "Patient" end) in
      name ++ utf16 ": "
  | auto => robot
  end.

(** The component's state and refs; [streamRef] records whether a media
    stream is held. *)
Record State := mkState {
  recording : bool;
  patientName : jsstring;
  speechCountRef : nat;
  finalRef : jsstring;
  streamRef : bool;
  isProcessingRef : bool;
  lastSpeakerRef : SpeakerType;
  lastTranscriptRef : jsstring
}.

Definition initialState : State :=
  {| recording := false; patientName := []; speechCountRef := 0;
     finalRef := []; streamRef := false; isProcessingRef := false;
     lastSpeakerRef := auto; lastTranscriptRef := [] |}.

(** What one call of the handler did: the label it assigned, the line it
    appended, the speaker handed to the background learning task and the
    transcript passed to [onTranscriptChange]. *)
Record Output := mkOutput {
  assigned : option SpeakerType;
  appended : option jsstring;
  learning : option SpeakerType;
  emitted : option jsstring
}.

Definition silent : Output :=
  {| assigned := None; appended := None; learning := None; emitted := None |}.

(** [rec.onresult]. *)
Definition onresult (language : Language) (st : State) (event : Event)
  : State * Output :=
  let '(interimTranscript, finalTranscript) := transcriptsOf event in
  if truthy finalTranscript then
    let trimmedText := trim finalTranscript in
    if str_eqb trimmedText (lastTranscriptRef st) then (st, silent)
    else
      let speakerType :=
        if Nat.eqb (speechCountRef st mod 2) 0 then doctor else patient in
      let speakerPrefix :=
        getSpeakerPrefix speakerType (patientName st) language in
      let formattedText := speakerPrefix ++ trimmedText ++ [10%N] in
      let finalRef' := finalRef st ++ formattedText in
      let background := streamRef st && negb (isProcessingRef st) in
      ({| recording := recording st;
          patientName := patientName st;
          speechCountRef := speechCountRef st + 1;
          finalRef := finalRef';
          streamRef := streamRef st;
          isProcessingRef := isProcessingRef st || background;
          lastSpeakerRef := speakerType;
          lastTranscriptRef := trimmedText |},
       {| assigned := Some speakerType;
          appended := Some formattedText;
          learning := if background then Some speakerType else None;
          emitted := Some (finalRef' ++ interimTranscript) |})
  else
    (st,
     {| assigned := None; appended := None; learning := None;
        emitted := Some (finalRef st ++ interimTranscript) |}).

(** The [finally] of [processAudioInBackground]. *)
Definition backgroundDone (st : State) : State :=
  {| recording := recording st; patientName := patientName st;
     speechCountRef := speechCountRef st; finalRef := finalRef st;
     streamRef := streamRef st; isProcessingRef := false;
     lastSpeakerRef := lastSpeakerRef st;
     lastTranscriptRef := lastTranscriptRef st |}.

(** [start]; [microphone] tells whether [getUserMedia] resolved. *)
Definition start (microphone : bool) (st : State) : State * option jsstring :=
  if microphone then
    ({| recording := true; patientName := patientName st;
        speechCountRef := speechCountRef st; finalRef := [];
        streamRef := true; isProcessingRef := isProcessingRef st;
        lastSpeakerRef := lastSpeakerRef st;
        lastTranscriptRef := lastTranscriptRef st |}, Some [])
  else (st, None).

Definition stop (st : State) : State * option jsstring :=
  ({| recording := false; patientName := patientName st;
      speechCountRef := speechCountRef st; finalRef := finalRef st;
      streamRef := false; isProcessingRef := false;
      lastSpeakerRef := lastSpeakerRef st;
      lastTranscriptRef := lastTranscriptRef st |}, Some (finalRef st)).

Definition reset (st : State) : State * option jsstring :=
  ({| recording := false; patientName := []; speechCountRef := 0;
      finalRef := []; streamRef := false; isProcessingRef := false;
      lastSpeakerRef := auto; lastTranscriptRef := [] |}, Some []).

(** ** The recorder together with the voice hook it feeds *)

(** What [captureQuickAudioSample] resolved to and how it decodes. *)
Record Capture := mkCapture {
  audioContext : bool;
  decoded : completion (list float)
}.

(** The component, the state of [useVoiceAI] and the speakers of the
    background tasks still running, oldest first. *)
Record Session := mkSession {
  component : State;
  voice : VoiceAI.State;
  inFlight : list SpeakerType
}.

Definition initialSession : Session :=
  {| component := initialState; voice := VoiceAI.initialState;
     inFlight := [] |}.

(** What can happen to the recorder, in arrival order.  [BackgroundDone] is
    the end of the oldest [processAudioInBackground]: [None] when no blob was
    captured, otherwise the blob handed to [learnVoice]. *)
Inductive Action :=
| Start (microphone : bool)
| Stop
| Reset
| Result (event : Event)
| BackgroundDone (captured : option Capture).

(** An output that only republishes the transcript. *)
Definition republish (e : option jsstring) : Output :=
  {| assigned := None; appended := None; learning := None; emitted := e |}.

Section Session.

Variable log10_approx : float -> float.
Variable language : Language.

Definition step (s : Session) (a : Action) : Session * Output :=
  match a with
  | Start microphone =>
      let '(st, e) := start microphone (component s) in
      ({| component := st; voice := voice s; inFlight := inFlight s |},
       republish e)
  | Stop =>
      let '(st, e) := stop (component s) in
      ({| component := st; voice := voice s; inFlight := inFlight s |},
       republish e)
  | Reset =>
      let '(st, e) := reset (component s) in
      ({| component := st; voice := voice s; inFlight := inFlight s |},
       republish e)
  | Result event =>
      let '(st, o) := onresult language (component s) event in
      ({| component := st; voice := voice s;
          inFlight := inFlight s ++ match learning o with
                                    | Some knownSpeaker => [knownSpeaker]
                                    | None => []
                                    end |}, o)
  | BackgroundDone captured =>
      match inFlight s with
      | [] => (s, silent)
      | knownSpeaker :: rest =>
          let voice' :=
            match captured with
            | Some c =>
                match VoiceAI.learnVoice log10_approx (voice s)
                        (audioContext c) (decoded c) knownSpeaker with
                | Normal v => v
                | Throw _ => voice s
                end
            | None => voice s
            end in
          ({| component := backgroundDone (component s); voice := voice';
              inFlight := rest |}, silent)
      end
  end.

Fixpoint run (s : Session) (actions : list Action) : Session * list Output :=
  match actions with
  | [] => (s, [])
  | a :: rest =>
      let '(s1, o) := step s a in
      let '(s2, os) := run s1 rest in
      (s2, o :: os)
  end.

End Session.

(** The labels assigned during a run, in order. *)
Definition labels (outputs : list Output) : list SpeakerType :=
  flat_map (fun o => match assigned o with Some l => [l] | None => [] end)
           outputs.

(** [delivers actions texts]: the actions are recognition events that carry
    the finalized results [texts], one per event and in this order (see
    [Speech.delivers]), with any number of background tasks ending in
    between. *)
Inductive delivers : list Action -> list jsstring -> Prop :=
| delivers_nil : delivers [] []
| delivers_final event text actions texts :
    finalText event = text ++ [32%N] ->
    delivers actions texts ->
    delivers (Result event :: actions) (text :: texts)
| delivers_interim event actions texts :
    finalText event = [] ->
    delivers actions texts ->
    delivers (Result event :: actions) texts
| delivers_background captured actions texts :
    delivers actions texts ->
    delivers (BackgroundDone captured :: actions) texts.

End Recorder.

(* ================================================================== *)
(** * The video-call capture component (tab audio)                    *)
(* ================================================================== *)

Module VideoCallCapture.
Import JS Speech.
Import VoiceAI(SpeakerType, doctor, patient, auto).

(** Only ["doctor"] and ["patient"] reach this helper; its [default]
    branch answers for anything else. *)
Definition getSpeakerPrefix (speaker : SpeakerType) (patientName : jsstring)
           (language : Language) : jsstring :=
  match speaker with
  | doctor =>
      match language with pt => Medico | en => utf16 "Doctor: " end
  | patient =>
      let name :=
        or_else (trim patientName)
                (match language with
                 | pt => utf16 "Paciente" | en => utf16 "Patient" end) in
      name ++ utf16 ": "
  | auto => utf16 "Sistema: "
  end.

Inductive Status := idle | selecting | recording | done.

Record State := mkState {
  status : Status;
  speechCountRef : nat;
  finalTranscriptRef : jsstring;
  lastTranscriptRef : jsstring;
  streamRef : bool
}.

Definition initialState : State :=
  {| status := idle; speechCountRef := 0; finalTranscriptRef := [];
     lastTranscriptRef := []; streamRef := false |}.

Record Output := mkOutput {
  assigned : option SpeakerType;
  appended : option jsstring;
  emitted : option jsstring
}.

Definition silent : Output :=
  {| assigned := None; appended := None; emitted := None |}.

(** [rec.onresult]; [patientName] and [language] are props. *)
Definition onresult (language : Language) (patientName : jsstring)
           (st : State) (event : Event) : State * Output :=
  let '(interimTranscript, finalTranscript) := transcriptsOf event in
  if truthy finalTranscript then
    let trimmedText := trim finalTranscript in
    if str_eqb trimmedText (lastTranscriptRef st) then (st, silent)
    else
      let speakerType :=
        if Nat.eqb (speechCountRef st mod 2) 0 then doctor else patient in
      let speakerPrefix := getSpeakerPrefix speakerType patientName language in
      let formattedText := speakerPrefix ++ trimmedText ++ [10%N] in
      let final' := finalTranscriptRef st ++ formattedText in
      ({| status := status st;
          speechCountRef := speechCountRef st + 1;
          finalTranscriptRef := final';
          lastTranscriptRef := trimmedText;
          streamRef := streamRef st |},
       {| assigned := Some speakerType;
          appended := Some formattedText;
          emitted := Some (final' ++ interimTranscript) |})
  else if truthy interimTranscript then
    (st, {| assigned := None; appended := None;
            emitted := Some (finalTranscriptRef st ++ interimTranscript) |})
  else (st, silent).

(** How [startCapture] can go. *)
Inductive Capture :=
| Refused           (* getDisplayMedia rejected *)
| NoAudioTrack      (* the shared surface carries no audio *)
| NoRecognition     (* no recognizer was created *)
| RecognitionFailed (* the recognizer refused to start *)
| Capturing.

Definition startCapture (c : Capture) (st : State) : State :=
  match c with
  | Refused | NoAudioTrack =>
      {| status := idle; speechCountRef := speechCountRef st;
         finalTranscriptRef := finalTranscriptRef st;
         lastTranscriptRef := lastTranscriptRef st;
         streamRef := streamRef st |}
  | NoRecognition | RecognitionFailed =>
      {| status := idle; speechCountRef := 0; finalTranscriptRef := [];
         lastTranscriptRef := []; streamRef := true |}
  | Capturing =>
      {| status := recording; speechCountRef := 0;
         finalTranscriptRef := []; lastTranscriptRef := [];
         streamRef := true |}
  end.

Definition stopCapture (st : State) : State * option jsstring :=
  ({| status := done; speechCountRef := speechCountRef st;
      finalTranscriptRef := finalTranscriptRef st;
      lastTranscriptRef := lastTranscriptRef st; streamRef := false |},
   if truthy (finalTranscriptRef st) then Some (finalTranscriptRef st)
   else None).

Definition reset (st : State) : State :=
  {| status := idle; speechCountRef := 0; finalTranscriptRef := [];
     lastTranscriptRef := []; streamRef := false |}.

Inductive Action :=
| StartCapture (c : Capture)
| StopCapture
| ResetCapture
| Result (event : Event).

Definition step (language : Language) (patientName : jsstring)
           (st : State) (a : Action) : State * Output :=
  match a with
  | StartCapture c => (startCapture c st, silent)
  | StopCapture =>
      let '(st', e) := stopCapture st in
      (st', {| assigned := None; appended := None; emitted := e |})
  | ResetCapture => (reset st, silent)
  | Result event => onresult language patientName st event
  end.

Fixpoint run (language : Language) (patientName : jsstring) (st : State)
         (actions : list Action) : State * list Output :=
  match actions with
  | [] => (st, [])
  | a :: rest =>
      let '(st1, o) := step language patientName st a in
      let '(st2, os) := run language patientName st1 rest in
      (st2, o :: os)
  end.

(** The labels assigned during a run, in order. *)
Definition labels (outputs : list Output) : list SpeakerType :=
  flat_map (fun o => match assigned o with Some l => [l] | None => [] end)
           outputs.

(** The actions of a capture that only receives recognition events. *)
Definition listen (events : list Event) : list Action := map Result events.

End VideoCallCapture.

(* ================================================================== *)
(** * JSON values                                                     *)
(* ================================================================== *)

Module JSON.
Import JS.

(** What [JSON.parse] returns and [JSON.stringify] accepts.  The only
    numbers the modelled code builds are integral millisecond time stamps,
    so a number is kept as an integer. *)
Inductive value :=
| JNull
| JBool (b : bool)
| JNumber (n : Z)
| JString (s : jsstring)
| JArray (items : list value)
| JObject (members : list (jsstring * value)).

End JSON.

(* ================================================================== *)
(** * lib/history.ts                                                  *)
(* ================================================================== *)

Module History.
Import JS JSON.

(** The browser side of the module: the entry of [localStorage] under
    ['mednote-history-v1'] ([None] when the key is absent) and the number
    of ['history-updated'] events dispatched on [window]. *)
Record Browser := mkBrowser {
  stored : option jsstring;
  dispatched : nat
}.

Section WithJSON.

(** [JSON.parse] (which throws a [SyntaxError] on malformed text) and
    [JSON.stringify]. *)
Variable JSON_parse : jsstring -> completion value.
Variable JSON_stringify : value -> jsstring.

(** [localStorage.getItem(KEY) || '[]']. *)
Definition getItemOrEmpty (w : Browser) : jsstring :=
  match stored w with
  | None => utf16 "[]"
  | Some s => or_else s (utf16 "[]")
  end.

Definition loadHistory (w : Browser) : completion value :=
  try_catch (JSON_parse (getItemOrEmpty w))
            (fun _ => Normal (JArray [])).

(** [arr.unshift(item)]: a [TypeError] unless [arr] is an array. *)
Definition unshift (arr : value) (item : value) : completion value :=
  match arr with
  | JArray items => Normal (JArray (item :: items))
  | JNull => Throw "TypeError: Cannot read properties of null"
  | _ => Throw "TypeError: arr.unshift is not a function"
  end.

Definition saveHistoryItem (item : value) (w : Browser)
  : completion Browser :=
  arr <- loadHistory w ;;
  arr' <- unshift arr item ;;
  Normal {| stored := Some (JSON_stringify arr');
            dispatched := dispatched w + 1 |}.

Definition clearHistory (w : Browser) : Browser :=
  {| stored := None; dispatched := dispatched w + 1 |}.

(** The browser states this module produces, starting without an entry. *)
Inductive reachable : Browser -> Prop :=
| reachable_fresh n : reachable {| stored := None; dispatched := n |}
| reachable_save item w w' :
    reachable w -> saveHistoryItem item w = Normal w' -> reachable w'
| reachable_clear w : reachable w -> reachable (clearHistory w).

End WithJSON.

End History.

(* ================================================================== *)
(** * components/DiagnoseView.tsx                                     *)
(* ================================================================== *)

Module Diagnose.
Import JS JSON Speech.

Record Props := mkProps {
  language : Language;
  transcript : jsstring;
  patientName : option jsstring
}.

(** The calls the view makes to its collaborators, in order.  The optional
    callbacks [onBeforeFinalize] and [onFinalizeComplete] are recorded at the
    point where the view would invoke them. *)
Inductive Call :=
| onBeforeFinalize
| streamDiagnose (transcript : jsstring) (language : Language)
| stopStream
| diagnose (transcript : jsstring) (language : Language)
| saveHistoryItem (item : value)
| onFinalizeComplete.

(** The view's state that finalizing touches ([loading], [result]), the
    browser storage and the calls made so far. *)
Record World := mkWorld {
  loading : bool;
  result : option value;
  browser : History.Browser;
  calls : list Call
}.

(** What the outside world answers during one finalize action:
    - [stream]: [streamDiagnose] throws at once, or delivers these chunks
      before the 8000 ms timer fires;
    - [response]: what the blocking [diagnose] request resolves to;
    - [uuid], [now]: [crypto.randomUUID?.() || String(Date.now())] and
      [Date.now()]. *)
Record Env := mkEnv {
  stream : completion (list jsstring);
  response : completion value;
  uuid : jsstring;
  now : Z
}.

(** State and exceptions. *)
Definition M (A : Type) : Type := World -> completion A * World.

Definition ret {A} (a : A) : M A := fun w => (Normal a, w).

Definition bindM {A B} (m : M A) (k : A -> M B) : M B :=
  fun w =>
    match m w with
    | (Normal a, w') => k a w'
    | (Throw e, w') => (Throw e, w')
    end.

Definition tryM {A} (m : M A) (h : string -> M A) : M A :=
  fun w =>
    match m w with
    | (Normal a, w') => (Normal a, w')
    | (Throw e, w') => h e w'
    end.

Definition call (c : Call) : M unit :=
  fun w => (Normal tt,
            {| loading := loading w; result := result w;
               browser := browser w; calls := calls w ++ [c] |}).

Definition setLoading (b : bool) : M unit :=
  fun w => (Normal tt,
            {| loading := b; result := result w;
               browser := browser w; calls := calls w |}).

Definition setResult (r : option value) : M unit :=
  fun w => (Normal tt,
            {| loading := loading w; result := r;
               browser := browser w; calls := calls w |}).

Definition lift {A} (c : completion A) : M A := fun w => (c, w).

Declare Scope eff_scope.
Delimit Scope eff_scope with eff.
Notation "x <-- m ;;; k" := (bindM m (fun x => k))
  (at level 61, m at next level, right associativity) : eff_scope.
Notation "m ;;; k" := (bindM m (fun _ => k))
  (at level 61, right associativity) : eff_scope.

Section View.

Variable JSON_parse : jsstring -> completion value.
Variable JSON_stringify : value -> jsstring.
Variable props : Props.
Variable env : Env.

Open Scope eff_scope.

Definition languageTag (l : Language) : jsstring :=
  match l with pt => utf16 "pt" | en => utf16 "en" end.

(** The [HistoryItem] literal of [saveAndReset], as [JSON.stringify]
    sees it: a [patientName] that is [undefined] leaves no member. *)
Definition historyItem (json : value) : value :=
  JObject
    ([ (utf16 "id", JString (uuid env));
       (utf16 "timestamp", JNumber (now env));
       (utf16 "language", JString (languageTag (language props)));
       (utf16 "transcript", JString (transcript props));
       (utf16 "result", json) ]
     ++ match patientName props with
        | Some n => [ (utf16 "patientName", JString n) ]
        | None => []
        end).

(** The imported [saveHistoryItem], acting on the browser storage. *)
Definition persist (item : value) : M unit :=
  call (saveHistoryItem item) ;;;
  (fun w =>
     match History.saveHistoryItem JSON_parse JSON_stringify item
                                   (browser w) with
     | Normal b => (Normal tt,
                    {| loading := loading w; result := result w;
                       browser := b; calls := calls w |})
     | Throw e => (Throw e, w)
     end).

Definition saveAndReset (json : value) : M unit :=
  setResult (Some json) ;;;
  persist (historyItem json) ;;;
  call onFinalizeComplete ;;;
  setLoading false.

Definition doFallbackRequest : M unit :=
  call (diagnose (transcript props) (language props)) ;;;
  json <-- lift (response env) ;;;
  saveAndReset json.

(** The callback given to [setTimeout], run with the text accumulated
    from the stream when the timer fires. *)
Definition onTimeout (accumulatedData : jsstring) : M unit :=
  call stopStream ;;;
  handled <--
    (if truthy accumulatedData then
       tryM (parsedResult <-- lift (JSON_parse accumulatedData) ;;;
             saveAndReset parsedResult ;;;
             ret true)
            (fun _ => ret false)
     else ret false) ;;;
  if (handled : bool) then ret tt else doFallbackRequest.

(** [onFinalize] up to the point where it returns: [Some text] is the
    timer left pending, with the text the stream will have delivered by
    the time it fires. *)
Definition onFinalize : M (option jsstring) :=
  if negb (truthy (trim (transcript props))) then ret None
  else
    call onBeforeFinalize ;;;
    setLoading true ;;;
    setResult None ;;;
    call (streamDiagnose (transcript props) (language props)) ;;;
    match stream env with
    | Normal chunks => ret (Some (concat chunks))
    | Throw _ => doFallbackRequest ;;; ret None
    end.

(** One finalize action: [onFinalize], then the timer if one was set. *)
Definition finalize : M unit :=
  timer <-- onFinalize ;;;
  match timer with
  | Some accumulatedData => onTimeout accumulatedData
  | None => ret tt
  end.

End View.

(** The fallback requests and the persisted items among the calls. *)
Definition fallbackRequests (cs : list Call) : list (jsstring * Language) :=
  flat_map (fun c => match c with diagnose t l => [(t, l)] | _ => [] end) cs.

Definition savedItems (cs : list Call) : list value :=
  flat_map (fun c => match c with saveHistoryItem i => [i] | _ => [] end) cs.

End Diagnose.

(* ================================================================== *)
(** * A small executable JSON reader and printer                      *)
(* ================================================================== *)

(** [JSON.parse] and [JSON.stringify] are parameters of the models above.
    To run them on concrete payloads this module provides an instance that
    covers the JSON the application exchanges: literals, integers, strings
    with the short escapes, arrays and objects. *)

Module MiniJSON.
Import JS JSON.
Open Scope N_scope.

Definition isDigit (c : N) : bool := (48 <=? c) && (c <=? 57).

Fixpoint skip_ws (s : jsstring) : jsstring :=
  match s with
  | c :: r =>
      if (c =? 32) || (c =? 9) || (c =? 10) || (c =? 13) then skip_ws r else s
  | [] => []
  end.

Definition unescape (e : N) : option N :=
  match e with
  | 34 => Some 34 | 92 => Some 92 | 47 => Some 47
  | 98 => Some 8 | 102 => Some 12 | 110 => Some 10
  | 114 => Some 13 | 116 => Some 9
  | _ => None
  end.

(** The characters of a string literal, after its opening quote. *)
Fixpoint parse_chars (s : jsstring) (acc : jsstring)
  : option (jsstring * jsstring) :=
  match s with
  | [] => None
  | c :: r =>
      if c =? 34 then Some (rev acc, r)
      else if c =? 92 then
        match r with
        | e :: r' =>
            match unescape e with
            | Some u => parse_chars r' (u :: acc)
            | None => None
            end
        | [] => None
        end
      else if c <? 32 then None
      else parse_chars r (c :: acc)
  end.

Fixpoint parse_digits (s : jsstring) (acc : Z) : Z * jsstring :=
  match s with
  | c :: r =>
      if isDigit c then parse_digits r (10 * acc + Z.of_N (c - 48))%Z
      else (acc, s)
  | [] => (acc, [])
  end.

Definition parse_number (s : jsstring) : option (Z * jsstring) :=
  let '(neg, body) :=
    match s with
    | 45 :: r => (true, r)
    | _ => (false, s)
    end in
  match body with
  | c :: _ =>
      if isDigit c then
        let '(n, rest) := parse_digits body 0%Z in
        match rest with
        | 46 :: _ | 101 :: _ | 69 :: _ => None
        | _ => Some (if neg then (- n)%Z else n, rest)
        end
      else None
  | [] => None
  end.

Fixpoint parse_value (fuel : nat) (s : jsstring)
  : option (value * jsstring) :=
  match fuel with
  | O => None
  | S fuel' =>
      match skip_ws s with
      | 110 :: 117 :: 108 :: 108 :: r => Some (JNull, r)
      | 116 :: 114 :: 117 :: 101 :: r => Some (JBool true, r)
      | 102 :: 97 :: 108 :: 115 :: 101 :: r => Some (JBool false, r)
      | 34 :: r =>
          match parse_chars r [] with
          | Some (str, r') => Some (JString str, r')
          | None => None
          end
      | 91 :: r =>
          match skip_ws r with
          | 93 :: r' => Some (JArray [], r')
          | _ =>
              match parse_elements fuel' r with
              | Some (items, r') => Some (JArray items, r')
              | None => None
              end
          end
      | 123 :: r =>
          match skip_ws r with
          | 125 :: r' => Some (JObject [], r')
          | _ =>
              match parse_members fuel' r with
              | Some (members, r') => Some (JObject members, r')
              | None => None
              end
          end
      | other =>
          match parse_number other with
          | Some (n, r) => Some (JNumber n, r)
          | None => None
          end
      end
  end
with parse_elements (fuel : nat) (s : jsstring)
  : option (list value * jsstring) :=
  match fuel with
  | O => None
  | S fuel' =>
      match parse_value fuel' s with
      | Some (v, r) =>
          match skip_ws r with
          | 44 :: r' =>
              match parse_elements fuel' r' with
              | Some (vs, r'') => Some (v :: vs, r'')
              | None => None
              end
          | 93 :: r' => Some ([v], r')
          | _ => None
          end
      | None => None
      end
  end
with parse_members (fuel : nat) (s : jsstring)
  : option (list (jsstring * value) * jsstring) :=
  match fuel with
  | O => None
  | S fuel' =>
      match skip_ws s with
      | 34 :: r =>
          match parse_chars r [] with
          | Some (key, r1) =>
              match skip_ws r1 with
              | 58 :: r2 =>
                  match parse_value fuel' r2 with
                  | Some (v, r3) =>
                      match skip_ws r3 with
                      | 44 :: r4 =>
                          match parse_members fuel' r4 with
                          | Some (ms, r5) => Some ((key, v) :: ms, r5)
                          | None => None
                          end
                      | 125 :: r4 => Some ([(key, v)], r4)
                      | _ => None
                      end
                  | None => None
                  end
              | _ => None
              end
          | None => None
          end
      | _ => None
      end
  end.

Definition parse (s : jsstring) : completion value :=
  match parse_value (S (2 * length s)) s with
  | Some (v, rest) =>
      match skip_ws rest with
      | [] => Normal v
      | _ => Throw "SyntaxError: unexpected non-whitespace after JSON"
      end
  | None => Throw "SyntaxError: not valid JSON"
  end.

Definition quote (s : jsstring) : jsstring :=
  34 :: flat_map (fun c =>
                    if c =? 34 then [92; 34]
                    else if c =? 92 then [92; 92]
                    else if c =? 8 then [92; 98]
                    else if c =? 12 then [92; 102]
                    else if c =? 10 then [92; 110]
                    else if c =? 13 then [92; 114]
                    else if c =? 9 then [92; 116]
                    else [c]) s
     ++ [34].

Fixpoint join (parts : list jsstring) : jsstring :=
  match parts with
  | [] => []
  | [p] => p
  | p :: rest => p ++ 44 :: join rest
  end.

Fixpoint stringify (v : value) : jsstring :=
  match v with
  | JNull => utf16 "null"
  | JBool true => utf16 "true"
  | JBool false => utf16 "false"
  | JNumber n => utf16 (NilZero.string_of_int (Z.to_int n))
  | JString s => quote s
  | JArray items => 91 :: join (map stringify items) ++ [93]
  | JObject members =>
      123 :: join (map (fun m => quote (fst m) ++ 58 :: stringify (snd m))
                       members) ++ [125]
  end.

Close Scope N_scope.
End MiniJSON.

(* ================================================================== *)
(** * useVoiceAI as its callers drive it                              *)
(* ================================================================== *)

Module VoiceHook.
Import JS VoiceAI.

(** What [getStats] returns. *)
Record Stats := mkStats {
  totalProfiles : nat;
  doctorSamples : nat;
  patientSamples : nat;
  isLearning : bool
}.

(** [voiceProfiles.get(k)?.samples || 0]. *)
Definition samplesOf (m : ProfileMap) (k : SpeakerType) : nat :=
  match Map_get m k with
  | Some p => samples p
  | None => 0
  end.

Definition getStats (st : State) : Stats :=
  {| totalProfiles := Map_size (voiceProfiles st);
     doctorSamples := samplesOf (voiceProfiles st) doctor;
     patientSamples := samplesOf (voiceProfiles st) patient;
     isLearning := VoiceAI.isLearning st |}.

(** The calls a component can make on the hook. *)
Inductive Call :=
| LearnVoice (audioContext : bool) (decoded : completion (list float))
             (speakerType : SpeakerType)
| IdentifySpeaker (audioContext : bool) (decoded : completion (list float))
| ResetVoiceProfiles
| StopLearning.

Section Calls.

Variable log10_approx : float -> float.

(** Both asynchronous functions catch what they throw, so the [Throw]
    branches below are never taken. *)
Definition step (st : State) (c : Call) : State :=
  match c with
  | LearnVoice audioContext decoded speakerType =>
      match learnVoice log10_approx st audioContext decoded speakerType with
      | Normal st' => st'
      | Throw _ => st
      end
  | IdentifySpeaker audioContext decoded =>
      match identifySpeaker log10_approx st audioContext decoded with
      | Normal (_, st') => st'
      | Throw _ => st
      end
  | ResetVoiceProfiles => resetVoiceProfiles st
  | StopLearning => stopLearning st
  end.

Definition run (st : State) (calls : list Call) : State :=
  fold_left step calls st.

End Calls.

(** A learn call whose audio context exists and whose blob decodes. *)
Definition learns (sample : SpeakerType * list float) : Call :=
  LearnVoice true (Normal (snd sample)) (fst sample).

(** Some feature is NaN; every feature is a finite number. *)
Definition has_nan (f : Features) : bool :=
  is_nan (avgPitch f) || is_nan (pitchVariance f) || is_nan (avgIntensity f)
  || is_nan (formantF1 f) || is_nan (formantF2 f) || is_nan (speechRate f)
  || is_nan (voiceQuality f).

Definition all_finite (f : Features) : bool :=
  is_finite (avgPitch f) && is_finite (pitchVariance f)
  && is_finite (avgIntensity f) && is_finite (formantF1 f)
  && is_finite (formantF2 f) && is_finite (speechRate f)
  && is_finite (voiceQuality f).

(** Every profile is filed under its own label and has been learnt at least
    once; no label is filed twice. *)
Definition filed (kv : SpeakerType * VoiceProfile) : Prop :=
  id (snd kv) = fst kv /\ name (snd kv) = fst kv /\ 1 <= samples (snd kv).

Definition wellFormed (m : ProfileMap) : Prop :=
  NoDup (map fst m) /\ Forall filed m.

(** Calls other than [resetVoiceProfiles], the only one that empties the
    store. *)
Definition keepsProfiles (c : Call) : bool :=
  match c with
  | ResetVoiceProfiles => false
  | _ => true
  end.

(** The label has a profile, and one of its features is NaN. *)
Definition poisoned (m : ProfileMap) (k : SpeakerType) : Prop :=
  exists p, Map_get m k = Some p /\ has_nan (features p) = true.

(** How many of the samples were learnt under the label. *)
Definition learntAs (label : SpeakerType)
           (samples : list (SpeakerType * list float)) : nat :=
  length (filter (fun s => SpeakerType_eqb (fst s) label) samples).

End VoiceHook.

(* ================================================================== *)
(** * components/ChatIA.tsx                                           *)
(* ================================================================== *)

Module ChatIA.
Import JS Speech.

(** [DiagnosisResponse] of lib/types. *)
Record DiagnosisResponse := mkDiagnosis {
  diagnosis : jsstring;
  conditions : list jsstring;
  exams : list jsstring;
  medications : list jsstring;
  explanation : option jsstring;
  diagnosisLanguage : Language
}.

Inductive Role := user | assistant.

Record Message := mkMessage {
  role : Role;
  content : jsstring
}.

Record State := mkState {
  messages : list Message;
  inputMessage : jsstring;
  loading : bool
}.

Definition initialState : State :=
  {| messages := []; inputMessage := []; loading := false |}.

(** The body posted to [/api/chat]. *)
Record Request := mkRequest {
  message : jsstring;
  contextDiagnosis : jsstring;
  contextConditions : list jsstring;
  contextExams : list jsstring;
  contextMedications : list jsstring;
  contextTranscript : jsstring;
  requestLanguage : Language
}.

(** How the request ends: [fetch] rejects; the status is not ok;
    [response.json()] rejects or resolves to [null]; or the body is a value
    whose [response] is this string ([None] when it has none). *)
Inductive Reply :=
| NetworkError
| HttpError (status : nat)
| BadBody
| Answer (response : option jsstring).

Definition noAnswer : jsstring :=
  utf16 "N" ++ [227%N] ++ utf16 "o foi poss" ++ [237%N]
  ++ utf16 "vel processar sua pergunta.".

Definition apology (language : Language) : jsstring :=
  match language with
  | pt => utf16 "Desculpe, houve um erro. Tente novamente."
  | en => utf16 "Sorry, there was an error. Please try again."
  end.

(** [sendMessage]: the new state and the request made, if any; [shown] is
    the component's [diagnosis] prop.  The input and the send button are
    disabled while [loading], so nothing happens between the request and its
    reply and the call is taken as one step. *)
Definition sendMessage (language : Language)
           (shown : option DiagnosisResponse) (transcript : jsstring)
           (reply : Reply) (st : State) : State * option Request :=
  match shown with
  | None => (st, None)
  | Some d =>
      if negb (truthy (trim (inputMessage st))) then (st, None)
      else
        let userMessage :=
          {| role := user; content := inputMessage st |} in
        let request :=
          {| message := inputMessage st;
             contextDiagnosis := diagnosis d;
             contextConditions := conditions d;
             contextExams := exams d;
             contextMedications := medications d;
             contextTranscript := transcript;
             requestLanguage := language |} in
        let assistantMessage :=
          match reply with
          | Answer response =>
              {| role := assistant;
                 content := match response with
                            | Some r => or_else r noAnswer
                            | None => noAnswer
                            end |}
          | NetworkError | HttpError _ | BadBody =>
              {| role := assistant; content := apology language |}
          end in
        ({| messages := messages st ++ [userMessage] ++ [assistantMessage];
            inputMessage := [];
            loading := false |}, Some request)
  end.

(** What the user does: type into the input, or send with the reply the
    request will get. *)
Inductive Action :=
| Type_ (text : jsstring)
| Send (reply : Reply).

Definition step (language : Language) (shown : option DiagnosisResponse)
           (transcript : jsstring) (st : State) (a : Action) : State :=
  match a with
  | Type_ text =>
      {| messages := messages st; inputMessage := text;
         loading := loading st |}
  | Send reply => fst (sendMessage language shown transcript reply st)
  end.

Definition run (language : Language) (shown : option DiagnosisResponse)
           (transcript : jsstring) (st : State) (actions : list Action)
  : State :=
  fold_left (step language shown transcript) actions st.

(** The requests posted during a run, in order. *)
Fixpoint posted (language : Language) (shown : option DiagnosisResponse)
         (transcript : jsstring) (st : State) (actions : list Action)
  : list Request :=
  match actions with
  | [] => []
  | a :: rest =>
      match a with
      | Send reply =>
          match snd (sendMessage language shown transcript reply st) with
          | Some request => [request]
          | None => []
          end
      | Type_ _ => []
      end ++ posted language shown transcript
                    (step language shown transcript st a) rest
  end.

(** The questions among the messages, in order. *)
Definition questions (ms : list Message) : list jsstring :=
  flat_map (fun m => match role m with
                     | user => [content m]
                     | assistant => []
                     end) ms.

(** A conversation in which every user message is followed by one
    assistant message. *)
Fixpoint paired (ms : list Message) : Prop :=
  match ms with
  | [] => True
  | u :: a :: rest =>
      role u = user /\ truthy (trim (content u)) = true /\
      role a = assistant /\ truthy (content a) = true /\ paired rest
  | _ => False
  end.

End ChatIA.

(* ================================================================== *)
(** * What is observed of a run                                       *)
(* ================================================================== *)

Module Observed.
Import JS JSON Speech.

(** Recorder actions that leave the utterance counter to the handler. *)
Definition noReset (a : Recorder.Action) : bool :=
  match a with
  | Recorder.Reset => false
  | _ => true
  end.

(** Recorder actions that leave the finalized buffer to the handler. *)
Definition keepsTranscript (a : Recorder.Action) : bool :=
  match a with
  | Recorder.Reset | Recorder.Start true => false
  | _ => true
  end.

(** Recorder actions other than [stop] and [reset], the two that clear
    [isProcessingRef] while a task may be running. *)
Definition noStop (a : Recorder.Action) : bool :=
  match a with
  | Recorder.Reset | Recorder.Stop => false
  | _ => true
  end.

(** Capture actions that leave counter and buffer to the handler: results,
    stops, and starts that fail before the refs are cleared. *)
Definition keepsCapture (a : VideoCallCapture.Action) : bool :=
  match a with
  | VideoCallCapture.Result _ | VideoCallCapture.StopCapture => true
  | VideoCallCapture.StartCapture VideoCallCapture.Refused
  | VideoCallCapture.StartCapture VideoCallCapture.NoAudioTrack => true
  | _ => false
  end.

(** What a call of the recorder's handler lets the user see: the label,
    the line and the transcript published, not the learning task. *)
Definition visible (o : Recorder.Output)
  : option VoiceAI.SpeakerType * option jsstring * option jsstring :=
  (Recorder.assigned o, Recorder.appended o, Recorder.emitted o).

(** The recorder's state without [isProcessingRef]. *)
Definition core (st : Recorder.State)
  : bool * jsstring * nat * jsstring * bool * VoiceAI.SpeakerType * jsstring :=
  (Recorder.recording st, Recorder.patientName st, Recorder.speechCountRef st,
   Recorder.finalRef st, Recorder.streamRef st, Recorder.lastSpeakerRef st,
   Recorder.lastTranscriptRef st).

(** The lines appended during a run, concatenated. *)
Definition appendedText (outputs : list Recorder.Output) : jsstring :=
  flat_map (fun o => match Recorder.appended o with
                     | Some line => line
                     | None => []
                     end) outputs.

Definition appendedCapture (outputs : list VideoCallCapture.Output)
  : jsstring :=
  flat_map (fun o => match VideoCallCapture.appended o with
                     | Some line => line
                     | None => []
                     end) outputs.

(** The stream requests among the calls of the diagnosis view. *)
Definition streamRequests (cs : list Diagnose.Call)
  : list (jsstring * Language) :=
  flat_map (fun c => match c with
                     | Diagnose.streamDiagnose t l => [(t, l)]
                     | _ => []
                     end) cs.

(** [JSON.parse] undoes [JSON.stringify] on the array of [items] and on the
    array of each of its tails. *)
Fixpoint roundTrips (parse : jsstring -> completion value)
         (stringify : value -> jsstring) (items : list value) : Prop :=
  match items with
  | [] => True
  | _ :: rest =>
      truthy (stringify (JArray items)) = true /\
      parse (stringify (JArray items)) = Normal (JArray items) /\
      roundTrips parse stringify rest
  end.

(** Saving [items] one after the other. *)
Fixpoint saveAll (parse : jsstring -> completion value)
         (stringify : value -> jsstring) (items : list value)
         (w : History.Browser) : completion History.Browser :=
  match items with
  | [] => Normal w
  | item :: rest =>
      w' <- History.saveHistoryItem parse stringify item w ;;
      saveAll parse stringify rest w'
  end.

End Observed.

(* ================================================================== *)
(** * The video-call capture and its recognizer                       *)
(* ================================================================== *)

Module CaptureLifecycle.
Import JS Speech.

(** The capture component together with [recognitionRef]: whether it holds
    a recognizer.  [cleanup], called by [stopCapture] and [reset], empties
    it; only the effect that creates the recognizer fills it. *)
Record State := mkState {
  capture : VideoCallCapture.State;
  recognitionRef : bool
}.

(** How the screen-share prompt ends; for a shared surface with audio,
    [started] tells whether the recognizer's [start] succeeds. *)
Inductive Display :=
| Rejected
| WithoutAudio
| WithAudio (started : bool).

(** The way [startCapture] goes, given the prompt and the ref. *)
Definition outcome (recognitionRef : bool) (d : Display)
  : VideoCallCapture.Capture :=
  match d with
  | Rejected => VideoCallCapture.Refused
  | WithoutAudio => VideoCallCapture.NoAudioTrack
  | WithAudio started =>
      if negb recognitionRef then VideoCallCapture.NoRecognition
      else if started then VideoCallCapture.Capturing
      else VideoCallCapture.RecognitionFailed
  end.

(** [Effect] is a run of the effect that creates the recognizer: on mount
    and whenever [language], [onTranscriptChange] or [patientName] change. *)
Inductive Action :=
| Effect
| StartCapture (d : Display)
| StopCapture
| Reset
| Result (event : Event).

Section Lifecycle.

(** ["webkitSpeechRecognition" in window]. *)
Variable supported : bool.
Variable language : Language.
Variable patientName : jsstring.

Definition step (s : State) (a : Action) : State :=
  match a with
  | Effect =>
      {| capture := capture s;
         recognitionRef := if supported then true else recognitionRef s |}
  | StartCapture d =>
      {| capture :=
           VideoCallCapture.startCapture (outcome (recognitionRef s) d)
                                         (capture s);
         recognitionRef := recognitionRef s |}
  | StopCapture =>
      {| capture := fst (VideoCallCapture.stopCapture (capture s));
         recognitionRef := false |}
  | Reset =>
      {| capture := VideoCallCapture.reset (capture s);
         recognitionRef := false |}
  | Result event =>
      {| capture :=
           fst (VideoCallCapture.onresult language patientName (capture s)
                                          event);
         recognitionRef := recognitionRef s |}
  end.

Definition run (s : State) (actions : list Action) : State :=
  fold_left step actions s.

End Lifecycle.

(** ** The duration shown while recording *)

(** [String(n)] for a natural number: its decimal digits. *)
Definition Number_toString (n : nat) : jsstring :=
  utf16 (NilEmpty.string_of_uint (Nat.to_uint n)).

(** [s.padStart(2, "0")]. *)
Definition padStart2 (s : jsstring) : jsstring :=
  repeat 48%N (2 - length s) ++ s.

(** [formatTime]; [seconds] counts the ticks of the one-second timer. *)
Definition formatTime (seconds : nat) : jsstring :=
  let mins := seconds / 60 in
  let secs := seconds mod 60 in
  Number_toString mins ++ utf16 ":" ++ padStart2 (Number_toString secs).

(** The component once mounted. *)
Definition mounted (supported : bool) : State :=
  {| capture := VideoCallCapture.initialState; recognitionRef := supported |}.

Definition ends (a : Action) : bool :=
  match a with
  | StopCapture | Reset => true
  | _ => false
  end.

Definition noEffect (a : Action) : bool :=
  match a with
  | Effect => false
  | _ => true
  end.

End CaptureLifecycle.

(* ================================================================== *)
(** * components/HistoryDrawer.tsx: grouping by day                   *)
(* ================================================================== *)

Module HistoryDrawer.
Import JS.

(** The fields of a [HistoryItem] that the grouping reads ([timestamp]) and
    that keys a row ([id]); time stamps are integral milliseconds. *)
Record HistoryItem := mkItem {
  id : jsstring;
  timestamp : Z
}.

(** [a < b] on strings: code unit by code unit. *)
Fixpoint str_ltb (a b : jsstring) : bool :=
  match a, b with
  | _, [] => false
  | [], _ :: _ => true
  | x :: a', y :: b' =>
      if N.ltb x y then true
      else if N.ltb y x then false
      else str_ltb a' b'
  end.

(** [Array.prototype.sort] with a comparator.  The sort is stable, and for
    a consistent comparator its result does not depend on the engine: it is
    that of the insertion sort which puts an element behind those the
    comparator orders before it. *)
Section Sort.

Variable A : Type.
Variable compare : A -> A -> Z.

Fixpoint insert (x : A) (l : list A) : list A :=
  match l with
  | [] => [x]
  | y :: r => if (0 <? compare x y)%Z then y :: insert x r else x :: y :: r
  end.

Fixpoint sort (l : list A) : list A :=
  match l with
  | [] => []
  | x :: r => insert x (sort r)
  end.

End Sort.
Arguments insert {A} compare x l.
Arguments sort {A} compare l.

(** An object used as a map from day keys to lists, in insertion order (the
    keys are dates, never array indices). *)
Definition Groups := list (jsstring * list HistoryItem).

(** [g[key]], the empty list standing for a missing key. *)
Fixpoint lookup (key : jsstring) (g : Groups) : list HistoryItem :=
  match g with
  | [] => []
  | (k, l) :: g' => if str_eqb k key then l else lookup key g'
  end.

(** [(g[key] ||= []).push(it)]. *)
Fixpoint push (g : Groups) (key : jsstring) (it : HistoryItem) : Groups :=
  match g with
  | [] => [(key, [it])]
  | (k, l) :: g' =>
      if str_eqb k key then (k, l ++ [it]) :: g'
      else (k, l) :: push g' key it
  end.

Section Grouping.

(** [toDateKey]: the calendar day of a time stamp in the browser's time
    zone, as YYYY-MM-DD. *)
Variable toDateKey : Z -> jsstring.

(** The first loop of [groups]. *)
Definition collected (items : list HistoryItem) : Groups :=
  fold_left (fun g it => push g (toDateKey (timestamp it)) it) items [].

(** [groups]: every list sorted by [(a, b) => b.timestamp - a.timestamp]. *)
Definition groups (items : list HistoryItem) : Groups :=
  map (fun kl => (fst kl,
                  sort (fun a b => (timestamp b - timestamp a)%Z) (snd kl)))
      (collected items).

(** [Object.keys(groups).sort((a, b) => (a < b ? 1 : -1))]. *)
Definition orderedKeys (items : list HistoryItem) : list jsstring :=
  sort (fun a b => if str_ltb a b then 1%Z else (-1)%Z)
       (map fst (groups items)).

(** What is rendered: [orderedKeys.map(key => groups[key])], each list under
    its key. *)
Definition rendered (items : list HistoryItem) : Groups :=
  map (fun key => (key, lookup key (groups items))) (orderedKeys items).

End Grouping.

End HistoryDrawer.

(* ================================================================== *)
(** * Formulas as the specification words them                        *)
(* ================================================================== *)

Module Stated.
Import JS VoiceAI.
Open Scope float_scope.

Definition clamp_lower0 (x : float) : float := Math_max 0 x.
Definition clamp01 (x : float) : float := Math_max 0 (Math_min 1 x).

(** The seven features with their weights and normalization scales. *)
Definition table : list (float * (Features -> float) * float) :=
  [ (0.25, avgPitch, 400);
    (0.15, pitchVariance, 100);
    (0.1, avgIntensity, 60);
    (0.2, formantF1, 1000);
    (0.2, formantF2, 2000);
    (0.05, speechRate, 10);
    (0.05, voiceQuality, 1) ].

(** "similarity = sum of weight_i * clamp(1 - |f1_i - f2_i| / scale_i,
    lower=0)", the final sum clamped to [0,1]. *)
Definition term_clamped (f1 f2 : Features)
           (row : float * (Features -> float) * float) : float :=
  let '(weight, field, scale) := row in
  weight * clamp_lower0 (1 - Math_abs (field f1 - field f2) / scale).

Definition similarity_per_term_clamped (f1 f2 : Features) : float :=
  clamp01 (fold_left (fun acc row => acc + term_clamped f1 f2 row) table 0).

(** The same sum without the clamp on each term.  The last scale is 1: the
    voice-quality difference is taken as it is. *)
Definition table_unclamped
  : list (float * (Features -> float) * option float) :=
  [ (0.25, avgPitch, Some 400);
    (0.15, pitchVariance, Some 100);
    (0.1, avgIntensity, Some 60);
    (0.2, formantF1, Some 1000);
    (0.2, formantF2, Some 2000);
    (0.05, speechRate, Some 10);
    (0.05, voiceQuality, None) ].

Definition normalized (d : float) (scale : option float) : float :=
  match scale with
  | Some s => d / s
  | None => d
  end.

Definition term (f1 f2 : Features)
           (row : float * (Features -> float) * option float) : float :=
  let '(weight, field, scale) := row in
  weight * (1 - normalized (Math_abs (field f1 - field f2)) scale).

Definition similarity_final_clamp_only (f1 f2 : Features) : float :=
  clamp01 (fold_left (fun acc row => acc + term f1 f2 row) table_unclamped 0).

(** "new average = old * 0.7 + new * 0.3 per-field". *)
Definition blend (old new : Features) : Features :=
  {| avgPitch := avgPitch old * 0.7 + avgPitch new * 0.3;
     pitchVariance := pitchVariance old * 0.7 + pitchVariance new * 0.3;
     avgIntensity := avgIntensity old * 0.7 + avgIntensity new * 0.3;
     formantF1 := formantF1 old * 0.7 + formantF1 new * 0.3;
     formantF2 := formantF2 old * 0.7 + formantF2 new * 0.3;
     speechRate := speechRate old * 0.7 + speechRate new * 0.3;
     voiceQuality := voiceQuality old * 0.7 + voiceQuality new * 0.3 |}.

(** The similarity of every stored profile, in the store's order, and what
    it means for [m] to be their maximum. *)
Definition similarities (f : Features) (store : ProfileMap) : list float :=
  map (fun p => calculateSimilarity f (features p)) (Map_values store).

Definition is_maximum (m : float) (l : list float) : Prop :=
  In m l /\ forall x, In x l -> (x <=? m) = true.

(** The text a handler commits for one finalized result: the transcript
    with the space the loop appends, trimmed. *)
Definition committed (text : jsstring) : jsstring := trim (text ++ [32%N]).

(** No text of [cs] equals the one committed just before it, [last] being
    the one committed before the first. *)
Fixpoint fresh (last : jsstring) (cs : list jsstring) : Prop :=
  match cs with
  | [] => True
  | c :: rest => c <> last /\ fresh c rest
  end.

(** The label the alternation rule gives to the utterance of index [i]. *)
Definition alternation (i : nat) : SpeakerType :=
  if Nat.even i then doctor else patient.

(** "doctor" for every even-indexed result and "patient" for every
    odd-indexed one, out of [n] results. *)
Definition alternating (n : nat) : list SpeakerType :=
  map alternation (seq 0 n).

Close Scope float_scope.
End Stated.

(** ** The diagnosis that is persisted *)

Module StatedDiagnosis.
Import JS JSON Speech.






End StatedDiagnosis.

(* ================================================================== *)
(** * Sample data                                                     *)
(* ================================================================== *)

Module Samples.
Import JS VoiceAI.
Open Scope float_scope.

(** A stored profile and a new sample that differ in pitch by 900 Hz
    (hence in pitch variance by 90) and agree everywhere else. *)
Definition storedVoice : Features :=
  {| avgPitch := 100; pitchVariance := 10; avgIntensity := -30;
     formantF1 := 600; formantF2 := 1400; speechRate := 3;
     voiceQuality := 0.4 |}.

Definition newVoice : Features :=
  {| avgPitch := 1000; pitchVariance := 100; avgIntensity := -30;
     formantF1 := 600; formantF2 := 1400; speechRate := 3;
     voiceQuality := 0.4 |}.

(** A stand-in for the approximated part of [Math.log10]. *)
Definition log10_stub (x : float) : float := x.

(** One second of audio, shortened to four samples, and its features. *)
Definition snippet : list float := [0.5; 0.2; -0.3; 0.4].

Definition snippetFeatures : Features :=
  Eval vm_compute in
    match extractVoiceFeatures log10_stub true snippet with
    | Normal f => f
    | Throw _ => zeroFeatures
    end.

(** A voice close to the snippet's. *)
Definition patientVoice : Features :=
  {| avgPitch := 11000; pitchVariance := 1100; avgIntensity := 7;
     formantF1 := 600; formantF2 := 1400; speechRate := 0;
     voiceQuality := 0.8 |}.

(** A hook that has learnt the doctor's voice three times and the patient's
    once. *)
Definition trained : State :=
  {| voiceProfiles :=
       [ (doctor, {| id := doctor; name := doctor;
                     features := storedVoice; samples := 3 |});
         (patient, {| id := patient; name := patient;
                      features := patientVoice; samples := 1 |}) ];
     isLearning := true;
     lastAnalysisRef := None |}.

Close Scope float_scope.

(** ** A consultation *)

Import JSON Speech.

Definition feverTranscript : jsstring :=
  utf16 "Doctor: I see fever" ++ [10%N]
  ++ utf16 "Patient: yes since yesterday" ++ [10%N].

Definition fluDiagnosis : value :=
  JObject [ (utf16 "diagnosis", JString (utf16 "Influenza"));
            (utf16 "conditions", JArray [JString (utf16 "flu")]);
            (utf16 "exams", JArray []);
            (utf16 "medications", JArray [JString (utf16 "rest")]);
            (utf16 "language", JString (utf16 "en")) ].

Definition coldDiagnosis : value :=
  JObject [ (utf16 "diagnosis", JString (utf16 "Common cold"));
            (utf16 "conditions", JArray []);
            (utf16 "exams", JArray []);
            (utf16 "medications", JArray []);
            (utf16 "language", JString (utf16 "en")) ].

(** An item saved by an earlier consultation, and the browser holding it. *)
Definition olderItem : value :=
  JObject [ (utf16 "id", JString (utf16 "7c1e"));
            (utf16 "timestamp", JNumber 1762000000000);
            (utf16 "language", JString (utf16 "en"));
            (utf16 "transcript", JString (utf16 "Doctor: hello"));
            (utf16 "result", coldDiagnosis) ].

Definition visited : History.Browser :=
  {| History.stored := Some (MiniJSON.stringify (JArray [olderItem]));
     History.dispatched := 1 |}.

(** A browser whose history entry is not JSON. *)
Definition garbled : History.Browser :=
  {| History.stored := Some (utf16 "{not json");
     History.dispatched := 0 |}.

Definition feverProps : Diagnose.Props :=
  {| Diagnose.language := en;
     Diagnose.transcript := feverTranscript;
     Diagnose.patientName := Some (utf16 "Ana") |}.

(** The stream delivers the diagnosis in two chunks before the timer fires;
    the blocking request would answer something else. *)
Definition streamed : Diagnose.Env :=
  {| Diagnose.stream :=
       Normal [ firstn 20 (MiniJSON.stringify fluDiagnosis);
                skipn 20 (MiniJSON.stringify fluDiagnosis) ];
     Diagnose.response := Normal coldDiagnosis;
     Diagnose.uuid := utf16 "9b2f";
     Diagnose.now := 1762041600000 |}.




Definition idleView : Diagnose.World :=
  {| Diagnose.loading := false; Diagnose.result := None;
     Diagnose.browser := visited; Diagnose.calls := [] |}.

End Samples.

(* ================================================================== *)
(** * Facts about binary64 comparisons                                *)
(* ================================================================== *)

Section FloatOrder.
Import JS.
Open Scope float_scope.

Lemma SFcompare_swap (x y : spec_float) :
  SFcompare y x = option_map CompOpp (SFcompare x y).
Proof.
  destruct x as [sx|sx| |sx mx ex], y as [sy|sy| |sy my ey]; simpl;
    try reflexivity; try (destruct sx; reflexivity);
    try (destruct sy; reflexivity); try (destruct sx, sy; reflexivity).
  destruct sx, sy; simpl; try reflexivity;
    rewrite (Z.compare_antisym ex ey);
    destruct (ex ?= ey)%Z; simpl; try reflexivity;
    change (Pos.compare_cont Eq my mx) with (Pos.compare my mx);
    change (Pos.compare_cont Eq mx my) with (Pos.compare mx my);
    rewrite (Pos.compare_antisym mx my);
    destruct (mx ?= my)%positive; reflexivity.
Qed.

Lemma SFcompare_refl (x : spec_float) :
  x <> S754_nan -> SFcompare x x = Some Eq.
Proof.
  destruct x as [s|s| |s m e]; simpl; intros H; try congruence.
  - destruct s; reflexivity.
  - destruct s; rewrite Z.compare_refl;
      change (Pos.compare_cont Eq m m) with (Pos.compare m m);
      rewrite Pos.compare_refl; reflexivity.
Qed.

Lemma SFcompare_None (x y : spec_float) :
  SFcompare x y = None -> x = S754_nan \/ y = S754_nan.
Proof.
  destruct x as [sx|sx| |sx mx ex], y as [sy|sy| |sy my ey]; simpl;
    auto; discriminate.
Qed.

Lemma SFcompare_Some (x y : spec_float) (c : comparison) :
  SFcompare x y = Some c -> x <> S754_nan /\ y <> S754_nan.
Proof.
  destruct x as [sx|sx| |sx mx ex], y as [sy|sy| |sy my ey]; simpl;
    intros H; split; congruence.
Qed.

Lemma SFcompare_Eq (x y : spec_float) :
  SFcompare x y = Some Eq ->
  x = y \/ (exists sx sy, x = S754_zero sx /\ y = S754_zero sy).
Proof.
  destruct x as [sx|sx| |sx mx ex], y as [sy|sy| |sy my ey]; simpl;
    intros H; try discriminate; try (destruct sx; discriminate);
    try (destruct sy; discriminate).
  - right; eauto.
  - left. destruct sx, sy; try discriminate; reflexivity.
  - left. destruct sx, sy; try discriminate;
      destruct (ex ?= ey)%Z eqn:He; try discriminate;
      apply Z.compare_eq in He; subst ey;
      change (Pos.compare_cont Eq mx my) with (Pos.compare mx my) in H;
      destruct (mx ?= my)%positive eqn:Hm; try discriminate;
      apply Pos.compare_eq in Hm; subst; reflexivity.
Qed.

Lemma is_nan_spec (x : float) : is_nan x = true <-> Prim2SF x = S754_nan.
Proof.
  unfold is_nan. rewrite eqb_spec. unfold SFeqb. split.
  - destruct (Prim2SF x) as [s|s| |s m e] eqn:E; auto;
      rewrite SFcompare_refl by congruence; discriminate.
  - intros ->. reflexivity.
Qed.

Lemma not_nan_spec (x : float) : Prim2SF x <> S754_nan -> is_nan x = false.
Proof.
  intros H. destruct (is_nan x) eqn:E; auto.
  apply is_nan_spec in E. contradiction.
Qed.

Lemma float_cmp (x y : float) : float_order x y.
Proof.
  pose proof (SFcompare_swap (Prim2SF x) (Prim2SF y)) as Hs.
  destruct (SFcompare (Prim2SF x) (Prim2SF y)) as [c|] eqn:E; simpl in Hs.
  - pose proof (SFcompare_Some _ _ _ E) as [Hx Hy].
    destruct c; [apply fo_eq | apply fo_lt | apply fo_gt];
      rewrite ?ltb_spec, ?leb_spec, ?eqb_spec; unfold SFltb, SFleb, SFeqb;
      rewrite ?E, ?Hs; simpl; auto using not_nan_spec.
  - apply fo_nan;
      rewrite ?ltb_spec, ?leb_spec, ?eqb_spec; unfold SFltb, SFleb, SFeqb;
      rewrite ?E, ?Hs; simpl; auto.
    apply SFcompare_None in E. destruct E as [E|E]; [left|right];
      apply is_nan_spec; exact E.
Qed.

(** Numerically equal numbers are the same number, the two zeros apart. *)
Lemma eqb_true_eq (x y : float) :
  (x =? y) = true -> x = y \/ ((x =? 0) = true /\ (y =? 0) = true).
Proof.
  rewrite eqb_spec. unfold SFeqb.
  destruct (SFcompare (Prim2SF x) (Prim2SF y)) as [[]|] eqn:E;
    try discriminate.
  intros _. apply SFcompare_Eq in E. destruct E as [E|(sx & sy & Ex & Ey)].
  - left. apply Prim2SF_inj; exact E.
  - right. rewrite !eqb_spec, Ex, Ey. split; reflexivity.
Qed.

Lemma float_neq (x y : float) : Leibniz.eqb x y = false -> x <> y.
Proof.
  intros H E. apply Leibniz.eqb_spec in E. congruence.
Qed.

End FloatOrder.

(* ================================================================== *)
(** * The similarity score                                             *)
(* ================================================================== *)

Section Clamp.
Import JS VoiceAI Stated.
Open Scope float_scope.

Lemma Math_min_1 (s : float) :
  is_nan s = false ->
  (Math_min 1 s = 1 /\ (1 <=? s) = true) \/
  (Math_min 1 s = s /\ (s <? 1) = true).
Proof.
  intros Hs. unfold Math_min. rewrite Hs.
  change (is_nan 1 || false) with false. cbv iota.
  destruct (float_cmp 1 s) as [H1 H2 H3 H4 H5 H6 _ _|H1 H2 H3 H4 H5 H6 _ _
                              |H1 H2 H3 H4 H5 H6 _ _|H1 H2 H3 H4 H5 H6 Hn].
  - rewrite H1. left. auto.
  - rewrite H1, H4. change (is_neg_zero 1) with false. cbv iota.
    left. destruct (eqb_true_eq _ _ H3) as [E|[E _]].
    + subst s. auto.
    + discriminate E.
  - rewrite H1, H4. right. auto.
  - destruct Hn as [Hn|Hn]; [discriminate Hn | congruence].
Qed.

Lemma Math_max_0 (s : float) :
  is_nan s = false ->
  (Math_max 0 s = s /\ (0 <? s) = true) \/
  (Math_max 0 s = 0 /\ (s <=? 0) = true).
Proof.
  intros Hs. unfold Math_max. rewrite Hs.
  change (is_nan 0 || false) with false. cbv iota.
  destruct (float_cmp 0 s) as [H1 H2 H3 H4 H5 H6 _ _|H1 H2 H3 H4 H5 H6 _ _
                              |H1 H2 H3 H4 H5 H6 _ _|H1 H2 H3 H4 H5 H6 Hn].
  - rewrite H1. left. auto.
  - rewrite H1, H4. change (is_neg_zero 0) with false. cbv iota.
    right. auto.
  - rewrite H1, H4. right. auto.
  - destruct Hn as [Hn|Hn]; [discriminate Hn | congruence].
Qed.

Lemma Math_min_nan (a : float) : Math_min a nan = nan.
Proof.
  unfold Math_min. change (is_nan nan) with true.
  rewrite orb_true_r. reflexivity.
Qed.

Lemma Math_max_nan (a : float) : Math_max a nan = nan.
Proof.
  unfold Math_max. change (is_nan nan) with true.
  rewrite orb_true_r. reflexivity.
Qed.

(** The four outcomes of clamping to [0,1]. *)
Lemma clamp01_cases (s : float) :
  (is_nan s = true /\ clamp01 s = nan) \/
  (clamp01 s = 1 /\ (1 <=? s) = true) \/
  (clamp01 s = s /\ (0 <? s) = true /\ (s <? 1) = true) \/
  (clamp01 s = 0 /\ (s <=? 0) = true).
Proof.
  unfold clamp01. destruct (is_nan s) eqn:Hs.
  - left. split; [reflexivity|].
    unfold Math_min. rewrite Hs, orb_true_r. apply Math_max_nan.
  - right. destruct (Math_min_1 s Hs) as [[-> H]|[-> H]].
    + left. split; [reflexivity | exact H].
    + destruct (Math_max_0 s Hs) as [[-> H0]|[-> H0]]; auto.
Qed.

(** A clamped score that is a number is [+0] or positive, and at most 1. *)
Lemma clamp01_range (s : float) :
  is_nan (clamp01 s) = false ->
  (clamp01 s = 0 \/ (0 <? clamp01 s) = true) /\ (clamp01 s <=? 1) = true.
Proof.
  intros Hn.
  destruct (clamp01_cases s) as [[_ E]|[[E _]|[[E [H0 H1]]|[E _]]]];
    rewrite E in *.
  - discriminate Hn.
  - split; [right|]; reflexivity.
  - split; [right; exact H0|].
    destruct (float_cmp s 1) as [? ? ? ? ? ? _ _|? ? ? ? ? ? _ _
                                |? ? ? ? ? ? _ _|? ? ? ? ? ? ?];
      congruence.
  - split; [left|]; reflexivity.
Qed.

Lemma calculateSimilarity_clamp01 (f1 f2 : Features) :
  exists s, calculateSimilarity f1 f2 = clamp01 s.
Proof. eexists. reflexivity. Qed.

End Clamp.

Section Similarity.
Import JS VoiceAI Stated Samples.
Open Scope float_scope.

Lemma leb_of_zero_or_pos (x : float) :
  x = 0 \/ (0 <? x) = true -> (0 <=? x) = true.
Proof.
  intros [->|H]; [reflexivity|].
  destruct (float_cmp 0 x) as [? ? ? ? ? ? _ _|? ? ? ? ? ? _ _
                              |? ? ? ? ? ? _ _|? ? ? ? ? ? ?];
    congruence.
Qed.

(** C2, as stated, fails: for a sample 900 Hz above the stored pitch the
    source's score is below the 0.4 threshold, while the sum of individually
    clamped terms is above it. *)
Lemma C2_per_term_clamp_counterexample :
  (calculateSimilarity newVoice storedVoice <? 0.4) = true /\
  (0.4 <? similarity_per_term_clamped newVoice storedVoice) = true /\
  calculateSimilarity newVoice storedVoice
  <> similarity_per_term_clamped newVoice storedVoice.
Proof.
  split; [vm_compute; reflexivity|].
  split; [vm_compute; reflexivity|].
  apply float_neq. vm_compute. reflexivity.
Qed.

(** C2, amended: the similarity is the weighted sum, over the seven features,
    of [weight_i * (1 - |f1_i - f2_i| / scale_i)] with those weights and
    scales and no clamp on the individual terms; only the final sum is clamped
    to [0,1], so the score is a number of [0,1] or NaN. *)
Theorem C2_similarity_final_clamp_only (f1 f2 : Features) :
  calculateSimilarity f1 f2 = similarity_final_clamp_only f1 f2 /\
  (is_nan (calculateSimilarity f1 f2) = true \/
   ((0 <=? calculateSimilarity f1 f2) = true /\
    (calculateSimilarity f1 f2 <=? 1) = true)).
Proof.
  split; [reflexivity|].
  destruct (calculateSimilarity_clamp01 f1 f2) as [s ->].
  destruct (is_nan (clamp01 s)) eqn:Hn; [left; reflexivity | right].
  destruct (clamp01_range s Hn) as [H0 H1].
  split; [apply leb_of_zero_or_pos; exact H0 | exact H1].
Qed.

(** Where no term is negative the clamp on a term changes nothing: a term
    that is [+0] or positive is its own lower clamp. *)
Lemma clamp_lower0_id (t : float) :
  t = 0 \/ (0 <? t) = true -> clamp_lower0 t = t.
Proof.
  intros H. unfold clamp_lower0.
  assert (Hn : is_nan t = false).
  { destruct H as [->|H]; [reflexivity|].
    destruct (float_cmp 0 t) as [? ? ? ? ? ? _ ?|? ? ? ? ? ? _ ?
                                |? ? ? ? ? ? _ ?|? ? ? ? ? ? ?];
      congruence. }
  destruct (Math_max_0 t Hn) as [[E _]|[E Hle]]; [exact E|].
  rewrite E. destruct H as [->|H]; [reflexivity|].
  destruct (float_cmp 0 t) as [? ? ? ? ? ? _ _|? ? ? ? ? ? _ _
                              |? ? ? ? ? ? _ _|? ? ? ? ? ? ?];
    congruence.
Qed.

End Similarity.

(* ================================================================== *)
(** * Feature extraction, learning and identification                 *)
(* ================================================================== *)

Section Voice.
Import JS VoiceAI Stated Samples.
Open Scope float_scope.

Lemma SpeakerType_eqb_eq (a b : SpeakerType) :
  SpeakerType_eqb a b = true <-> a = b.
Proof. destruct a, b; simpl; split; congruence. Qed.

Lemma SpeakerType_eqb_neq (a b : SpeakerType) :
  SpeakerType_eqb a b = false <-> a <> b.
Proof. destruct a, b; simpl; split; congruence. Qed.

Lemma Map_get_set_same (m : ProfileMap) (k : SpeakerType) (v : VoiceProfile) :
  Map_get (Map_set m k v) k = Some v.
Proof.
  induction m as [|[k' v'] m IH]; simpl.
  - destruct k; reflexivity.
  - destruct (SpeakerType_eqb k' k) eqn:E; simpl.
    + destruct k; reflexivity.
    + rewrite E. exact IH.
Qed.

Lemma Map_get_set_other (m : ProfileMap) (k k' : SpeakerType)
      (v : VoiceProfile) :
  k' <> k -> Map_get (Map_set m k v) k' = Map_get m k'.
Proof.
  intros Hne. induction m as [|[k0 v0] m IH]; simpl.
  - apply SpeakerType_eqb_neq in Hne.
    destruct (SpeakerType_eqb k k') eqn:E; [|reflexivity].
    apply SpeakerType_eqb_eq in E. subst k'.
    apply SpeakerType_eqb_neq in Hne. congruence.
  - destruct (SpeakerType_eqb k0 k) eqn:E; simpl.
    + apply SpeakerType_eqb_eq in E. subst k0.
      assert (SpeakerType_eqb k k' = false) as ->
        by (apply SpeakerType_eqb_neq; congruence).
      reflexivity.
    + destruct (SpeakerType_eqb k0 k'); [reflexivity | exact IH].
Qed.

Lemma extract_empty (approx : float -> float) :
  extractVoiceFeatures approx true [] =
  Normal {| avgPitch := nan; pitchVariance := nan; avgIntensity := nan;
            formantF1 := nan; formantF2 := nan; speechRate := nan;
            voiceQuality := 0.4 |}.
Proof. reflexivity. Qed.

(** C4, as stated, fails: whatever [Math.log10] approximates, the features
    extracted from the empty buffer are not the all-zero vector. *)
Lemma C4_empty_buffer_counterexample :
  ~ exists approx, extractVoiceFeatures approx true [] = Normal zeroFeatures.
Proof.
  intros [approx H]. rewrite extract_empty in H.
  apply (f_equal (fun c => match c with
                           | Normal x => avgPitch x
                           | Throw _ => 0
                           end)) in H.
  simpl in H. revert H. apply float_neq. reflexivity.
Qed.

(** C4, amended: with an audio context at hand the extractor does not fail on
    the empty buffer; every division is [0/0] there, so the six estimates are
    NaN and the voice quality, a test on a NaN intensity, is 0.4. *)
Theorem C4_empty_buffer_features (approx : float -> float) :
  exists f,
    extractVoiceFeatures approx true [] = Normal f /\
    is_nan (avgPitch f) = true /\ is_nan (pitchVariance f) = true /\
    is_nan (avgIntensity f) = true /\ is_nan (formantF1 f) = true /\
    is_nan (formantF2 f) = true /\ is_nan (speechRate f) = true /\
    voiceQuality f = 0.4.
Proof.
  eexists. split; [apply extract_empty|]. repeat split.
Qed.

Lemma extract_needs_context (approx : float -> float) (ctx : bool)
      (audio : list float) (f : Features) :
  extractVoiceFeatures approx ctx audio = Normal f -> ctx = true.
Proof.
  destruct ctx; [reflexivity|]. unfold extractVoiceFeatures. simpl. discriminate.
Qed.

(** C5: a learn call made while learning is enabled, whose audio decodes and
    whose features extract, creates the profile of a label that has none
    (features as extracted, [samples = 1]) and otherwise replaces every
    feature of the label's profile by [old * 0.7 + new * 0.3] and adds 1 to
    its [samples]; every other profile is left as it was. *)
Theorem C5_learnVoice_profile (approx : float -> float) (st : State)
        (ctx : bool) (decoded : completion (list float))
        (audio : list float) (label : SpeakerType) (f : Features) :
  isLearning st = true ->
  decoded = Normal audio ->
  extractVoiceFeatures approx ctx audio = Normal f ->
  exists st',
    learnVoice approx st ctx decoded label = Normal st' /\
    (Map_get (voiceProfiles st) label = None ->
     Map_get (voiceProfiles st') label =
     Some {| id := label; name := label; features := f; samples := 1 |}) /\
    (forall p, Map_get (voiceProfiles st) label = Some p ->
     Map_get (voiceProfiles st') label =
     Some {| id := id p; name := name p;
             features := blend (features p) f;
             samples := samples p + 1 |}) /\
    (forall other, other <> label ->
     Map_get (voiceProfiles st') other = Map_get (voiceProfiles st) other).
Proof.
  intros Hl Hd Hx.
  pose proof (extract_needs_context _ _ _ _ Hx) as Hc. subst ctx decoded.
  unfold learnVoice. rewrite Hl.
  cbn -[extractVoiceFeatures learnUpdate]. rewrite Hx.
  cbn -[learnUpdate].
  eexists. split; [reflexivity|]. cbn -[learnUpdate].
  unfold learnUpdate. repeat split.
  - intros Hn. rewrite Hn. apply Map_get_set_same.
  - intros p Hp. rewrite Hp. rewrite Map_get_set_same. reflexivity.
  - intros other Hne.
    destruct (Map_get (voiceProfiles st) label);
      apply Map_get_set_other; exact Hne.
Qed.

(** A failure inside [identifySpeaker] never escapes it: the call returns,
    and when the audio context or the decoding fails it returns the unknown
    speaker with confidence 0 and all-zero features. *)
Lemma identifySpeaker_returns (approx : float -> float) (st : State)
      (ctx : bool) (decoded : completion (list float)) :
  exists a st', identifySpeaker approx st ctx decoded = Normal (a, st').
Proof.
  unfold identifySpeaker.
  destruct ctx; [|simpl; eauto].
  destruct decoded as [audio|e]; [|simpl; eauto].
  cbn -[bestMatchOf]. destruct (Nat.eqb (Map_size (voiceProfiles st)) 0);
    simpl; eauto.
Qed.

Lemma identifySpeaker_failure (approx : float -> float) (st : State)
      (ctx : bool) (decoded : completion (list float)) :
  ctx = false \/ (exists e, decoded = Throw e) ->
  identifySpeaker approx st ctx decoded =
  Normal ({| speaker := auto; confidence := 0;
             analysisFeatures := zeroFeatures |}, st).
Proof.
  intros [->|[e ->]]; [reflexivity|]. destruct ctx; reflexivity.
Qed.

(** With learning stopped, [learnVoice] changes nothing. *)
Lemma learnVoice_disabled (approx : float -> float) (st : State) (ctx : bool)
      (decoded : completion (list float)) (label : SpeakerType) :
  isLearning st = false ->
  learnVoice approx st ctx decoded label = Normal st.
Proof.
  intros H. unfold learnVoice. rewrite H. reflexivity.
Qed.

(** C7: when extraction succeeds and no profile is stored, the classifier
    answers "doctor" with confidence 0.7. *)
Theorem C7_cold_start (approx : float -> float) (st : State) (ctx : bool)
        (decoded : completion (list float)) (audio : list float)
        (f : Features) :
  decoded = Normal audio ->
  extractVoiceFeatures approx ctx audio = Normal f ->
  voiceProfiles st = [] ->
  exists st',
    identifySpeaker approx st ctx decoded =
    Normal ({| speaker := doctor; confidence := 0.7;
               analysisFeatures := f |}, st').
Proof.
  intros Hd Hx He.
  pose proof (extract_needs_context _ _ _ _ Hx) as Hc. subst ctx decoded.
  unfold identifySpeaker.
  cbn -[extractVoiceFeatures bestMatchOf]. rewrite Hx, He.
  cbn -[bestMatchOf]. eexists. reflexivity.
Qed.

End Voice.

Section BestMatch.
Import JS VoiceAI Stated.
Open Scope float_scope.

Variable f : Features.

Let sim (p : VoiceProfile) : float := calculateSimilarity f (features p).

(** [+0] or positive: what a score that is a number can be. *)
Let score (x : float) : Prop := x = 0 \/ (0 <? x) = true.

Lemma leb_not_nan (x m : float) : (x <=? m) = true -> is_nan x = false.
Proof.
  intros H.
  destruct (float_cmp x m) as [? ? ? ? ? ? ? _|? ? ? ? ? ? ? _
                              |? ? ? ? ? ? ? _|? ? ? ? ? ? ?];
    congruence.
Qed.

Lemma sim_score (p : VoiceProfile) (m : float) :
  (sim p <=? m) = true -> score (sim p).
Proof.
  intros H. apply leb_not_nan in H. unfold sim in *.
  destruct (calculateSimilarity_clamp01 f (features p)) as [s E].
  rewrite E in *. apply clamp01_range. exact H.
Qed.

Lemma score_eqb (x y : float) :
  score x -> score y -> (x =? y) = true -> x = y.
Proof.
  assert (Z : forall z, score z -> (z =? 0) = true -> z = 0).
  { intros z [->|Hz] Hz0; [reflexivity|].
    destruct (float_cmp 0 z) as [? ? ? ? ? ? _ _|? ? ? ? ? ? _ _
                                |? ? ? ? ? ? _ _|? ? ? ? ? ? ?];
      congruence. }
  intros Hx Hy H. destruct (eqb_true_eq _ _ H) as [E|[Ex Ey]]; [exact E|].
  rewrite (Z x Hx Ex), (Z y Hy Ey). reflexivity.
Qed.

(** A running best that no remaining profile exceeds stays as it is. *)
Lemma fold_stable (l : list VoiceProfile) (b : SpeakerType * float) :
  (forall p, In p l -> (sim p <=? snd b) = true) ->
  fold_left (compareProfile f) l b = b.
Proof.
  induction l as [|h l IH]; intros H; [reflexivity|]. simpl.
  assert (Hh : (sim h <=? snd b) = true) by (apply H; left; reflexivity).
  unfold compareProfile at 2. fold (sim h). unfold gtb.
  destruct (float_cmp (sim h) (snd b)) as [? ? ? E ? ? _ _|? ? ? E ? ? _ _
                                          |? ? ? E ? ? _ _|? ? ? E ? ? ?];
    try congruence; rewrite E; apply IH; intros p Hp; apply H; right; exact Hp.
Qed.

(** The loop ends on the maximum: either the initial best already equals it
    and is kept, or the best is a stored profile that attains it. *)
Lemma fold_max (l : list VoiceProfile) :
  forall (b : SpeakerType * float) (m : float) (p : VoiceProfile),
  In p l -> sim p = m ->
  (forall q, In q l -> (sim q <=? m) = true) ->
  score (snd b) -> (snd b <=? m) = true ->
  snd (fold_left (compareProfile f) l b) = m /\
  ((snd b = m /\ fold_left (compareProfile f) l b = b) \/
   exists q, In q l /\ sim q = m /\
             fst (fold_left (compareProfile f) l b) = name q).
Proof.
  induction l as [|h l IH]; intros b m p Hin Hp Hall Hb Hbm; [destruct Hin|].
  assert (Hh : (sim h <=? m) = true) by (apply Hall; left; reflexivity).
  assert (Htl : forall q, In q l -> (sim q <=? m) = true)
    by (intros q Hq; apply Hall; right; exact Hq).
  simpl. unfold compareProfile at 2 4 6. fold (sim h). unfold gtb.
  destruct (snd b <? sim h) eqn:Hlt.
  - (* the head replaces the best *)
    destruct Hin as [->|Hin].
    + rewrite Hp in *. rewrite fold_stable by exact Htl.
      split; [reflexivity|]. right. exists p. simpl. auto.
    + destruct (IH (name h, sim h) m p Hin Hp Htl
                   (sim_score _ _ Hh) Hh) as [E [[E1 E2]|(q & Hq & Hs & Hn)]].
      * split; [exact E|]. right. exists h. simpl in E1.
        rewrite E2. simpl. auto.
      * split; [exact E|]. right. exists q. simpl. auto.
  - (* the best is kept *)
    destruct Hin as [->|Hin].
    + assert (Eb : snd b = m).
      { rewrite <- Hp. apply score_eqb; [exact Hb | eapply sim_score; eauto |].
        rewrite Hp in *.
        destruct (float_cmp (snd b) m) as [? ? ? ? ? ? _ _|? ? ? ? ? ? _ _
                                          |? ? ? ? ? ? _ _|? ? ? ? ? ? ?];
          congruence. }
      rewrite fold_stable by (rewrite Eb; exact Htl).
      split; [exact Eb|]. left. auto.
    + destruct (IH b m p Hin Hp Htl Hb Hbm) as [E [[E1 E2]|(q & Hq & Hs & Hn)]].
      * split; [exact E|]. left. auto.
      * split; [exact E|]. right. exists q. simpl. auto.
Qed.

End BestMatch.

Section Identify.
Import JS VoiceAI Stated.
Open Scope float_scope.

(** C8: with at least one stored profile, the confidence returned is the
    maximum similarity over the stored profiles; when that maximum is at most
    0.4 the speaker is "auto", and when it exceeds 0.4 the speaker is the
    label of a stored profile whose similarity is that maximum. *)
Theorem C8_threshold (approx : float -> float) (st : State) (ctx : bool)
        (decoded : completion (list float)) (audio : list float)
        (f : Features) (m : float) :
  decoded = Normal audio ->
  extractVoiceFeatures approx ctx audio = Normal f ->
  voiceProfiles st <> [] ->
  is_maximum m (similarities f (voiceProfiles st)) ->
  exists a st',
    identifySpeaker approx st ctx decoded = Normal (a, st') /\
    confidence a = m /\
    analysisFeatures a = f /\
    ((m <=? 0.4) = true -> speaker a = auto) /\
    ((0.4 <? m) = true ->
     exists p, In p (Map_values (voiceProfiles st)) /\
               calculateSimilarity f (features p) = m /\
               speaker a = name p).
Proof.
  intros Hd Hx Hne [Hin Hall].
  pose proof (extract_needs_context _ _ _ _ Hx) as Hc. subst ctx decoded.
  unfold similarities in Hin, Hall.
  apply in_map_iff in Hin. destruct Hin as (p & Hp & Hpin).
  assert (Hall' : forall q, In q (Map_values (voiceProfiles st)) ->
                            (calculateSimilarity f (features q) <=? m) = true).
  { intros q Hq. apply Hall. apply in_map_iff. exists q. auto. }
  assert (Hm0 : (0 <=? m) = true).
  { apply leb_of_zero_or_pos. rewrite <- Hp.
    apply (sim_score f p m). apply Hall'. exact Hpin. }
  destruct (fold_max f (Map_values (voiceProfiles st)) (auto, 0) m p
                     Hpin Hp Hall' (or_introl eq_refl) Hm0)
    as [Hconf Hwho].
  assert (Hsz : Nat.eqb (Map_size (voiceProfiles st)) 0 = false)
    by (destruct (voiceProfiles st); [congruence | reflexivity]).
  unfold identifySpeaker.
  cbn -[extractVoiceFeatures bestMatchOf Map_size Nat.eqb]. rewrite Hx.
  cbn -[bestMatchOf Map_size Nat.eqb]. rewrite Hsz.
  do 2 eexists. split; [reflexivity|]. cbn -[bestMatchOf Map_values].
  unfold bestMatchOf. rewrite Hconf. repeat split.
  - intros Hle. unfold gtb.
    destruct (float_cmp m 0.4) as [? ? ? E ? ? _ _|? ? ? E ? ? _ _
                                  |? ? ? E ? ? _ _|? ? ? E ? ? ?];
      try congruence; rewrite E; reflexivity.
  - intros Hgt. unfold gtb. rewrite Hgt.
    destruct Hwho as [[E0 _]|(q & Hq & Hs & Hn)].
    + simpl in E0. rewrite <- E0 in Hgt. vm_compute in Hgt. discriminate Hgt.
    + exists q. auto.
Qed.

End Identify.

Section VoiceWitnesses.
Import JS VoiceAI Stated Samples.
Open Scope float_scope.

Lemma C5_learnVoice_profile_witness :
  isLearning trained = true /\
  extractVoiceFeatures log10_stub true snippet = Normal snippetFeatures /\
  exists st',
    learnVoice log10_stub trained true (Normal snippet) doctor = Normal st' /\
    (Map_get (voiceProfiles trained) doctor = None ->
     Map_get (voiceProfiles st') doctor =
     Some {| id := doctor; name := doctor; features := snippetFeatures;
             samples := 1 |}) /\
    (forall p, Map_get (voiceProfiles trained) doctor = Some p ->
     Map_get (voiceProfiles st') doctor =
     Some {| id := id p; name := name p;
             features := blend (features p) snippetFeatures;
             samples := samples p + 1 |}) /\
    (forall other, other <> doctor ->
     Map_get (voiceProfiles st') other =
     Map_get (voiceProfiles trained) other).
Proof.
  split; [reflexivity|]. split; [vm_compute; reflexivity|].
  apply (C5_learnVoice_profile log10_stub trained true (Normal snippet)
                               snippet doctor snippetFeatures);
    [reflexivity | reflexivity | vm_compute; reflexivity].
Defined.

Lemma C7_cold_start_witness :
  extractVoiceFeatures log10_stub true snippet = Normal snippetFeatures /\
  voiceProfiles initialState = [] /\
  exists st',
    identifySpeaker log10_stub initialState true (Normal snippet) =
    Normal ({| speaker := doctor; confidence := 0.7;
               analysisFeatures := snippetFeatures |}, st').
Proof.
  split; [vm_compute; reflexivity|]. split; [reflexivity|].
  apply (C7_cold_start log10_stub initialState true (Normal snippet) snippet
                       snippetFeatures);
    [reflexivity | vm_compute; reflexivity | reflexivity].
Defined.

Lemma C8_threshold_witness :
  voiceProfiles trained <> [] /\
  is_maximum (calculateSimilarity snippetFeatures patientVoice)
             (similarities snippetFeatures (voiceProfiles trained)) /\
  exists a st',
    identifySpeaker log10_stub trained true (Normal snippet) =
    Normal (a, st') /\
    confidence a = calculateSimilarity snippetFeatures patientVoice /\
    analysisFeatures a = snippetFeatures /\
    ((calculateSimilarity snippetFeatures patientVoice <=? 0.4) = true ->
     speaker a = auto) /\
    ((0.4 <? calculateSimilarity snippetFeatures patientVoice) = true ->
     exists p, In p (Map_values (voiceProfiles trained)) /\
               calculateSimilarity snippetFeatures (features p) =
               calculateSimilarity snippetFeatures patientVoice /\
               speaker a = name p).
Proof.
  assert (Hne : voiceProfiles trained <> []) by discriminate.
  assert (Hmax : is_maximum (calculateSimilarity snippetFeatures patientVoice)
                   (similarities snippetFeatures (voiceProfiles trained))).
  { split.
    - right; left; reflexivity.
    - intros x [<-|[<-|[]]]; vm_compute; reflexivity. }
  split; [exact Hne|]. split; [exact Hmax|].
  apply (C8_threshold log10_stub trained true (Normal snippet) snippet
                      snippetFeatures _ eq_refl);
    [vm_compute; reflexivity | exact Hne | exact Hmax].
Defined.

End VoiceWitnesses.


(* ================================================================== *)
(** * The alternation labeler                                         *)
(* ================================================================== *)

Section Labeler.
Import JS Speech Stated.
Import VoiceAI(SpeakerType, doctor, patient, auto).

Lemma str_eqb_eq (a b : jsstring) : str_eqb a b = true <-> a = b.
Proof.
  revert b. induction a as [|x a IH]; intros [|y b]; simpl;
    try (split; congruence).
  rewrite andb_true_iff, N.eqb_eq, IH. split.
  - intros [-> ->]. reflexivity.
  - intros E. injection E as -> ->. auto.
Qed.

Lemma str_eqb_neq (a b : jsstring) : str_eqb a b = false <-> a <> b.
Proof.
  rewrite <- str_eqb_eq. destruct (str_eqb a b); split; congruence.
Qed.

Lemma parity_label (c : nat) :
  (if Nat.eqb (c mod 2) 0 then doctor else patient) = alternation c.
Proof.
  unfold alternation.
  assert (E : Nat.even c = Nat.eqb (c mod 2) 0).
  { rewrite <- Nat.negb_odd, <- Nat.bit0_odd, Nat.bit0_eqb.
    pose proof (Nat.mod_upper_bound c 2 ltac:(discriminate)) as Hb.
    destruct (Nat.eqb_spec (c mod 2) 1) as [H1|H1];
      destruct (Nat.eqb_spec (c mod 2) 0) as [H0|H0];
      simpl; try reflexivity; lia. }
  rewrite E. reflexivity.
Qed.

Lemma finalText_finalEvent (text : jsstring) :
  finalText (finalEvent text) = text ++ [32%N].
Proof. reflexivity. Qed.

Lemma truthy_final (text : jsstring) : truthy (text ++ [32%N]) = true.
Proof. destruct text; reflexivity. Qed.

(** ** The microphone recorder *)

(** A final text that trims to the last committed one leaves the recorder as
    it is, whatever else the event carries: nothing is appended, the counter
    stays, nothing is published. *)
Lemma Recorder_discards (language : Language) (st : Recorder.State)
      (event : Event) :
  truthy (finalText event) = true ->
  trim (finalText event) = Recorder.lastTranscriptRef st ->
  Recorder.onresult language st event = (st, Recorder.silent).
Proof.
  unfold finalText. intros Ht He. unfold Recorder.onresult.
  destruct (transcriptsOf event) as [interim final]. cbn [fst snd] in *.
  rewrite Ht. apply str_eqb_eq in He. rewrite He. reflexivity.
Qed.

(** Any other final text is labeled by the parity of the counter and
    committed as one line. *)
Lemma Recorder_commits (language : Language) (st : Recorder.State)
      (event : Event) :
  truthy (finalText event) = true ->
  trim (finalText event) <> Recorder.lastTranscriptRef st ->
  exists st' o,
    Recorder.onresult language st event = (st', o) /\
    Recorder.assigned o = Some (alternation (Recorder.speechCountRef st)) /\
    Recorder.speechCountRef st' = Recorder.speechCountRef st + 1 /\
    Recorder.lastTranscriptRef st' = trim (finalText event) /\
    Recorder.finalRef st' =
      Recorder.finalRef st
      ++ Recorder.getSpeakerPrefix
           (alternation (Recorder.speechCountRef st))
           (Recorder.patientName st) language
      ++ trim (finalText event) ++ [10%N].
Proof.
  unfold finalText. intros Ht He. unfold Recorder.onresult.
  destruct (transcriptsOf event) as [interim final]. cbn [fst snd] in *.
  rewrite Ht. apply str_eqb_neq in He. rewrite He.
  rewrite parity_label. do 2 eexists. split; [reflexivity|].
  simpl. repeat split.
Qed.

(** An event without a final result only republishes the transcript. *)
Lemma Recorder_interim (language : Language) (st : Recorder.State)
      (event : Event) :
  finalText event = [] ->
  Recorder.onresult language st event =
  (st, Recorder.republish
         (Some (Recorder.finalRef st ++ interimText event))).
Proof.
  unfold finalText, interimText. intros H. unfold Recorder.onresult.
  destruct (transcriptsOf event) as [interim final]. cbn [fst snd] in *.
  rewrite H. reflexivity.
Qed.

(** ** The video-call capture *)

Lemma VideoCall_discards (language : Language) (patientName : jsstring)
      (st : VideoCallCapture.State) (event : Event) :
  truthy (finalText event) = true ->
  trim (finalText event) = VideoCallCapture.lastTranscriptRef st ->
  VideoCallCapture.onresult language patientName st event =
  (st, VideoCallCapture.silent).
Proof.
  unfold finalText. intros Ht He. unfold VideoCallCapture.onresult.
  destruct (transcriptsOf event) as [interim final]. cbn [fst snd] in *.
  rewrite Ht. apply str_eqb_eq in He. rewrite He. reflexivity.
Qed.

Lemma VideoCall_commits (language : Language) (patientName : jsstring)
      (st : VideoCallCapture.State) (event : Event) :
  truthy (finalText event) = true ->
  trim (finalText event) <> VideoCallCapture.lastTranscriptRef st ->
  exists st' o,
    VideoCallCapture.onresult language patientName st event = (st', o) /\
    VideoCallCapture.assigned o =
      Some (alternation (VideoCallCapture.speechCountRef st)) /\
    VideoCallCapture.speechCountRef st' =
      VideoCallCapture.speechCountRef st + 1 /\
    VideoCallCapture.lastTranscriptRef st' = trim (finalText event) /\
    VideoCallCapture.finalTranscriptRef st' =
      VideoCallCapture.finalTranscriptRef st
      ++ VideoCallCapture.getSpeakerPrefix
           (alternation (VideoCallCapture.speechCountRef st))
           patientName language
      ++ trim (finalText event) ++ [10%N].
Proof.
  unfold finalText. intros Ht He. unfold VideoCallCapture.onresult.
  destruct (transcriptsOf event) as [interim final]. cbn [fst snd] in *.
  rewrite Ht. apply str_eqb_neq in He. rewrite He.
  rewrite parity_label. do 2 eexists. split; [reflexivity|].
  simpl. repeat split.
Qed.

Lemma VideoCall_interim (language : Language) (patientName : jsstring)
      (st : VideoCallCapture.State) (event : Event) :
  finalText event = [] ->
  exists o,
    VideoCallCapture.onresult language patientName st event = (st, o) /\
    VideoCallCapture.assigned o = None.
Proof.
  unfold finalText. intros H. unfold VideoCallCapture.onresult.
  destruct (transcriptsOf event) as [interim final]. cbn [fst snd] in *.
  rewrite H. simpl. destruct (truthy interim); eexists; split; reflexivity.
Qed.

End Labeler.

Section Alternation.
Import JS Speech Stated Samples.
Import VoiceAI(SpeakerType, doctor, patient, auto).

Lemma NoDup_fresh (cs : list jsstring) :
  forall last, NoDup cs -> ~ In last cs -> fresh last cs.
Proof.
  induction cs as [|c cs IH]; intros last Hnd Hin; simpl; [exact I|].
  inversion Hnd as [|? ? Hc Hnd']; subst. split.
  - intros ->. apply Hin. left. reflexivity.
  - apply IH; assumption.
Qed.

Lemma Recorder_run_labels (approx : float -> float) (language : Language)
      (actions : list Recorder.Action) (texts : list jsstring) :
  Recorder.delivers actions texts ->
  forall s,
  fresh (Recorder.lastTranscriptRef (Recorder.component s))
        (map committed texts) ->
  Recorder.labels (snd (Recorder.run approx language s actions)) =
    map alternation
        (seq (Recorder.speechCountRef (Recorder.component s)) (length texts)) /\
  Recorder.speechCountRef
    (Recorder.component (fst (Recorder.run approx language s actions))) =
    Recorder.speechCountRef (Recorder.component s) + length texts.
Proof.
  induction 1 as [|event text actions texts He Hd IH
                  |event actions texts He Hd IH
                  |captured actions texts Hd IH];
    intros s Hf.
  - simpl. split; [reflexivity | lia].
  - destruct Hf as [Hne Hf]. fold (map committed texts) in Hf.
    unfold committed in Hne at 1. rewrite <- He in Hne.
    destruct (Recorder_commits language (Recorder.component s) event)
      as (st' & o & Ho & Ha & Hc & Hl & _);
      [rewrite He; apply truthy_final | exact Hne |].
    rewrite He in Hl. fold (committed text) in Hl.
    cbn [Recorder.run Recorder.step]. rewrite Ho.
    match goal with
    | |- context [Recorder.run approx language ?s1 actions] =>
        specialize (IH s1); cbn [Recorder.component] in IH;
        rewrite Hl in IH; specialize (IH Hf);
        destruct (Recorder.run approx language s1 actions) as [s2 os]
    end.
    cbn [fst snd] in *. destruct IH as [IH1 IH2].
    unfold Recorder.labels in *. cbn [flat_map]. rewrite Ha, IH1, Hc.
    cbn [length seq map app]. split.
    + rewrite Nat.add_1_r. reflexivity.
    + rewrite IH2, Hc. lia.
  - cbn [Recorder.run Recorder.step].
    rewrite (Recorder_interim language _ event He).
    match goal with
    | |- context [Recorder.run approx language ?s1 actions] =>
        specialize (IH s1 Hf);
        destruct (Recorder.run approx language s1 actions) as [s2 os]
    end.
    exact IH.
  - cbn [Recorder.run Recorder.step].
    destruct (Recorder.inFlight s) as [|knownSpeaker rest] eqn:Hq.
    + specialize (IH s Hf).
      destruct (Recorder.run approx language s actions) as [s2 os].
      exact IH.
    + match goal with
      | |- context [Recorder.run approx language ?s1 actions] =>
          specialize (IH s1 Hf);
          destruct (Recorder.run approx language s1 actions) as [s2 os]
      end.
      exact IH.
Qed.

Lemma VideoCall_run_labels (language : Language) (patientName : jsstring)
      (events : list Event) (texts : list jsstring) :
  delivers events texts ->
  forall st,
  fresh (VideoCallCapture.lastTranscriptRef st) (map committed texts) ->
  VideoCallCapture.labels
    (snd (VideoCallCapture.run language patientName st
            (VideoCallCapture.listen events))) =
    map alternation
        (seq (VideoCallCapture.speechCountRef st) (length texts)) /\
  VideoCallCapture.speechCountRef
    (fst (VideoCallCapture.run language patientName st
            (VideoCallCapture.listen events))) =
    VideoCallCapture.speechCountRef st + length texts.
Proof.
  induction 1 as [|event text events texts He Hd IH
                  |event events texts He Hd IH];
    intros st Hf.
  - simpl. split; [reflexivity | lia].
  - destruct Hf as [Hne Hf]. fold (map committed texts) in Hf.
    unfold committed in Hne at 1. rewrite <- He in Hne.
    destruct (VideoCall_commits language patientName st event)
      as (st' & o & Ho & Ha & Hc & Hl & _);
      [rewrite He; apply truthy_final | exact Hne |].
    rewrite He in Hl. fold (committed text) in Hl.
    cbn [VideoCallCapture.listen map VideoCallCapture.run
         VideoCallCapture.step].
    rewrite Ho. fold (VideoCallCapture.listen events).
    rewrite <- Hl in Hf. specialize (IH st' Hf).
    destruct (VideoCallCapture.run language patientName st'
                (VideoCallCapture.listen events)) as [s2 os].
    cbn [fst snd] in *. destruct IH as [IH1 IH2].
    unfold VideoCallCapture.labels in *. cbn [flat_map].
    rewrite Ha, IH1, Hc. cbn [length seq map app]. split.
    + rewrite Nat.add_1_r. reflexivity.
    + rewrite IH2, Hc. lia.
  - destruct (VideoCall_interim language patientName st event He)
      as (o & Ho & Ha).
    cbn [VideoCallCapture.listen map VideoCallCapture.run
         VideoCallCapture.step].
    rewrite Ho. fold (VideoCallCapture.listen events).
    specialize (IH st Hf).
    destruct (VideoCallCapture.run language patientName st
                (VideoCallCapture.listen events)) as [s2 os].
    cbn [fst snd] in *. unfold VideoCallCapture.labels in *.
    cbn [flat_map]. rewrite Ha. exact IH.
Qed.

End Alternation.

Section LabelerClaims.
Import JS Speech Stated Samples.
Import VoiceAI(SpeakerType, doctor, patient, auto).

(** C1, as stated, fails: "hello" and " hello" are distinct results, yet the
    second is committed as the same text and discarded, so the result of
    index 1 gets no label, the result of index 2 gets "patient", and the
    counter ends at 2.  Both components behave so. *)
Lemma C1_distinct_results_counterexample :
  let texts := [utf16 "hello"; utf16 " hello"; utf16 "how are you"] in
  NoDup texts /\
  map Recorder.assigned
      (snd (Recorder.run log10_stub en Recorder.initialSession
              (map (fun t => Recorder.Result (finalEvent t)) texts)))
  = [Some doctor; None; Some patient] /\
  Recorder.speechCountRef
    (Recorder.component
       (fst (Recorder.run log10_stub en Recorder.initialSession
               (map (fun t => Recorder.Result (finalEvent t)) texts)))) = 2 /\
  map VideoCallCapture.assigned
      (snd (VideoCallCapture.run en [] VideoCallCapture.initialState
              (VideoCallCapture.listen (map finalEvent texts))))
  = [Some doctor; None; Some patient].
Proof.
  cbv zeta. split.
  - repeat constructor; simpl; intuition discriminate.
  - split; [|split]; vm_compute; reflexivity.
Qed.

(** C1, amended: for finalized results whose committed (trimmed) texts are
    non-empty and pairwise distinct, delivered one per recognition event to a
    labeler whose counter is 0 and that has committed nothing yet, the labels
    assigned are "doctor" for every even index and "patient" for every odd
    one, and the counter ends at the number of results.  Interim results do
    not matter, and the microphone recorder does so whatever the voice hook
    holds and whenever its background learning tasks end: the handlers never
    read the classifier. *)
Theorem C1_alternation_labels
        (approx : float -> float) (language : Language)
        (patientName : jsstring)
        (s : Recorder.Session) (v : VideoCallCapture.State)
        (actions : list Recorder.Action) (events : list Event)
        (texts : list jsstring) :
  Recorder.speechCountRef (Recorder.component s) = 0 ->
  Recorder.lastTranscriptRef (Recorder.component s) = [] ->
  VideoCallCapture.speechCountRef v = 0 ->
  VideoCallCapture.lastTranscriptRef v = [] ->
  Recorder.delivers actions texts ->
  delivers events texts ->
  NoDup (map committed texts) ->
  ~ In [] (map committed texts) ->
  (Recorder.labels (snd (Recorder.run approx language s actions))
   = alternating (length texts) /\
   Recorder.speechCountRef
     (Recorder.component (fst (Recorder.run approx language s actions)))
   = length texts) /\
  (VideoCallCapture.labels
     (snd (VideoCallCapture.run language patientName v
             (VideoCallCapture.listen events)))
   = alternating (length texts) /\
   VideoCallCapture.speechCountRef
     (fst (VideoCallCapture.run language patientName v
             (VideoCallCapture.listen events)))
   = length texts).
Proof.
  intros Hc Hl Hvc Hvl Hd Hde Hnd Hne.
  pose proof (NoDup_fresh _ [] Hnd Hne) as Hf. split.
  - destruct (Recorder_run_labels approx language actions texts Hd s)
      as [H1 H2].
    + rewrite Hl. exact Hf.
    + rewrite Hc in H1, H2. split; [exact H1 | exact H2].
  - destruct (VideoCall_run_labels language patientName events texts Hde v)
      as [H1 H2].
    + rewrite Hvl. exact Hf.
    + rewrite Hvc in H1, H2. split; [exact H1 | exact H2].
Qed.

Lemma C1_alternation_labels_witness :
  let texts := [utf16 "I see fever"; utf16 " yes since yesterday";
                utf16 " any cough"] in
  let events :=
    [ interimEvent (utf16 "I see");
      finalEvent (utf16 "I see fever");
      finalEvent (utf16 " yes since yesterday");
      interimEvent (utf16 " any");
      finalEvent (utf16 " any cough") ] in
  let actions :=
    [ Recorder.Result (interimEvent (utf16 "I see"));
      Recorder.Result (finalEvent (utf16 "I see fever"));
      Recorder.BackgroundDone None;
      Recorder.Result (finalEvent (utf16 " yes since yesterday"));
      Recorder.Result (finalEvent (utf16 " any cough")) ] in
  Recorder.delivers actions texts /\
  delivers events texts /\
  NoDup (map committed texts) /\
  ~ In [] (map committed texts) /\
  (Recorder.labels
     (snd (Recorder.run log10_stub en Recorder.initialSession actions))
   = [doctor; patient; doctor] /\
   Recorder.speechCountRef
     (Recorder.component
        (fst (Recorder.run log10_stub en Recorder.initialSession actions)))
   = 3) /\
  (VideoCallCapture.labels
     (snd (VideoCallCapture.run en [] VideoCallCapture.initialState
             (VideoCallCapture.listen events)))
   = [doctor; patient; doctor] /\
   VideoCallCapture.speechCountRef
     (fst (VideoCallCapture.run en [] VideoCallCapture.initialState
             (VideoCallCapture.listen events)))
   = 3).
Proof.
  cbv zeta.
  assert (Hd : Recorder.delivers
                 [ Recorder.Result (interimEvent (utf16 "I see"));
                   Recorder.Result (finalEvent (utf16 "I see fever"));
                   Recorder.BackgroundDone None;
                   Recorder.Result (finalEvent (utf16 " yes since yesterday"));
                   Recorder.Result (finalEvent (utf16 " any cough")) ]
                 [utf16 "I see fever"; utf16 " yes since yesterday";
                  utf16 " any cough"]).
  { apply Recorder.delivers_interim; [reflexivity|].
    apply Recorder.delivers_final; [reflexivity|].
    apply Recorder.delivers_background.
    apply Recorder.delivers_final; [reflexivity|].
    apply Recorder.delivers_final; [reflexivity|].
    apply Recorder.delivers_nil. }
  assert (Hde : delivers
                  [ interimEvent (utf16 "I see");
                    finalEvent (utf16 "I see fever");
                    finalEvent (utf16 " yes since yesterday");
                    interimEvent (utf16 " any");
                    finalEvent (utf16 " any cough") ]
                  [utf16 "I see fever"; utf16 " yes since yesterday";
                   utf16 " any cough"]).
  { apply delivers_interim; [reflexivity|].
    apply delivers_final; [reflexivity|].
    apply delivers_final; [reflexivity|].
    apply delivers_interim; [reflexivity|].
    apply delivers_final; [reflexivity|].
    apply delivers_nil. }
  assert (Hnd : NoDup (map committed
                           [utf16 "I see fever"; utf16 " yes since yesterday";
                            utf16 " any cough"]))
    by (vm_compute; repeat constructor; simpl; intuition discriminate).
  assert (Hne : ~ In [] (map committed
                             [utf16 "I see fever"; utf16 " yes since yesterday";
                              utf16 " any cough"]))
    by (vm_compute; intuition discriminate).
  split; [exact Hd|]. split; [exact Hde|].
  split; [exact Hnd|]. split; [exact Hne|].
  exact (C1_alternation_labels log10_stub en [] Recorder.initialSession
           VideoCallCapture.initialState _ _ _
           eq_refl eq_refl eq_refl eq_refl Hd Hde Hnd Hne).
Defined.

(** The microphone recorder's [start] clears the transcript but neither the
    counter nor the last committed text, while the video-call capture's start
    clears all three: after a stop and a new start the recorder labels its
    first result "patient". *)
Example Recorder_restart_keeps_counter :
  Recorder.labels
    (snd (Recorder.run log10_stub en Recorder.initialSession
            [ Recorder.Start true;
              Recorder.Result (finalEvent (utf16 "hello"));
              Recorder.Stop;
              Recorder.Start true;
              Recorder.Result (finalEvent (utf16 "good morning")) ]))
  = [doctor; patient] /\
  VideoCallCapture.labels
    (snd (VideoCallCapture.run en [] VideoCallCapture.initialState
            [ VideoCallCapture.StartCapture VideoCallCapture.Capturing;
              VideoCallCapture.Result (finalEvent (utf16 "hello"));
              VideoCallCapture.StopCapture;
              VideoCallCapture.StartCapture VideoCallCapture.Capturing;
              VideoCallCapture.Result (finalEvent (utf16 "good morning")) ]))
  = [doctor; doctor].
Proof. split; vm_compute; reflexivity. Qed.

End LabelerClaims.

Section Duplicates.
Import JS Speech Stated Samples.
Import VoiceAI(SpeakerType, doctor, patient, auto).

(** C6: when two events in a row carry final texts that trim to the same
    text, the second is discarded: it leaves the state (finalized buffer and
    utterance counter included) exactly as the first left it and publishes
    nothing.  Together the two append one line and advance the counter by
    one, or nothing at all when the first already repeated the last committed
    text.  The video-call capture does the same. *)
Theorem C6_duplicate_suppressed
        (language : Language) (patientName : jsstring)
        (st : Recorder.State) (v : VideoCallCapture.State)
        (event1 event2 : Event) :
  truthy (finalText event1) = true ->
  truthy (finalText event2) = true ->
  trim (finalText event1) = trim (finalText event2) ->
  (exists st1 o1,
     Recorder.onresult language st event1 = (st1, o1) /\
     Recorder.onresult language st1 event2 = (st1, Recorder.silent) /\
     (trim (finalText event1) <> Recorder.lastTranscriptRef st ->
      Recorder.finalRef st1 =
        Recorder.finalRef st
        ++ Recorder.getSpeakerPrefix
             (alternation (Recorder.speechCountRef st))
             (Recorder.patientName st) language
        ++ trim (finalText event1) ++ [10%N] /\
      Recorder.speechCountRef st1 = Recorder.speechCountRef st + 1) /\
     (trim (finalText event1) = Recorder.lastTranscriptRef st -> st1 = st)) /\
  (exists v1 o1,
     VideoCallCapture.onresult language patientName v event1 = (v1, o1) /\
     VideoCallCapture.onresult language patientName v1 event2
     = (v1, VideoCallCapture.silent) /\
     (trim (finalText event1) <> VideoCallCapture.lastTranscriptRef v ->
      VideoCallCapture.finalTranscriptRef v1 =
        VideoCallCapture.finalTranscriptRef v
        ++ VideoCallCapture.getSpeakerPrefix
             (alternation (VideoCallCapture.speechCountRef v))
             patientName language
        ++ trim (finalText event1) ++ [10%N] /\
      VideoCallCapture.speechCountRef v1
      = VideoCallCapture.speechCountRef v + 1) /\
     (trim (finalText event1) = VideoCallCapture.lastTranscriptRef v ->
      v1 = v)).
Proof.
  intros Ht1 Ht2 Heq. split.
  - destruct (list_eq_dec N.eq_dec (trim (finalText event1))
                          (Recorder.lastTranscriptRef st)) as [Hd|Hf].
    + exists st, Recorder.silent.
      split; [apply Recorder_discards; assumption|].
      split; [apply Recorder_discards; congruence|].
      split; [contradiction | reflexivity].
    + destruct (Recorder_commits language st event1 Ht1 Hf)
        as (st1 & o1 & Ho & _ & Hc & Hl & Hfin).
      exists st1, o1. split; [exact Ho|].
      split; [apply Recorder_discards; congruence|].
      split; [auto | contradiction].
  - destruct (list_eq_dec N.eq_dec (trim (finalText event1))
                          (VideoCallCapture.lastTranscriptRef v)) as [Hd|Hf].
    + exists v, VideoCallCapture.silent.
      split; [apply VideoCall_discards; assumption|].
      split; [apply VideoCall_discards; congruence|].
      split; [contradiction | reflexivity].
    + destruct (VideoCall_commits language patientName v event1 Ht1 Hf)
        as (v1 & o1 & Ho & _ & Hc & Hl & Hfin).
      exists v1, o1. split; [exact Ho|].
      split; [apply VideoCall_discards; congruence|].
      split; [auto | contradiction].
Qed.

Lemma C6_duplicate_suppressed_witness :
  trim (finalText (finalEvent (utf16 "I see fever")))
  = trim (finalText (finalEvent (utf16 " I see fever "))) /\
  (exists st1 o1,
     Recorder.onresult en Recorder.initialState
                       (finalEvent (utf16 "I see fever")) = (st1, o1) /\
     Recorder.onresult en st1 (finalEvent (utf16 " I see fever "))
     = (st1, Recorder.silent) /\
     Recorder.finalRef st1 = utf16 "Doctor: I see fever" ++ [10%N] /\
     Recorder.speechCountRef st1 = 1).
Proof.
  split; [vm_compute; reflexivity|].
  destruct (C6_duplicate_suppressed en [] Recorder.initialState
              VideoCallCapture.initialState
              (finalEvent (utf16 "I see fever"))
              (finalEvent (utf16 " I see fever "))
              eq_refl eq_refl ltac:(vm_compute; reflexivity))
    as [(st1 & o1 & H1 & H2 & H3 & _) _].
  exists st1, o1. split; [exact H1|]. split; [exact H2|].
  apply H3. vm_compute. discriminate.
Defined.

End Duplicates.

(* ================================================================== *)
(** * The history store                                               *)
(* ================================================================== *)

Section HistoryClaims.
Import JS JSON History.

Variable JSON_parse : jsstring -> completion value.
Variable JSON_stringify : value -> jsstring.

Lemma loadHistory_returns (w : Browser) :
  exists v, loadHistory JSON_parse w = Normal v.
Proof.
  unfold loadHistory.
  destruct (JSON_parse (getItemOrEmpty w)); simpl; eauto.
Qed.

Lemma loadHistory_stored (w : Browser) (s : jsstring) (v : value) :
  stored w = Some s -> truthy s = true -> JSON_parse s = Normal v ->
  loadHistory JSON_parse w = Normal v.
Proof.
  intros Hs Ht Hp. unfold loadHistory, getItemOrEmpty, or_else.
  rewrite Hs, Ht, Hp. reflexivity.
Qed.

Lemma saveHistoryItem_array (w : Browser) (item : value)
      (items : list value) :
  loadHistory JSON_parse w = Normal (JArray items) ->
  saveHistoryItem JSON_parse JSON_stringify item w =
  Normal {| stored := Some (JSON_stringify (JArray (item :: items)));
            dispatched := dispatched w + 1 |}.
Proof.
  intros H. unfold saveHistoryItem. rewrite H. reflexivity.
Qed.

(** Where [JSON.parse] undoes [JSON.stringify] on arrays, every state the
    module produces loads as an array: the premise of the append property. *)
Lemma reachable_loads_array (w : Browser) :
  JSON_parse (utf16 "[]") = Normal (JArray []) ->
  (forall l, truthy (JSON_stringify (JArray l)) = true /\
             JSON_parse (JSON_stringify (JArray l)) = Normal (JArray l)) ->
  reachable JSON_parse JSON_stringify w ->
  exists items, loadHistory JSON_parse w = Normal (JArray items).
Proof.
  intros Hempty Hrt. induction 1 as [n|item w w' Hw [items IH] Hsave|w Hw _].
  - exists []. unfold loadHistory, getItemOrEmpty. simpl.
    rewrite Hempty. reflexivity.
  - rewrite (saveHistoryItem_array _ _ _ IH) in Hsave.
    injection Hsave as <-. exists (item :: items).
    destruct (Hrt (item :: items)) as [Ht Hp].
    eapply loadHistory_stored; [reflexivity | exact Ht | exact Hp].
  - exists []. unfold loadHistory, clearHistory, getItemOrEmpty. simpl.
    rewrite Hempty. reflexivity.
Qed.

(** C10: [loadHistory] returns normally whatever is stored, and it returns
    the empty list when nothing is stored and when the stored text is not
    JSON. *)
Theorem C10_loadHistory_total (w : Browser) :
  JSON_parse (utf16 "[]") = Normal (JArray []) ->
  (exists v, loadHistory JSON_parse w = Normal v) /\
  (stored w = None -> loadHistory JSON_parse w = Normal (JArray [])) /\
  (forall s e, stored w = Some s -> JSON_parse s = Throw e ->
               loadHistory JSON_parse w = Normal (JArray [])).
Proof.
  intros Hempty. split; [apply loadHistory_returns|]. split.
  - intros Hn. unfold loadHistory, getItemOrEmpty. rewrite Hn, Hempty.
    reflexivity.
  - intros s e Hs He. unfold loadHistory, getItemOrEmpty, or_else.
    rewrite Hs. destruct (truthy s).
    + rewrite He. reflexivity.
    + rewrite Hempty. reflexivity.
Qed.

(** C9: after [clearHistory], [loadHistory] returns the empty list; and when
    the history holds [items] and the array with [item] in front survives
    [JSON.stringify] and [JSON.parse], [loadHistory] after
    [saveHistoryItem item] returns [item] followed by [items] in their
    order. *)
Theorem C9_clear_and_append (w0 w : Browser) (item : value)
        (items : list value) :
  JSON_parse (utf16 "[]") = Normal (JArray []) ->
  loadHistory JSON_parse w = Normal (JArray items) ->
  truthy (JSON_stringify (JArray (item :: items))) = true ->
  JSON_parse (JSON_stringify (JArray (item :: items)))
  = Normal (JArray (item :: items)) ->
  loadHistory JSON_parse (clearHistory w0) = Normal (JArray []) /\
  exists w',
    saveHistoryItem JSON_parse JSON_stringify item w = Normal w' /\
    loadHistory JSON_parse w' = Normal (JArray (item :: items)).
Proof.
  intros Hempty Hload Ht Hrt. split.
  - unfold loadHistory, clearHistory, getItemOrEmpty. simpl.
    rewrite Hempty. reflexivity.
  - eexists. split; [apply saveHistoryItem_array; exact Hload|].
    eapply loadHistory_stored; [reflexivity | exact Ht | exact Hrt].
Qed.

End HistoryClaims.

Section HistoryWitnesses.
Import JS JSON History Samples.

Lemma C10_loadHistory_total_witness :
  MiniJSON.parse (utf16 "[]") = Normal (JArray []) /\
  (exists v, loadHistory MiniJSON.parse garbled = Normal v) /\
  (stored garbled = None ->
   loadHistory MiniJSON.parse garbled = Normal (JArray [])) /\
  (forall s e, stored garbled = Some s -> MiniJSON.parse s = Throw e ->
               loadHistory MiniJSON.parse garbled = Normal (JArray [])).
Proof.
  split; [vm_compute; reflexivity|].
  apply (C10_loadHistory_total MiniJSON.parse garbled).
  vm_compute; reflexivity.
Defined.

Lemma C9_clear_and_append_witness :
  loadHistory MiniJSON.parse visited = Normal (JArray [olderItem]) /\
  MiniJSON.parse (MiniJSON.stringify (JArray [fluDiagnosis; olderItem]))
  = Normal (JArray [fluDiagnosis; olderItem]) /\
  loadHistory MiniJSON.parse (clearHistory visited) = Normal (JArray []) /\
  exists w',
    saveHistoryItem MiniJSON.parse MiniJSON.stringify fluDiagnosis visited
    = Normal w' /\
    loadHistory MiniJSON.parse w' = Normal (JArray [fluDiagnosis; olderItem]).
Proof.
  split; [vm_compute; reflexivity|].
  split; [vm_compute; reflexivity|].
  apply (C9_clear_and_append MiniJSON.parse MiniJSON.stringify visited visited
                             fluDiagnosis [olderItem]);
    vm_compute; reflexivity.
Defined.

End HistoryWitnesses.

(* ================================================================== *)
(** * Diagnosis reconciliation                                        *)
(* ================================================================== *)

Section Reconciliation.
Import JS JSON Speech Diagnose StatedDiagnosis.

Variable JSON_parse : jsstring -> completion value.
Variable JSON_stringify : value -> jsstring.
Variable props : Props.
Variable env : Env.

(** With a history that loads as an array, [saveAndReset] shows the result,
    persists one item holding it and ends the loading state. *)
Lemma saveAndReset_ok (json : value) (items : list value) (w : World) :
  History.loadHistory JSON_parse (browser w) = Normal (JArray items) ->
  saveAndReset JSON_parse JSON_stringify props env json w =
  (Normal tt,
   {| loading := false;
      result := Some json;
      browser :=
        {| History.stored :=
             Some (JSON_stringify (JArray (historyItem props env json :: items)));
           History.dispatched := History.dispatched (browser w) + 1 |};
      calls := calls w ++ [saveHistoryItem (historyItem props env json); onFinalizeComplete]
   |}).
Proof.
  intros Hload. unfold saveAndReset, persist, bindM, setResult, setLoading, call.
  cbn [loading result browser calls].
  rewrite (saveHistoryItem_array JSON_parse JSON_stringify _ _ _ Hload).
  cbn [loading result browser calls].
  rewrite <- app_assoc. reflexivity.
Qed.


(** When the stream cannot even be opened the fallback runs at once and no
    timer is set. *)
Lemma onFinalize_stream_throws (w : World) (e : string) (resp : value)
      (items : list value) :
  truthy (trim (transcript props)) = true ->
  stream env = Throw e ->
  response env = Normal resp ->
  History.loadHistory JSON_parse (browser w) = Normal (JArray items) ->
  exists w1,
    onFinalize JSON_parse JSON_stringify props env w = (Normal None, w1) /\
    calls w1 = calls w ++ [ onBeforeFinalize;
                            streamDiagnose (transcript props) (language props);
                            diagnose (transcript props) (language props);
                            saveHistoryItem (historyItem props env resp);
                            onFinalizeComplete ] /\
    result w1 = Some resp.
Proof.
  intros Ht Hs Hr Hload. unfold onFinalize. rewrite Ht, Hs.
  unfold doFallbackRequest, bindM, call, setLoading, setResult, ret, lift.
  cbn [negb loading result browser calls]. rewrite Hr.
  rewrite (saveAndReset_ok resp items) by exact Hload.
  cbn [loading result browser calls].
  eexists. split; [reflexivity|]. cbn [calls result].
  split; [rewrite <- !app_assoc; reflexivity | reflexivity].
Qed.





End Reconciliation.

Section ReconciliationWitness.
Import JS JSON Speech Diagnose StatedDiagnosis Samples.



End ReconciliationWitness.

(* ================================================================== *)
(** * More facts about binary64 arithmetic                            *)
(* ================================================================== *)

Section FloatArith.
Import JS.
Open Scope float_scope.

Lemma is_nan_eq (x : float) : is_nan x = true -> x = nan.
Proof.
  intros H. apply is_nan_spec in H. apply Prim2SF_inj. rewrite H. reflexivity.
Qed.

Lemma add_nan_l (x : float) : nan + x = nan.
Proof. apply Prim2SF_inj. rewrite add_spec. reflexivity. Qed.

Lemma add_nan_r (x : float) : x + nan = nan.
Proof.
  apply Prim2SF_inj. rewrite add_spec.
  change (Prim2SF nan) with S754_nan. destruct (Prim2SF x); reflexivity.
Qed.

Lemma sub_nan_l (x : float) : nan - x = nan.
Proof. apply Prim2SF_inj. rewrite sub_spec. reflexivity. Qed.

Lemma sub_nan_r (x : float) : x - nan = nan.
Proof.
  apply Prim2SF_inj. rewrite sub_spec.
  change (Prim2SF nan) with S754_nan. destruct (Prim2SF x); reflexivity.
Qed.

Lemma mul_nan_l (x : float) : nan * x = nan.
Proof. apply Prim2SF_inj. rewrite mul_spec. reflexivity. Qed.

Lemma mul_nan_r (x : float) : x * nan = nan.
Proof.
  apply Prim2SF_inj. rewrite mul_spec.
  change (Prim2SF nan) with S754_nan. destruct (Prim2SF x); reflexivity.
Qed.

Lemma div_nan_l (x : float) : nan / x = nan.
Proof. apply Prim2SF_inj. rewrite div_spec. reflexivity. Qed.

(** The sign given to [binary_round_aux] only ends up in the sign of what
    it returns. *)
Lemma SFabs_binary_round_aux (s s' : bool) (m e : Z) (l : location) :
  SFabs (binary_round_aux prec emax s m e l)
  = SFabs (binary_round_aux prec emax s' m e l).
Proof.
  unfold binary_round_aux.
  destruct (shr_fexp prec emax m e l) as [mrs' e'].
  destruct (shr_fexp prec emax _ e' loc_Exact) as [mrs'' e''].
  destruct (shr_m mrs'') as [|p|p]; try reflexivity.
  destruct (e'' <=? emax - prec)%Z; reflexivity.
Qed.

Lemma SFabs_binary_normalize_opp (m e : Z) :
  SFabs (binary_normalize prec emax (- m) e false)
  = SFabs (binary_normalize prec emax m e false).
Proof.
  destruct m as [|p|p]; simpl; try reflexivity;
    unfold binary_round;
    destruct (shl_align p e _) as [mz ez];
    apply SFabs_binary_round_aux.
Qed.

Lemma SFabs_SFsub_comm (x y : spec_float) :
  SFabs (SFsub prec emax x y) = SFabs (SFsub prec emax y x).
Proof.
  destruct x as [sx|sx| |sx mx ex], y as [sy|sy| |sy my ey];
    try reflexivity; try (destruct sx, sy; reflexivity).
  unfold SFsub. rewrite (Z.min_comm ey ex).
  rewrite <- SFabs_binary_normalize_opp. f_equal. f_equal. lia.
Qed.

(** [|a - b|] does not depend on the order of its operands. *)
Lemma abs_sub_comm (a b : float) : abs (a - b) = abs (b - a).
Proof.
  apply Prim2SF_inj. rewrite !abs_spec, !sub_spec. apply SFabs_SFsub_comm.
Qed.

Lemma is_finite_spec (x : float) :
  is_finite x = true ->
  (exists s, Prim2SF x = S754_zero s) \/
  (exists s m e, Prim2SF x = S754_finite s m e).
Proof.
  unfold is_finite, is_infinity. rewrite negb_true_iff, orb_false_iff.
  intros [Hn Hi]. rewrite eqb_spec, abs_spec in Hi.
  destruct (Prim2SF x) as [s|s| |s m e] eqn:E; eauto.
  - discriminate Hi.
  - assert (is_nan x = true) by (apply is_nan_spec; exact E). congruence.
Qed.

(** A finite number minus itself is [+0]. *)
Lemma sub_diag_finite (x : float) : is_finite x = true -> x - x = 0.
Proof.
  intros H. apply Prim2SF_inj. rewrite sub_spec.
  destruct (is_finite_spec x H) as [[s ->]|(s & m & e & ->)].
  - destruct s; reflexivity.
  - unfold SF64sub, SFsub. rewrite Z.sub_diag. reflexivity.
Qed.

End FloatArith.

(* ================================================================== *)
(** * More about the similarity score                                 *)
(* ================================================================== *)

Section SimilarityFacts.
Import JS VoiceAI VoiceHook Stated Samples.
Open Scope float_scope.

(** X1: the similarity of two feature vectors does not depend on their
    order. *)
Theorem X1_similarity_symmetric (f1 f2 : Features) :
  calculateSimilarity f1 f2 = calculateSimilarity f2 f1.
Proof.
  unfold calculateSimilarity, Math_abs.
  rewrite (abs_sub_comm (avgPitch f1)), (abs_sub_comm (pitchVariance f1)),
    (abs_sub_comm (avgIntensity f1)), (abs_sub_comm (formantF1 f1)),
    (abs_sub_comm (formantF2 f1)), (abs_sub_comm (speechRate f1)),
    (abs_sub_comm (voiceQuality f1)).
  reflexivity.
Qed.

Lemma abs_nan : abs nan = nan.
Proof. reflexivity. Qed.

Lemma clamp_nan_or (s : float) :
  Math_max 0 (Math_min 1 s) = nan \/ s <> nan.
Proof.
  destruct (is_nan s) eqn:Hs.
  - left. apply is_nan_eq in Hs. subst s.
    rewrite Math_min_nan. apply Math_max_nan.
  - right. intros ->. discriminate Hs.
Qed.

(** Reduces a score with a NaN feature to NaN, one feature at a time. *)
Ltac nan_score H :=
  unfold has_nan in H; rewrite !orb_true_iff in H;
  unfold calculateSimilarity, Math_abs;
  match goal with
  | |- Math_max 0 (Math_min 1 ?s) = nan =>
      destruct (clamp_nan_or s) as [Hn|Hn]; [exact Hn | exfalso; apply Hn]
  end;
  repeat match goal with
         | H : _ \/ _ |- _ => destruct H as [H|H]
         end;
  apply is_nan_eq in H; rewrite H;
  rewrite ?sub_nan_l, ?sub_nan_r, ?abs_nan, ?div_nan_l, ?sub_nan_r,
    ?mul_nan_r, ?add_nan_r, ?add_nan_l;
  reflexivity.

Lemma similarity_poisoned (f1 f2 : Features) :
  has_nan f1 = true \/ has_nan f2 = true ->
  calculateSimilarity f1 f2 = nan.
Proof.
  intros [H|H]; nan_score H.
Qed.

Lemma compare_poisoned (f : Features) (profile : VoiceProfile)
      (bestMatch : SpeakerType * float) :
  has_nan f = true \/ has_nan (features profile) = true ->
  compareProfile f bestMatch profile = bestMatch.
Proof.
  intros H. unfold compareProfile. rewrite (similarity_poisoned _ _ H).
  unfold gtb.
  destruct (float_cmp (snd bestMatch) nan) as [? ? ? ? ? ? _ Hn|? ? ? ? ? ? _ Hn
                                              |? ? ? ? ? ? _ Hn|Hlt _ _ _ _ _ _];
    try discriminate Hn.
  rewrite Hlt. reflexivity.
Qed.

Lemma similarity_self (f : Features) :
  all_finite f = true -> calculateSimilarity f f = 1.
Proof.
  unfold all_finite. rewrite !andb_true_iff.
  intros [[[[[[H1 H2] H3] H4] H5] H6] H7].
  unfold calculateSimilarity, Math_abs.
  rewrite !sub_diag_finite by assumption.
  vm_compute. reflexivity.
Qed.

(** X2: a NaN in any feature of the sample or of a profile makes their
    similarity NaN, and the loop of [identifySpeaker] then passes the profile
    over: it never becomes the best match. *)
Theorem X2_nan_never_matches (f : Features) (profile : VoiceProfile)
        (bestMatch : SpeakerType * float) :
  has_nan f = true \/ has_nan (features profile) = true ->
  calculateSimilarity f (features profile) = nan /\
  compareProfile f bestMatch profile = bestMatch.
Proof.
  intros H. split; [apply similarity_poisoned | apply compare_poisoned];
    exact H.
Qed.

(** X3: a vector whose features are all finite has similarity exactly 1 with
    itself, and no other vector scores higher against it. *)
Theorem X3_self_similarity_greatest (f : Features) :
  all_finite f = true ->
  calculateSimilarity f f = 1 /\
  forall g, is_nan (calculateSimilarity f g) = true \/
            (calculateSimilarity f g <=? calculateSimilarity f f) = true.
Proof.
  intros H. rewrite (similarity_self f H). split; [reflexivity|].
  intros g. destruct (calculateSimilarity_clamp01 f g) as [s ->].
  destruct (is_nan (clamp01 s)) eqn:Hn; [left; reflexivity | right].
  apply clamp01_range. exact Hn.
Qed.

Lemma X2_nan_never_matches_witness :
  has_nan {| avgPitch := nan; pitchVariance := nan; avgIntensity := nan;
             formantF1 := nan; formantF2 := nan; speechRate := nan;
             voiceQuality := 0.4 |} = true /\
  calculateSimilarity
    {| avgPitch := nan; pitchVariance := nan; avgIntensity := nan;
       formantF1 := nan; formantF2 := nan; speechRate := nan;
       voiceQuality := 0.4 |}
    (features {| id := doctor; name := doctor; features := storedVoice;
                 samples := 3 |}) = nan /\
  compareProfile
    {| avgPitch := nan; pitchVariance := nan; avgIntensity := nan;
       formantF1 := nan; formantF2 := nan; speechRate := nan;
       voiceQuality := 0.4 |}
    (auto, 0)
    {| id := doctor; name := doctor; features := storedVoice; samples := 3 |}
  = (auto, 0).
Proof.
  split; [reflexivity|].
  apply (X2_nan_never_matches
           {| avgPitch := nan; pitchVariance := nan; avgIntensity := nan;
              formantF1 := nan; formantF2 := nan; speechRate := nan;
              voiceQuality := 0.4 |}
           {| id := doctor; name := doctor; features := storedVoice;
              samples := 3 |} (auto, 0)).
  left. reflexivity.
Defined.

Lemma X3_self_similarity_greatest_witness :
  all_finite storedVoice = true /\
  calculateSimilarity storedVoice storedVoice = 1 /\
  forall g, is_nan (calculateSimilarity storedVoice g) = true \/
            (calculateSimilarity storedVoice g
             <=? calculateSimilarity storedVoice storedVoice) = true.
Proof.
  split; [reflexivity|].
  apply (X3_self_similarity_greatest storedVoice). reflexivity.
Defined.

End SimilarityFacts.

(* ================================================================== *)
(** * The voice hook over any sequence of calls                       *)
(* ================================================================== *)

Section VoiceHookFacts.
Import JS VoiceHook VoiceAI Stated Samples.
Open Scope float_scope.

Variable approx : float -> float.

Lemma extract_with_context (audio : list float) :
  exists f, extractVoiceFeatures approx true audio = Normal f.
Proof. eexists. reflexivity. Qed.

Lemma learnVoice_learns (st : State) (label : SpeakerType)
      (audio : list float) :
  isLearning st = true ->
  exists f,
    extractVoiceFeatures approx true audio = Normal f /\
    learnVoice approx st true (Normal audio) label =
    Normal {| voiceProfiles := learnUpdate label f (voiceProfiles st);
              isLearning := true;
              lastAnalysisRef := lastAnalysisRef st |}.
Proof.
  intros Hl. destruct (extract_with_context audio) as [f Hf].
  exists f. split; [exact Hf|].
  unfold learnVoice. rewrite Hl.
  cbn -[extractVoiceFeatures learnUpdate]. rewrite Hf. reflexivity.
Qed.

(** A learn call either changes nothing or files one extracted sample. *)
Lemma learnVoice_cases (st : State) (ctx : bool)
      (decoded : completion (list float)) (label : SpeakerType) :
  learnVoice approx st ctx decoded label = Normal st \/
  exists audio f,
    isLearning st = true /\
    extractVoiceFeatures approx true audio = Normal f /\
    learnVoice approx st ctx decoded label =
    Normal {| voiceProfiles := learnUpdate label f (voiceProfiles st);
              isLearning := true;
              lastAnalysisRef := lastAnalysisRef st |}.
Proof.
  destruct (isLearning st) eqn:Hl;
    [|left; apply learnVoice_disabled; exact Hl].
  destruct ctx; [|left; unfold learnVoice; rewrite Hl; reflexivity].
  destruct decoded as [audio|e];
    [|left; unfold learnVoice; rewrite Hl; reflexivity].
  right. destruct (learnVoice_learns st label audio Hl) as (f & Hf & E).
  exists audio, f. auto.
Qed.

Lemma identifySpeaker_state (st : State) (ctx : bool)
      (decoded : completion (list float)) :
  exists a st',
    identifySpeaker approx st ctx decoded = Normal (a, st') /\
    voiceProfiles st' = voiceProfiles st /\
    isLearning st' = isLearning st.
Proof.
  unfold identifySpeaker.
  destruct ctx; [|simpl; eauto].
  destruct decoded as [audio|e]; [|simpl; eauto].
  cbn -[bestMatchOf]. destruct (Nat.eqb (Map_size (voiceProfiles st)) 0);
    simpl; eauto.
Qed.

(** What a call does to the store and to the learning flag. *)
Lemma step_cases (st : State) (c : Call) :
  (voiceProfiles (step approx st c) = voiceProfiles st /\
   (isLearning (step approx st c) = isLearning st \/ c = StopLearning)) \/
  c = ResetVoiceProfiles \/
  exists label audio f,
    isLearning st = true /\
    isLearning (step approx st c) = true /\
    c = LearnVoice true (Normal audio) label /\
    extractVoiceFeatures approx true audio = Normal f /\
    voiceProfiles (step approx st c) = learnUpdate label f (voiceProfiles st).
Proof.
  destruct c as [ctx decoded label|ctx decoded| |].
  - destruct (isLearning st) eqn:Hl.
    + destruct ctx;
        [|left; simpl; unfold learnVoice; rewrite Hl; simpl; auto].
      destruct decoded as [audio|e];
        [|left; simpl; unfold learnVoice; rewrite Hl; simpl; auto].
      right. right.
      destruct (learnVoice_learns st label audio Hl) as (f & Hf & E).
      exists label, audio, f. cbn [step]. rewrite E. cbn. auto.
    + left. cbn [step]. rewrite learnVoice_disabled by exact Hl. auto.
  - left. cbn [step].
    destruct (identifySpeaker_state st ctx decoded) as (a & st' & E & Hp & Hl).
    rewrite E. auto.
  - right. left. reflexivity.
  - left. simpl. auto.
Qed.

(** ** The best match of [identifySpeaker] *)

(** The running best is the initial one, or a stored profile with its score,
    which is then positive and at most 1. *)
Let chosen (f : Features) (l : list VoiceProfile)
    (b : SpeakerType * float) : Prop :=
  b = (auto, 0) \/
  exists p, In p l /\ b = (name p, calculateSimilarity f (features p)) /\
            (0 <? snd b) = true /\ (snd b <=? 1) = true.

Lemma compareProfile_chosen (f : Features) (l : list VoiceProfile)
      (b : SpeakerType * float) (p : VoiceProfile) :
  In p l -> chosen f l b -> chosen f l (compareProfile f b p).
Proof.
  intros Hin Hb. unfold compareProfile, gtb.
  destruct (snd b <? calculateSimilarity f (features p)) eqn:Hlt;
    [|exact Hb].
  right. exists p. split; [exact Hin|]. split; [reflexivity|].
  cbn [snd].
  destruct (calculateSimilarity_clamp01 f (features p)) as [s E].
  rewrite E in *.
  assert (Hn : is_nan (clamp01 s) = false).
  { destruct (float_cmp (snd b) (clamp01 s))
      as [? ? ? ? ? ? _ ?|? ? ? ? ? ? _ ?|? ? ? ? ? ? _ ?|? ? ? ? ? ? ?];
      congruence. }
  destruct (clamp01_range s Hn) as [[H0|H0] H1]; [exfalso | auto].
  rewrite H0 in Hlt.
  destruct Hb as [->|(q & _ & _ & Hq & _)].
  - vm_compute in Hlt. discriminate Hlt.
  - destruct (float_cmp 0 (snd b))
      as [? ? ? ? ? ? _ _|? ? ? ? ? ? _ _|? ? ? ? ? ? _ _|? ? ? ? ? ? ?];
      congruence.
Qed.

Lemma fold_chosen (f : Features) (l : list VoiceProfile) :
  forall (l' : list VoiceProfile) (b : SpeakerType * float),
  incl l' l -> chosen f l b ->
  chosen f l (fold_left (compareProfile f) l' b).
Proof.
  induction l' as [|h l' IH]; intros b Hincl Hb; [exact Hb|].
  simpl. apply IH.
  - intros x Hx. apply Hincl. right. exact Hx.
  - apply compareProfile_chosen; [apply Hincl; left; reflexivity | exact Hb].
Qed.

(** X4: [identifySpeaker] always answers and leaves the store and the
    learning flag as they were; the confidence is a number of [0,1]; the
    speaker is "auto", or "doctor" with confidence 0.7 on an empty store, or
    the label of a stored profile whose similarity to the extracted features
    is the confidence and exceeds 0.4. *)
Theorem X4_identify_answer (st : State) (ctx : bool)
        (decoded : completion (list float)) :
  exists a st',
    identifySpeaker approx st ctx decoded = Normal (a, st') /\
    voiceProfiles st' = voiceProfiles st /\
    isLearning st' = isLearning st /\
    (0 <=? confidence a) = true /\ (confidence a <=? 1) = true /\
    (speaker a = auto \/
     (speaker a = doctor /\ confidence a = 0.7 /\ voiceProfiles st = []) \/
     exists p, In p (Map_values (voiceProfiles st)) /\
               speaker a = name p /\
               confidence a
               = calculateSimilarity (analysisFeatures a) (features p) /\
               (0.4 <? confidence a) = true).
Proof.
  unfold identifySpeaker.
  destruct ctx;
    [|simpl; do 2 eexists; split; [reflexivity|]; repeat split; auto].
  destruct decoded as [audio|e];
    [|simpl; do 2 eexists; split; [reflexivity|]; repeat split; auto].
  destruct (extract_with_context audio) as [f Hf].
  cbn -[extractVoiceFeatures bestMatchOf Map_size Nat.eqb]. rewrite Hf.
  cbn -[bestMatchOf Map_size Nat.eqb].
  destruct (Nat.eqb (Map_size (voiceProfiles st)) 0) eqn:Hsz.
  - do 2 eexists. split; [reflexivity|]. cbn.
    repeat split; auto. right. left. repeat split.
    destruct (voiceProfiles st); [reflexivity | discriminate Hsz].
  - do 2 eexists. split; [reflexivity|]. cbn -[bestMatchOf].
    split; [reflexivity|]. split; [reflexivity|].
    pose proof (fold_chosen f (Map_values (voiceProfiles st))
                            (Map_values (voiceProfiles st)) (auto, 0)
                            (incl_refl _) (or_introl eq_refl)) as H.
    fold (bestMatchOf f (voiceProfiles st)) in H.
    destruct H as [->|(p & Hin & -> & H0 & H1)].
    + cbn. repeat split; auto.
    + cbn [fst snd] in *. split; [|split; [exact H1|]].
      * apply leb_of_zero_or_pos. right. exact H0.
      * unfold gtb.
        destruct (0.4 <? calculateSimilarity f (features p)) eqn:Hgt;
          [|left; reflexivity].
        right. right. exists p. auto.
Qed.

Lemma fold_poisoned (f : Features) (l : list VoiceProfile)
      (b : SpeakerType * float) :
  (forall p, In p l -> has_nan f = true \/ has_nan (features p) = true) ->
  fold_left (compareProfile f) l b = b.
Proof.
  induction l as [|h l IH]; intros H; [reflexivity|]. simpl.
  rewrite compare_poisoned by (apply H; left; reflexivity).
  apply IH. intros p Hp. apply H. right. exact Hp.
Qed.

(** X5: against a store that is not empty, a sample with a NaN feature, or
    any sample when every stored profile has a NaN feature, is answered
    "auto" with confidence 0. *)
Theorem X5_nan_is_unknown (st : State) (ctx : bool)
        (decoded : completion (list float)) (audio : list float)
        (f : Features) :
  decoded = Normal audio ->
  extractVoiceFeatures approx ctx audio = Normal f ->
  voiceProfiles st <> [] ->
  has_nan f = true \/
  Forall (fun p => has_nan (features p) = true)
         (Map_values (voiceProfiles st)) ->
  exists st',
    identifySpeaker approx st ctx decoded =
    Normal ({| speaker := auto; confidence := 0; analysisFeatures := f |},
            st').
Proof.
  intros Hd Hx Hne Hnan.
  pose proof (extract_needs_context _ _ _ _ Hx) as Hc. subst ctx decoded.
  assert (Hsz : Nat.eqb (Map_size (voiceProfiles st)) 0 = false)
    by (destruct (voiceProfiles st); [congruence | reflexivity]).
  unfold identifySpeaker.
  cbn -[extractVoiceFeatures bestMatchOf Map_size Nat.eqb]. rewrite Hx.
  cbn -[bestMatchOf Map_size Nat.eqb]. rewrite Hsz.
  unfold bestMatchOf. rewrite fold_poisoned.
  - eexists. reflexivity.
  - intros p Hp. destruct Hnan as [Hnan|Hnan]; [left; exact Hnan|].
    right. rewrite Forall_forall in Hnan. apply Hnan. exact Hp.
Qed.

(** ** NaN features in the store *)

Lemma blend_nan_old (o n a b : float) :
  is_nan o = true -> is_nan (o * a + n * b) = true.
Proof.
  intros H. apply is_nan_eq in H. subst o.
  rewrite mul_nan_l, add_nan_l. reflexivity.
Qed.

Lemma blend_nan_new (o n a b : float) :
  is_nan n = true -> is_nan (o * a + n * b) = true.
Proof.
  intros H. apply is_nan_eq in H. subst n.
  rewrite mul_nan_l, add_nan_r. reflexivity.
Qed.

Lemma Map_get_learnUpdate_same (label : SpeakerType) (f : Features)
      (m : ProfileMap) :
  Map_get (learnUpdate label f m) label =
  Some match Map_get m label with
       | Some p => {| id := id p; name := name p;
                      features := blend (features p) f;
                      samples := samples p + 1 |}
       | None => {| id := label; name := label; features := f;
                    samples := 1 |}
       end.
Proof.
  unfold learnUpdate. destruct (Map_get m label);
    rewrite Map_get_set_same; reflexivity.
Qed.

Lemma Map_get_learnUpdate_other (label k : SpeakerType) (f : Features)
      (m : ProfileMap) :
  k <> label -> Map_get (learnUpdate label f m) k = Map_get m k.
Proof.
  intros H. unfold learnUpdate. destruct (Map_get m label);
    apply Map_get_set_other; exact H.
Qed.

Lemma has_nan_blend (old new : Features) :
  has_nan old = true \/ has_nan new = true ->
  has_nan (blend old new) = true.
Proof.
  unfold has_nan, blend. cbn [avgPitch pitchVariance avgIntensity formantF1
                              formantF2 speechRate voiceQuality].
  rewrite !orb_true_iff.
  intros [H|H];
    repeat match goal with
           | H : _ \/ _ |- _ => destruct H as [H|H]
           end;
    first [ rewrite (blend_nan_old _ _ _ _ H)
          | rewrite (blend_nan_new _ _ _ _ H) ];
    tauto.
Qed.

Lemma learnUpdate_poisons (label : SpeakerType) (f : Features)
      (m : ProfileMap) :
  has_nan f = true -> poisoned (learnUpdate label f m) label.
Proof.
  intros H. eexists. split; [apply Map_get_learnUpdate_same|].
  destruct (Map_get m label); cbn [features]; [|exact H].
  apply has_nan_blend. right. exact H.
Qed.

Lemma learnUpdate_poisoned (label k : SpeakerType) (f : Features)
      (m : ProfileMap) :
  poisoned m k -> poisoned (learnUpdate label f m) k.
Proof.
  intros (p & Hp & Hn).
  destruct (SpeakerType_eqb k label) eqn:E.
  - apply SpeakerType_eqb_eq in E. subst k.
    eexists. split; [apply Map_get_learnUpdate_same|].
    rewrite Hp. cbn [features]. apply has_nan_blend. left. exact Hn.
  - apply SpeakerType_eqb_neq in E. exists p. split; [|exact Hn].
    rewrite Map_get_learnUpdate_other by exact E. exact Hp.
Qed.

Lemma run_poisoned (calls : list Call) :
  forall (st : State) (k : SpeakerType),
  forallb keepsProfiles calls = true ->
  poisoned (voiceProfiles st) k ->
  poisoned (voiceProfiles (run approx st calls)) k.
Proof.
  induction calls as [|c calls IH]; intros st k Hk Hp; [exact Hp|].
  simpl in Hk. apply andb_true_iff in Hk. destruct Hk as [Hc Hk].
  change (run approx st (c :: calls))
    with (run approx (step approx st c) calls).
  apply IH; [exact Hk|].
  destruct (step_cases st c)
    as [[E _]|[->|(label & audio & f & _ & _ & _ & _ & E)]].
  - rewrite E. exact Hp.
  - discriminate Hc.
  - rewrite E. apply learnUpdate_poisoned. exact Hp.
Qed.

(** X6: once a sample with a NaN feature has been learnt under a label, the
    label's profile has a NaN feature after any further calls, as long as the
    profiles are not reset. *)
Theorem X6_nan_sample_poisons (st : State) (label : SpeakerType)
        (audio : list float) (f : Features) (calls : list Call) :
  isLearning st = true ->
  extractVoiceFeatures approx true audio = Normal f ->
  has_nan f = true ->
  forallb keepsProfiles calls = true ->
  poisoned (voiceProfiles (run approx st (learns (label, audio) :: calls)))
           label.
Proof.
  intros Hl Hx Hn Hk.
  change (run approx st (learns (label, audio) :: calls))
    with (run approx (step approx st (learns (label, audio))) calls).
  apply run_poisoned; [exact Hk|].
  unfold learns. cbn [step fst snd].
  destruct (learnVoice_learns st label audio Hl) as (f' & Hf' & E).
  rewrite E. cbn [voiceProfiles].
  rewrite Hx in Hf'.
  assert (f' = f) as ->.
  { apply (f_equal (fun c => match c with
                             | Normal x => x
                             | Throw _ => f
                             end)) in Hf'. symmetry. exact Hf'. }
  apply learnUpdate_poisons. exact Hn.
Qed.

(** ** Learning, then identifying *)

(** X7: on an empty store, learning one sample with finite features under a
    label and then identifying the same audio answers that label with
    confidence 1. *)
Theorem X7_learn_then_identify (st : State) (ctx : bool)
        (audio : list float) (label : SpeakerType) (f : Features) :
  isLearning st = true ->
  voiceProfiles st = [] ->
  extractVoiceFeatures approx ctx audio = Normal f ->
  all_finite f = true ->
  exists st1 st2,
    learnVoice approx st ctx (Normal audio) label = Normal st1 /\
    identifySpeaker approx st1 ctx (Normal audio) =
    Normal ({| speaker := label; confidence := 1; analysisFeatures := f |},
            st2).
Proof.
  intros Hl He Hx Hf.
  pose proof (extract_needs_context _ _ _ _ Hx) as Hc. subst ctx.
  pose proof (similarity_self f Hf) as Hs.
  unfold learnVoice. rewrite Hl.
  cbn -[extractVoiceFeatures learnUpdate]. rewrite Hx.
  cbn -[learnUpdate]. rewrite He.
  eexists. eexists. split; [reflexivity|].
  unfold identifySpeaker.
  cbn -[extractVoiceFeatures calculateSimilarity]. rewrite Hx.
  cbn -[calculateSimilarity]. unfold compareProfile.
  cbn -[calculateSimilarity]. rewrite Hs.
  destruct label; reflexivity.
Qed.

(** ** The shape of the store *)

Lemma Map_get_In (m : ProfileMap) (k : SpeakerType) (p : VoiceProfile) :
  Map_get m k = Some p -> In (k, p) m.
Proof.
  induction m as [|[k' v] m IH]; simpl; [discriminate|].
  destruct (SpeakerType_eqb k' k) eqn:E.
  - apply SpeakerType_eqb_eq in E. subst k'.
    intros H. left. congruence.
  - intros H. right. apply IH. exact H.
Qed.

Lemma Map_get_None (m : ProfileMap) (k : SpeakerType) :
  Map_get m k = None -> ~ In k (map fst m).
Proof.
  induction m as [|[k' v] m IH]; simpl; [tauto|].
  destruct (SpeakerType_eqb k' k) eqn:E; [discriminate|].
  apply SpeakerType_eqb_neq in E. intros H [H'|H']; [congruence|].
  apply IH; assumption.
Qed.

Lemma Map_set_keys (m : ProfileMap) (k : SpeakerType) (v : VoiceProfile) :
  map fst (Map_set m k v) =
  match Map_get m k with
  | Some _ => map fst m
  | None => map fst m ++ [k]
  end.
Proof.
  induction m as [|[k' v'] m IH]; simpl; [reflexivity|].
  destruct (SpeakerType_eqb k' k) eqn:E; simpl.
  - apply SpeakerType_eqb_eq in E. subst k'. reflexivity.
  - rewrite IH. destruct (Map_get m k); reflexivity.
Qed.

Lemma Map_set_filed (m : ProfileMap) (k : SpeakerType) (v : VoiceProfile) :
  Forall filed m -> filed (k, v) -> Forall filed (Map_set m k v).
Proof.
  intros Hm Hv. induction Hm as [|[k' v'] m Hh Hm IH]; simpl.
  - constructor; [exact Hv | constructor].
  - destruct (SpeakerType_eqb k' k); constructor; assumption.
Qed.

Lemma Map_set_wellFormed (m : ProfileMap) (k : SpeakerType)
      (v : VoiceProfile) :
  wellFormed m -> filed (k, v) -> wellFormed (Map_set m k v).
Proof.
  intros [Hnd Hf] Hv. split; [|apply Map_set_filed; assumption].
  rewrite Map_set_keys. destruct (Map_get m k) eqn:E; [exact Hnd|].
  apply NoDup_app; [exact Hnd | repeat constructor; simpl; tauto|].
  intros x Hx [<-|[]]. exact (Map_get_None _ _ E Hx).
Qed.

Lemma learnUpdate_wellFormed (label : SpeakerType) (f : Features)
      (m : ProfileMap) :
  wellFormed m -> wellFormed (learnUpdate label f m).
Proof.
  intros Hm. unfold learnUpdate.
  destruct (Map_get m label) as [p|] eqn:E;
    apply Map_set_wellFormed; try exact Hm.
  - apply Map_get_In in E. destruct Hm as [_ Hf].
    rewrite Forall_forall in Hf. destruct (Hf _ E) as (H1 & H2 & H3).
    cbn [fst snd] in *. repeat split; cbn; auto. lia.
  - repeat split; cbn; auto.
Qed.

Lemma run_wellFormed (calls : list Call) :
  forall st : State,
  wellFormed (voiceProfiles st) ->
  wellFormed (voiceProfiles (run approx st calls)).
Proof.
  induction calls as [|c calls IH]; intros st H; [exact H|].
  change (run approx st (c :: calls))
    with (run approx (step approx st c) calls).
  apply IH.
  destruct (step_cases st c)
    as [[E _]|[->|(label & audio & f & _ & _ & _ & _ & E)]].
  - rewrite E. exact H.
  - split; constructor.
  - rewrite E. apply learnUpdate_wellFormed. exact H.
Qed.

Lemma labels_at_most_three (l : list SpeakerType) :
  NoDup l -> length l <= 3.
Proof.
  intros H.
  apply (NoDup_incl_length H (l' := [doctor; patient; auto])).
  intros x _. destruct x; simpl; auto.
Qed.

(** X8: whatever calls are made on a fresh hook, no label is filed twice,
    every profile carries the label it is filed under as its id and name and
    has at least one sample, and the store holds at most three profiles. *)
Theorem X8_store_well_formed (calls : list Call) :
  wellFormed (voiceProfiles (run approx initialState calls)) /\
  totalProfiles (getStats (run approx initialState calls)) <= 3.
Proof.
  assert (H : wellFormed (voiceProfiles (run approx initialState calls))).
  { apply run_wellFormed. split; constructor. }
  split; [exact H|]. cbn [getStats totalProfiles]. unfold Map_size.
  rewrite <- (length_map fst). apply labels_at_most_three. exact (proj1 H).
Qed.

(** ** Counting samples *)

Lemma samplesOf_learnUpdate (label k : SpeakerType) (f : Features)
      (m : ProfileMap) :
  samplesOf (learnUpdate label f m) k =
  (samplesOf m k + if SpeakerType_eqb label k then 1 else 0)%nat.
Proof.
  unfold samplesOf. destruct (SpeakerType_eqb label k) eqn:E.
  - apply SpeakerType_eqb_eq in E. subst k.
    rewrite Map_get_learnUpdate_same.
    destruct (Map_get m label); reflexivity.
  - apply SpeakerType_eqb_neq in E.
    rewrite Map_get_learnUpdate_other by congruence.
    destruct (Map_get m k); lia.
Qed.

Lemma samplesOf_learns (samples : list (SpeakerType * list float))
      (k : SpeakerType) :
  forall st : State,
  isLearning st = true ->
  samplesOf (voiceProfiles (run approx st (map learns samples))) k
  = (samplesOf (voiceProfiles st) k + learntAs k samples)%nat /\
  isLearning (run approx st (map learns samples)) = true.
Proof.
  induction samples as [|[label audio] samples IH]; intros st Hl.
  - simpl. unfold learntAs. simpl. split; [lia | exact Hl].
  - cbn [map].
    change (run approx st (learns (label, audio) :: map learns samples))
      with (run approx (step approx st (learns (label, audio)))
                (map learns samples)).
    unfold learns at 1 3. cbn [step fst snd].
    destruct (learnVoice_learns st label audio Hl) as (f & _ & E).
    rewrite E.
    match goal with
    | |- context [run approx ?s _] =>
        destruct (IH s eq_refl) as [IH1 IH2]
    end.
    rewrite IH1, IH2. split; [|reflexivity].
    cbn [voiceProfiles]. rewrite samplesOf_learnUpdate.
    unfold learntAs. cbn [filter fst].
    destruct (SpeakerType_eqb label k); simpl; lia.
Qed.

(** X9: after any series of learn calls on a fresh hook, each with an audio
    context and a blob that decodes, the statistics credit "doctor" and
    "patient" with as many samples as were learnt under each label, and
    learning is still enabled. *)
Theorem X9_samples_counted (samples : list (SpeakerType * list float)) :
  doctorSamples (getStats (run approx initialState (map learns samples)))
  = learntAs doctor samples /\
  patientSamples (getStats (run approx initialState (map learns samples)))
  = learntAs patient samples /\
  VoiceHook.isLearning
    (getStats (run approx initialState (map learns samples))) = true.
Proof.
  cbn [getStats doctorSamples patientSamples VoiceHook.isLearning].
  destruct (samplesOf_learns samples doctor initialState eq_refl) as [-> ->].
  destruct (samplesOf_learns samples patient initialState eq_refl) as [-> _].
  auto.
Qed.

(** ** Learning stopped *)

Lemma run_frozen (calls : list Call) :
  forall st : State,
  isLearning st = false ->
  forallb keepsProfiles calls = true ->
  voiceProfiles (run approx st calls) = voiceProfiles st /\
  isLearning (run approx st calls) = false.
Proof.
  induction calls as [|c calls IH]; intros st Hl Hk; [auto|].
  simpl in Hk. apply andb_true_iff in Hk. destruct Hk as [Hc Hk].
  change (run approx st (c :: calls))
    with (run approx (step approx st c) calls).
  destruct (step_cases st c)
    as [[E El]|[->|(label & audio & f & Hl' & _)]];
    [|discriminate Hc|congruence].
  assert (Hl1 : isLearning (step approx st c) = false).
  { destruct El as [El| ->]; [congruence | reflexivity]. }
  destruct (IH _ Hl1 Hk) as [IH1 IH2]. rewrite IH1, IH2, E. auto.
Qed.

(** X10: after [stopLearning], no call other than [resetVoiceProfiles]
    changes the store, and learning stays disabled. *)
Theorem X10_stop_freezes_store (st : State) (calls : list Call) :
  forallb keepsProfiles calls = true ->
  voiceProfiles (run approx (stopLearning st) calls) = voiceProfiles st /\
  isLearning (run approx (stopLearning st) calls) = false.
Proof.
  intros Hk. apply (run_frozen calls (stopLearning st) eq_refl Hk).
Qed.

End VoiceHookFacts.

Section VoiceHookWitnesses.
Import JS VoiceHook VoiceAI Stated Samples.
Open Scope float_scope.

(** The empty buffer, identified by a hook that knows two voices. *)
Lemma X5_nan_is_unknown_witness :
  exists st',
    identifySpeaker log10_stub trained true (Normal []) =
    Normal ({| speaker := auto; confidence := 0;
               analysisFeatures :=
                 {| avgPitch := nan; pitchVariance := nan;
                    avgIntensity := nan; formantF1 := nan; formantF2 := nan;
                    speechRate := nan; voiceQuality := 0.4 |} |}, st').
Proof.
  apply (X5_nan_is_unknown log10_stub trained true (Normal []) []).
  - reflexivity.
  - reflexivity.
  - discriminate.
  - left. reflexivity.
Defined.

(** The empty buffer learnt as the doctor's voice, then a real sample. *)
Lemma X6_nan_sample_poisons_witness :
  poisoned
    (voiceProfiles
       (run log10_stub trained
            (learns (doctor, []) :: [learns (doctor, snippet)])))
    doctor.
Proof.
  apply (X6_nan_sample_poisons log10_stub trained doctor []
           {| avgPitch := nan; pitchVariance := nan; avgIntensity := nan;
              formantF1 := nan; formantF2 := nan; speechRate := nan;
              voiceQuality := 0.4 |} [learns (doctor, snippet)]);
    reflexivity.
Defined.

Lemma X7_learn_then_identify_witness :
  exists st1 st2,
    learnVoice log10_stub initialState true (Normal snippet) patient
    = Normal st1 /\
    identifySpeaker log10_stub st1 true (Normal snippet) =
    Normal ({| speaker := patient; confidence := 1;
               analysisFeatures := snippetFeatures |}, st2).
Proof.
  apply (X7_learn_then_identify log10_stub initialState true snippet patient
                                snippetFeatures);
    vm_compute; reflexivity.
Defined.

Lemma X10_stop_freezes_store_witness :
  voiceProfiles
    (run log10_stub (stopLearning trained)
         [learns (patient, snippet); IdentifySpeaker true (Normal snippet);
          StopLearning]) = voiceProfiles trained /\
  isLearning
    (run log10_stub (stopLearning trained)
         [learns (patient, snippet); IdentifySpeaker true (Normal snippet);
          StopLearning]) = false.
Proof.
  apply (X10_stop_freezes_store log10_stub trained
           [learns (patient, snippet); IdentifySpeaker true (Normal snippet);
            StopLearning]).
  reflexivity.
Defined.

End VoiceHookWitnesses.

(* ================================================================== *)
(** * The labelers over any sequence of actions                       *)
(* ================================================================== *)

Section LabelerRuns.
Import JS Speech Stated Observed.
Import VoiceAI(SpeakerType, doctor, patient, auto).

(** The loop of the handlers sorts the results from [resultIndex] on into
    the interim and the final text, keeping their order. *)
Lemma collect_partition (rs : list SpeechResult) :
  forall interim final : jsstring,
  collect rs interim final =
  (interim ++ flat_map transcript (filter (fun r => negb (isFinal r)) rs),
   final ++ flat_map (fun r => transcript r ++ [32%N]) (filter isFinal rs)).
Proof.
  induction rs as [|r rs IH]; intros interim final; simpl.
  - rewrite !app_nil_r. reflexivity.
  - destruct (isFinal r); simpl; rewrite IH, <- ?app_assoc; reflexivity.
Qed.

(** X11: an event's final text is the concatenation, in order, of the
    transcripts of its finalized results from [resultIndex] on, each followed
    by a space; its interim text is the concatenation of the others; results
    before [resultIndex] are not read. *)
Theorem X11_event_texts (event : Event) :
  finalText event =
    flat_map (fun r => transcript r ++ [32%N])
             (filter isFinal (skipn (resultIndex event) (results event))) /\
  interimText event =
    flat_map transcript
             (filter (fun r => negb (isFinal r))
                     (skipn (resultIndex event) (results event))).
Proof.
  unfold finalText, interimText, transcriptsOf.
  rewrite collect_partition. split; reflexivity.
Qed.

(** ** The microphone recorder *)

(** What the handler does to the component, whatever the event. *)
Lemma Recorder_onresult_cases (language : Language) (st : Recorder.State)
      (event : Event) :
  exists st' o,
    Recorder.onresult language st event = (st', o) /\
    ((st' = st /\ Recorder.assigned o = None /\ Recorder.appended o = None /\
      Recorder.learning o = None) \/
     (exists line,
        Recorder.assigned o = Some (alternation (Recorder.speechCountRef st)) /\
        Recorder.appended o = Some line /\
        line = Recorder.getSpeakerPrefix
                 (alternation (Recorder.speechCountRef st))
                 (Recorder.patientName st) language
               ++ trim (finalText event) ++ [10%N] /\
        Recorder.speechCountRef st' = Recorder.speechCountRef st + 1 /\
        Recorder.finalRef st' = Recorder.finalRef st ++ line /\
        Recorder.patientName st' = Recorder.patientName st /\
        Recorder.streamRef st' = Recorder.streamRef st /\
        ((Recorder.learning o = None /\
          Recorder.isProcessingRef st' = Recorder.isProcessingRef st) \/
         (Recorder.learning o
          = Some (alternation (Recorder.speechCountRef st)) /\
          Recorder.isProcessingRef st = false /\
          Recorder.isProcessingRef st' = true)))).
Proof.
  unfold finalText, Recorder.onresult.
  destruct (transcriptsOf event) as [interim final]. cbn [fst snd].
  destruct (truthy final); [|do 2 eexists; split; [reflexivity|]; left; auto].
  destruct (str_eqb (trim final) (Recorder.lastTranscriptRef st));
    [do 2 eexists; split; [reflexivity|]; left; auto|].
  rewrite parity_label.
  do 2 eexists. split; [reflexivity|]. right. eexists.
  cbn [Recorder.assigned Recorder.appended Recorder.learning
       Recorder.speechCountRef Recorder.finalRef Recorder.patientName
       Recorder.streamRef Recorder.isProcessingRef].
  repeat (split; [reflexivity|]).
  destruct (Recorder.streamRef st), (Recorder.isProcessingRef st); simpl; auto.
Qed.

Lemma Recorder_run_cons (approx : float -> float) (language : Language)
      (s : Recorder.Session) (a : Recorder.Action)
      (actions : list Recorder.Action) :
  Recorder.run approx language s (a :: actions) =
  (fst (Recorder.run approx language
          (fst (Recorder.step approx language s a)) actions),
   snd (Recorder.step approx language s a)
   :: snd (Recorder.run approx language
             (fst (Recorder.step approx language s a)) actions)).
Proof.
  cbn [Recorder.run].
  destruct (Recorder.step approx language s a) as [s1 o]. cbn [fst snd].
  destruct (Recorder.run approx language s1 actions) as [s2 os].
  reflexivity.
Qed.

(** One action that is not a reset: the label it assigns, if any, is the one
    the counter gives, and the counter moves with it. *)
Lemma Recorder_step_count (approx : float -> float) (language : Language)
      (s : Recorder.Session) (a : Recorder.Action) :
  noReset a = true ->
  (Recorder.assigned (snd (Recorder.step approx language s a)) = None /\
   Recorder.speechCountRef
     (Recorder.component (fst (Recorder.step approx language s a)))
   = Recorder.speechCountRef (Recorder.component s)) \/
  (Recorder.assigned (snd (Recorder.step approx language s a))
   = Some (alternation (Recorder.speechCountRef (Recorder.component s))) /\
   Recorder.speechCountRef
     (Recorder.component (fst (Recorder.step approx language s a)))
   = Recorder.speechCountRef (Recorder.component s) + 1).
Proof.
  destruct a as [microphone| | |event|captured]; intros Ha;
    try discriminate Ha; cbn [Recorder.step].
  - destruct microphone; left; auto.
  - left; auto.
  - destruct (Recorder_onresult_cases language (Recorder.component s) event)
      as (st' & o & -> & [(-> & Ha' & _)|(line & Ha' & _ & _ & Hc & _)]);
      cbn [fst snd Recorder.component]; auto.
  - destruct (Recorder.inFlight s); left; auto.
Qed.

(** X12: over any actions of the microphone recorder other than a reset
    (starts, stops, recognition events of any content, background tasks
    ending), the labels assigned are, in order, those the alternation rule
    gives to consecutive indices from the counter's value on, and the counter
    advances by the number of labels assigned. *)
Theorem X12_recorder_labels_follow_counter
        (approx : float -> float) (language : Language)
        (actions : list Recorder.Action) (s : Recorder.Session) :
  forallb noReset actions = true ->
  Recorder.labels (snd (Recorder.run approx language s actions))
  = map alternation
        (seq (Recorder.speechCountRef (Recorder.component s))
             (length (Recorder.labels
                        (snd (Recorder.run approx language s actions))))) /\
  Recorder.speechCountRef
    (Recorder.component (fst (Recorder.run approx language s actions)))
  = Recorder.speechCountRef (Recorder.component s)
    + length (Recorder.labels (snd (Recorder.run approx language s actions))).
Proof.
  revert s. induction actions as [|a actions IH]; intros s Hk.
  - simpl. split; [reflexivity | lia].
  - simpl in Hk. apply andb_true_iff in Hk. destruct Hk as [Ha Hk].
    rewrite Recorder_run_cons. cbn [fst snd].
    specialize (IH (fst (Recorder.step approx language s a)) Hk).
    destruct IH as [IH1 IH2].
    unfold Recorder.labels in *. cbn [flat_map].
    destruct (Recorder_step_count approx language s a Ha) as [[E Hc]|[E Hc]];
      rewrite E; rewrite Hc in IH1, IH2; cbn [app length].
    + split; assumption.
    + split.
      * cbn [seq map]. rewrite Nat.add_1_r in IH1. rewrite <- IH1.
        reflexivity.
      * rewrite IH2. lia.
Qed.

(** One action that leaves the buffer to the handler appends its line, if
    any, and nothing else; the patient's name stays. *)
Lemma Recorder_step_appends (approx : float -> float) (language : Language)
      (s : Recorder.Session) (a : Recorder.Action) :
  keepsTranscript a = true ->
  Recorder.finalRef
    (Recorder.component (fst (Recorder.step approx language s a)))
  = Recorder.finalRef (Recorder.component s)
    ++ appendedText [snd (Recorder.step approx language s a)].
Proof.
  unfold appendedText. cbn [flat_map]. rewrite app_nil_r.
  destruct a as [microphone| | |event|captured]; intros Ha;
    try discriminate Ha; cbn [Recorder.step].
  - destruct microphone; [discriminate Ha|]. simpl. rewrite app_nil_r.
    reflexivity.
  - simpl. rewrite app_nil_r. reflexivity.
  - destruct (Recorder_onresult_cases language (Recorder.component s) event)
      as (st' & o & -> & [(-> & _ & Hp & _)
                         |(line & _ & Hp & _ & _ & Hf & _)]);
      cbn [fst snd Recorder.component]; rewrite Hp.
    + rewrite app_nil_r. reflexivity.
    + exact Hf.
  - destruct (Recorder.inFlight s); simpl; rewrite app_nil_r; reflexivity.
Qed.

(** X13: over any actions of the microphone recorder other than a reset or
    a successful start, the finalized buffer only grows: it ends as what it
    was followed by the lines the handler appended, in order. *)
Theorem X13_recorder_buffer_appends
        (approx : float -> float) (language : Language)
        (actions : list Recorder.Action) (s : Recorder.Session) :
  forallb keepsTranscript actions = true ->
  Recorder.finalRef
    (Recorder.component (fst (Recorder.run approx language s actions)))
  = Recorder.finalRef (Recorder.component s)
    ++ appendedText (snd (Recorder.run approx language s actions)).
Proof.
  revert s. induction actions as [|a actions IH]; intros s Hk.
  - simpl. rewrite app_nil_r. reflexivity.
  - simpl in Hk. apply andb_true_iff in Hk. destruct Hk as [Ha Hk].
    rewrite Recorder_run_cons. cbn [fst snd].
    rewrite (IH _ Hk), (Recorder_step_appends approx language s a Ha).
    unfold appendedText. cbn [flat_map].
    rewrite app_nil_r, <- app_assoc. reflexivity.
Qed.

(** No background task is running, or exactly one is and the flag is set. *)
Let guarded (s : Recorder.Session) : Prop :=
  (Recorder.isProcessingRef (Recorder.component s) = false /\
   Recorder.inFlight s = []) \/
  (Recorder.isProcessingRef (Recorder.component s) = true /\
   exists knownSpeaker, Recorder.inFlight s = [knownSpeaker]).

Lemma Recorder_step_guarded (approx : float -> float) (language : Language)
      (s : Recorder.Session) (a : Recorder.Action) :
  noStop a = true -> guarded s ->
  guarded (fst (Recorder.step approx language s a)).
Proof.
  destruct a as [microphone| | |event|captured]; intros Ha Hg;
    try discriminate Ha; cbn [Recorder.step].
  - destruct microphone; exact Hg.
  - destruct (Recorder_onresult_cases language (Recorder.component s) event)
      as (st' & o & -> & [(-> & _ & _ & Hl)
                         |(line & _ & _ & _ & _ & _ & _ & _ & Hl)]);
      unfold guarded in *; cbn [fst Recorder.component Recorder.inFlight].
    + rewrite Hl, app_nil_r. exact Hg.
    + destruct Hl as [[Hl Hp]|(Hl & Hp0 & Hp1)]; rewrite Hl.
      * rewrite Hp, app_nil_r. exact Hg.
      * right. split; [exact Hp1|].
        destruct Hg as [[_ ->]|[Hp _]]; [eexists; reflexivity | congruence].
  - destruct Hg as [[Hp Hq]|[Hp [k Hq]]]; rewrite Hq.
    + left. auto.
    + left. auto.
Qed.

(** X14: as long as the recorder is neither stopped nor reset, background
    learning tasks never overlap: starting with none running, after any such
    actions at most one is in flight, and [isProcessingRef] is set exactly
    when one is. *)
Theorem X14_background_tasks_never_overlap
        (approx : float -> float) (language : Language)
        (actions : list Recorder.Action) (s : Recorder.Session) :
  forallb noStop actions = true ->
  Recorder.isProcessingRef (Recorder.component s) = false ->
  Recorder.inFlight s = [] ->
  length (Recorder.inFlight (fst (Recorder.run approx language s actions)))
  <= 1 /\
  (Recorder.isProcessingRef
     (Recorder.component (fst (Recorder.run approx language s actions)))
   = true <->
   Recorder.inFlight (fst (Recorder.run approx language s actions)) <> []).
Proof.
  intros Hk Hp Hq.
  assert (Hg : guarded (fst (Recorder.run approx language s actions))).
  { assert (H0 : guarded s) by (left; auto). clear Hp Hq.
    revert s H0. induction actions as [|a actions IH]; intros s H0;
      [exact H0|].
    simpl in Hk. apply andb_true_iff in Hk. destruct Hk as [Ha Hk].
    rewrite Recorder_run_cons. cbn [fst].
    apply (IH Hk). apply Recorder_step_guarded; assumption. }
  destruct Hg as [[E1 E2]|[E1 [k E2]]]; rewrite E1, E2; simpl.
  - split; [lia|]. split; [discriminate | congruence].
  - split; [lia|]. split; [discriminate | reflexivity].
Qed.

End LabelerRuns.

Section RecorderTeaches.
Import JS Speech Stated Observed VoiceHook VoiceAI.

Lemma learnUpdate_keys (label : SpeakerType) (f : Features)
      (m : ProfileMap) (k : SpeakerType) :
  In k (map fst (learnUpdate label f m)) -> k = label \/ In k (map fst m).
Proof.
  unfold learnUpdate.
  destruct (Map_get m label) eqn:E; rewrite Map_set_keys, E; [auto|].
  rewrite in_app_iff. simpl. intuition.
Qed.

Lemma alternation_known (i : nat) : alternation i <> auto.
Proof. unfold alternation. destruct (Nat.even i); discriminate. Qed.

(** The speakers waiting to be learnt and the labels filed are never
    ["auto"], and the store is well formed. *)
Let taught (s : Recorder.Session) : Prop :=
  Forall (fun k => k <> auto) (Recorder.inFlight s) /\
  Forall (fun k => k <> auto) (map fst (voiceProfiles (Recorder.voice s))) /\
  wellFormed (voiceProfiles (Recorder.voice s)).

Lemma Recorder_step_taught (approx : float -> float) (language : Language)
      (s : Recorder.Session) (a : Recorder.Action) :
  taught s -> taught (fst (Recorder.step approx language s a)).
Proof.
  intros (Hq & Hk & Hw).
  destruct a as [microphone| | |event|captured]; cbn [Recorder.step].
  - destruct microphone; unfold taught; simpl;
      (split; [|split]); assumption.
  - unfold taught; simpl; split; [|split]; assumption.
  - unfold taught; simpl; split; [|split]; assumption.
  - destruct (Recorder_onresult_cases language (Recorder.component s) event)
      as (st' & o & -> & [(-> & _ & _ & Hl)
                         |(line & _ & _ & _ & _ & _ & _ & _ & Hl)]);
      unfold taught; cbn [fst Recorder.voice Recorder.inFlight].
    + rewrite Hl, app_nil_r. split; [|split]; assumption.
    + destruct Hl as [[Hl _]|(Hl & _)]; rewrite Hl.
      * rewrite app_nil_r. split; [|split]; assumption.
      * split; [|split; assumption].
        apply Forall_app. split; [exact Hq|].
        constructor; [apply alternation_known | constructor].
  - destruct (Recorder.inFlight s) as [|knownSpeaker rest] eqn:E;
      [unfold taught; cbn [fst]; rewrite E; split; [|split]; assumption|].
    inversion Hq as [|? ? Hn Hrest]; subst.
    unfold taught; cbn [fst Recorder.voice Recorder.inFlight].
    split; [exact Hrest|].
    destruct captured as [c|]; [|split; assumption].
    destruct (learnVoice_cases approx (Recorder.voice s)
                (Recorder.audioContext c) (Recorder.decoded c) knownSpeaker)
      as [->|(audio & f & _ & _ & ->)]; [split; assumption|].
    cbn [voiceProfiles]. split; [|apply learnUpdate_wellFormed; exact Hw].
    rewrite Forall_forall in *. intros k Hin.
    destruct (learnUpdate_keys _ _ _ _ Hin) as [->|Hin']; auto.
Qed.

(** X15: whatever happens to the microphone recorder, the voice hook it
    feeds is taught under "doctor" and "patient" only, the labels the
    alternation assigns: no profile is ever filed under "auto", the store is
    well formed and holds at most two profiles. *)
Theorem X15_recorder_teaches_two_labels
        (approx : float -> float) (language : Language)
        (actions : list Recorder.Action) :
  Map_get (voiceProfiles
             (Recorder.voice
                (fst (Recorder.run approx language Recorder.initialSession
                                   actions)))) auto = None /\
  wellFormed (voiceProfiles
                (Recorder.voice
                   (fst (Recorder.run approx language Recorder.initialSession
                                      actions)))) /\
  totalProfiles
    (getStats (Recorder.voice
                 (fst (Recorder.run approx language Recorder.initialSession
                                    actions)))) <= 2.
Proof.
  assert (H : taught (fst (Recorder.run approx language
                             Recorder.initialSession actions))).
  { assert (H0 : taught Recorder.initialSession)
      by (repeat split; constructor).
    revert H0. generalize Recorder.initialSession.
    induction actions as [|a actions IH]; intros s H0; [exact H0|].
    rewrite Recorder_run_cons. cbn [fst].
    apply IH. apply Recorder_step_taught. exact H0. }
  destruct H as (_ & Hk & Hw).
  set (m := voiceProfiles _) in *.
  split; [|split; [exact Hw|]].
  - destruct (Map_get m auto) as [p|] eqn:E; [|reflexivity].
    apply Map_get_In in E. rewrite Forall_forall in Hk.
    exfalso. apply (Hk auto); [|reflexivity].
    apply in_map_iff. exists (auto, p). auto.
  - cbn [getStats totalProfiles]. fold m. unfold Map_size.
    rewrite <- (length_map fst).
    apply (NoDup_incl_length (proj1 Hw) (l' := [doctor; patient])).
    intros k Hin. rewrite Forall_forall in Hk. specialize (Hk k Hin).
    destruct k; simpl; auto; congruence.
Qed.

End RecorderTeaches.

Section CaptureRuns.
Import JS Speech Stated Observed.
Import VoiceAI(SpeakerType, doctor, patient, auto).

Lemma VideoCall_onresult_cases (language : Language) (patientName : jsstring)
      (st : VideoCallCapture.State) (event : Event) :
  exists st' o,
    VideoCallCapture.onresult language patientName st event = (st', o) /\
    ((st' = st /\ VideoCallCapture.assigned o = None /\
      VideoCallCapture.appended o = None) \/
     (exists line,
        VideoCallCapture.assigned o
        = Some (alternation (VideoCallCapture.speechCountRef st)) /\
        VideoCallCapture.appended o = Some line /\
        line = VideoCallCapture.getSpeakerPrefix
                 (alternation (VideoCallCapture.speechCountRef st))
                 patientName language
               ++ trim (finalText event) ++ [10%N] /\
        VideoCallCapture.speechCountRef st'
        = VideoCallCapture.speechCountRef st + 1 /\
        VideoCallCapture.finalTranscriptRef st'
        = VideoCallCapture.finalTranscriptRef st ++ line /\
        VideoCallCapture.status st' = VideoCallCapture.status st)).
Proof.
  unfold finalText, VideoCallCapture.onresult.
  destruct (transcriptsOf event) as [interim final]. cbn [fst snd].
  destruct (truthy final).
  - destruct (str_eqb (trim final) (VideoCallCapture.lastTranscriptRef st));
      [do 2 eexists; split; [reflexivity|]; left; auto|].
    rewrite parity_label.
    do 2 eexists. split; [reflexivity|]. right. eexists.
    repeat (split; [reflexivity|]). reflexivity.
  - destruct (truthy interim); do 2 eexists; (split; [reflexivity|]);
      left; auto.
Qed.

Lemma VideoCall_run_cons (language : Language) (patientName : jsstring)
      (st : VideoCallCapture.State) (a : VideoCallCapture.Action)
      (actions : list VideoCallCapture.Action) :
  VideoCallCapture.run language patientName st (a :: actions) =
  (fst (VideoCallCapture.run language patientName
          (fst (VideoCallCapture.step language patientName st a)) actions),
   snd (VideoCallCapture.step language patientName st a)
   :: snd (VideoCallCapture.run language patientName
             (fst (VideoCallCapture.step language patientName st a))
             actions)).
Proof.
  cbn [VideoCallCapture.run].
  destruct (VideoCallCapture.step language patientName st a) as [s1 o].
  cbn [fst snd].
  destruct (VideoCallCapture.run language patientName s1 actions)
    as [s2 os].
  reflexivity.
Qed.

Lemma VideoCall_step_cases (language : Language) (patientName : jsstring)
      (st : VideoCallCapture.State) (a : VideoCallCapture.Action) :
  keepsCapture a = true ->
  (VideoCallCapture.assigned
     (snd (VideoCallCapture.step language patientName st a)) = None /\
   VideoCallCapture.appended
     (snd (VideoCallCapture.step language patientName st a)) = None /\
   VideoCallCapture.speechCountRef
     (fst (VideoCallCapture.step language patientName st a))
   = VideoCallCapture.speechCountRef st /\
   VideoCallCapture.finalTranscriptRef
     (fst (VideoCallCapture.step language patientName st a))
   = VideoCallCapture.finalTranscriptRef st) \/
  (exists line,
     VideoCallCapture.assigned
       (snd (VideoCallCapture.step language patientName st a))
     = Some (alternation (VideoCallCapture.speechCountRef st)) /\
     VideoCallCapture.appended
       (snd (VideoCallCapture.step language patientName st a)) = Some line /\
     VideoCallCapture.speechCountRef
       (fst (VideoCallCapture.step language patientName st a))
     = VideoCallCapture.speechCountRef st + 1 /\
     VideoCallCapture.finalTranscriptRef
       (fst (VideoCallCapture.step language patientName st a))
     = VideoCallCapture.finalTranscriptRef st ++ line).
Proof.
  destruct a as [c| | |event]; intros Ha; try discriminate Ha;
    cbn [VideoCallCapture.step].
  - destruct c; try discriminate Ha; left; auto.
  - left. simpl. auto.
  - destruct (VideoCall_onresult_cases language patientName st event)
      as (st' & o & -> & [(-> & Ha' & Hp)
                         |(line & Ha' & Hp & _ & Hc & Hf & _)]);
      cbn [fst snd]; [left; auto | right; exists line; auto].
Qed.

(** X16: over any actions of the video-call capture that do not clear its
    refs (recognition events of any content, stops, starts that fail before
    the refs are cleared), the labels assigned follow the alternation rule
    from the counter's value on, the counter advances by their number, and
    the finalized transcript ends as what it was followed by the lines
    appended. *)
Theorem X16_capture_labels_and_buffer
        (language : Language) (patientName : jsstring)
        (actions : list VideoCallCapture.Action)
        (st : VideoCallCapture.State) :
  forallb keepsCapture actions = true ->
  VideoCallCapture.labels
    (snd (VideoCallCapture.run language patientName st actions))
  = map alternation
        (seq (VideoCallCapture.speechCountRef st)
             (length (VideoCallCapture.labels
                        (snd (VideoCallCapture.run language patientName st
                                                   actions))))) /\
  VideoCallCapture.speechCountRef
    (fst (VideoCallCapture.run language patientName st actions))
  = VideoCallCapture.speechCountRef st
    + length (VideoCallCapture.labels
                (snd (VideoCallCapture.run language patientName st
                                           actions))) /\
  VideoCallCapture.finalTranscriptRef
    (fst (VideoCallCapture.run language patientName st actions))
  = VideoCallCapture.finalTranscriptRef st
    ++ appendedCapture
         (snd (VideoCallCapture.run language patientName st actions)).
Proof.
  revert st. induction actions as [|a actions IH]; intros st Hk.
  - simpl. rewrite app_nil_r. repeat split. lia.
  - simpl in Hk. apply andb_true_iff in Hk. destruct Hk as [Ha Hk].
    rewrite VideoCall_run_cons. cbn [fst snd].
    specialize (IH (fst (VideoCallCapture.step language patientName st a))
                   Hk).
    destruct IH as (IH1 & IH2 & IH3).
    unfold VideoCallCapture.labels, appendedCapture in *. cbn [flat_map].
    destruct (VideoCall_step_cases language patientName st a Ha)
      as [(E & Ep & Hc & Hf)|(line & E & Ep & Hc & Hf)];
      rewrite E, Ep; rewrite Hc in IH1, IH2; rewrite Hf in IH3;
      cbn [app length].
    + repeat split; assumption.
    + split; [|split].
      * cbn [seq map]. rewrite Nat.add_1_r in IH1. rewrite <- IH1.
        reflexivity.
      * rewrite IH2. lia.
      * rewrite IH3, <- app_assoc. reflexivity.
Qed.

End CaptureRuns.

Section CaptureRestart.
Import JS Speech CaptureLifecycle.

(** Without a recognizer a start never reaches the recording state. *)
Lemma step_without_recognizer (supported : bool) (language : Language)
      (patientName : jsstring) (s : State) (a : Action) :
  noEffect a = true ->
  recognitionRef s = false ->
  VideoCallCapture.status (capture s) <> VideoCallCapture.recording ->
  recognitionRef (step supported language patientName s a) = false /\
  VideoCallCapture.status
    (capture (step supported language patientName s a))
  <> VideoCallCapture.recording.
Proof.
  intros Ha Hr Hs.
  destruct a as [|d| | |event]; try discriminate Ha; cbn [step].
  - cbn [recognitionRef capture]. split; [exact Hr|].
    rewrite Hr. destruct d as [| |started]; simpl; discriminate.
  - split; [reflexivity|]. simpl. discriminate.
  - split; [reflexivity|]. simpl. discriminate.
  - cbn [recognitionRef capture]. split; [exact Hr|].
    destruct (VideoCall_onresult_cases language patientName (capture s) event)
      as (st' & o & -> & [(-> & _)|(line & _ & _ & _ & _ & _ & E)]);
      cbn [fst]; [exact Hs | rewrite E; exact Hs].
Qed.

(** X17: once the capture has been stopped or reset, no later start reaches
    the recording state until the effect that creates the recognizer runs
    again: [cleanup] empties [recognitionRef], and [startCapture] then gives
    up, whatever the user shares. *)
Theorem X17_capture_cannot_restart
        (supported : bool) (language : Language) (patientName : jsstring)
        (s : State) (a : Action) (actions : list Action) :
  ends a = true ->
  forallb noEffect actions = true ->
  VideoCallCapture.status
    (capture (run supported language patientName s (a :: actions)))
  <> VideoCallCapture.recording /\
  recognitionRef (run supported language patientName s (a :: actions))
  = false.
Proof.
  intros Ha Hk.
  change (run supported language patientName s (a :: actions))
    with (run supported language patientName
              (step supported language patientName s a) actions).
  assert (H0 : recognitionRef (step supported language patientName s a)
               = false /\
               VideoCallCapture.status
                 (capture (step supported language patientName s a))
               <> VideoCallCapture.recording).
  { destruct a; try discriminate Ha; simpl; split;
      try reflexivity; discriminate. }
  revert H0. generalize (step supported language patientName s a).
  clear s a Ha.
  induction actions as [|a actions IH]; intros s [Hr Hs]; [auto|].
  simpl in Hk. apply andb_true_iff in Hk. destruct Hk as [Ha Hk].
  change (run supported language patientName s (a :: actions))
    with (run supported language patientName
              (step supported language patientName s a) actions).
  apply (IH Hk). apply step_without_recognizer; assumption.
Qed.

End CaptureRestart.

Section LabelerRunWitnesses.
Import JS Speech Stated Observed Samples.
Import VoiceAI(SpeakerType, doctor, patient, auto).

(** A consultation recorded in two takes: the second take goes on with the
    label the first one stopped at. *)
Lemma X12_recorder_labels_follow_counter_witness :
  Recorder.labels
    (snd (Recorder.run log10_stub en Recorder.initialSession
            [ Recorder.Start true;
              Recorder.Result (finalEvent (utf16 "good morning"));
              Recorder.Stop;
              Recorder.Start true;
              Recorder.Result (finalEvent (utf16 "good morning"));
              Recorder.Result (finalEvent (utf16 "I have a fever")) ]))
  = map alternation
        (seq 0
             (length
                (Recorder.labels
                   (snd (Recorder.run log10_stub en Recorder.initialSession
                           [ Recorder.Start true;
                             Recorder.Result
                               (finalEvent (utf16 "good morning"));
                             Recorder.Stop;
                             Recorder.Start true;
                             Recorder.Result
                               (finalEvent (utf16 "good morning"));
                             Recorder.Result
                               (finalEvent (utf16 "I have a fever")) ]))))) /\
  Recorder.speechCountRef
    (Recorder.component
       (fst (Recorder.run log10_stub en Recorder.initialSession
               [ Recorder.Start true;
                 Recorder.Result (finalEvent (utf16 "good morning"));
                 Recorder.Stop;
                 Recorder.Start true;
                 Recorder.Result (finalEvent (utf16 "good morning"));
                 Recorder.Result (finalEvent (utf16 "I have a fever")) ])))
  = 0 + length
          (Recorder.labels
             (snd (Recorder.run log10_stub en Recorder.initialSession
                     [ Recorder.Start true;
                       Recorder.Result (finalEvent (utf16 "good morning"));
                       Recorder.Stop;
                       Recorder.Start true;
                       Recorder.Result (finalEvent (utf16 "good morning"));
                       Recorder.Result
                         (finalEvent (utf16 "I have a fever")) ]))).
Proof.
  apply (X12_recorder_labels_follow_counter log10_stub en
           [ Recorder.Start true;
             Recorder.Result (finalEvent (utf16 "good morning"));
             Recorder.Stop;
             Recorder.Start true;
             Recorder.Result (finalEvent (utf16 "good morning"));
             Recorder.Result (finalEvent (utf16 "I have a fever")) ]
           Recorder.initialSession).
  reflexivity.
Defined.

Lemma X13_recorder_buffer_appends_witness :
  Recorder.finalRef
    (Recorder.component
       (fst (Recorder.run log10_stub en Recorder.initialSession
               [ Recorder.Start true;
                 Recorder.Result (finalEvent (utf16 "good morning"));
                 Recorder.Stop;
                 Recorder.Result (finalEvent (utf16 "I have a fever")) ])))
  = Recorder.finalRef (Recorder.component Recorder.initialSession)
    ++ appendedText
         (snd (Recorder.run log10_stub en
                 (fst (Recorder.step log10_stub en Recorder.initialSession
                         (Recorder.Start true)))
                 [ Recorder.Result (finalEvent (utf16 "good morning"));
                   Recorder.Stop;
                   Recorder.Result (finalEvent (utf16 "I have a fever")) ])).
Proof.
  apply (X13_recorder_buffer_appends log10_stub en
           [ Recorder.Result (finalEvent (utf16 "good morning"));
             Recorder.Stop;
             Recorder.Result (finalEvent (utf16 "I have a fever")) ]
           (fst (Recorder.step log10_stub en Recorder.initialSession
                   (Recorder.Start true)))).
  reflexivity.
Defined.

Lemma X14_background_tasks_never_overlap_witness :
  length
    (Recorder.inFlight
       (fst (Recorder.run log10_stub en Recorder.initialSession
               [ Recorder.Start true;
                 Recorder.Result (finalEvent (utf16 "good morning"));
                 Recorder.Result (finalEvent (utf16 "I have a fever"));
                 Recorder.BackgroundDone None;
                 Recorder.Result (finalEvent (utf16 "since when")) ])))
  <= 1 /\
  (Recorder.isProcessingRef
     (Recorder.component
        (fst (Recorder.run log10_stub en Recorder.initialSession
                [ Recorder.Start true;
                  Recorder.Result (finalEvent (utf16 "good morning"));
                  Recorder.Result (finalEvent (utf16 "I have a fever"));
                  Recorder.BackgroundDone None;
                  Recorder.Result (finalEvent (utf16 "since when")) ])))
   = true <->
   Recorder.inFlight
     (fst (Recorder.run log10_stub en Recorder.initialSession
             [ Recorder.Start true;
               Recorder.Result (finalEvent (utf16 "good morning"));
               Recorder.Result (finalEvent (utf16 "I have a fever"));
               Recorder.BackgroundDone None;
               Recorder.Result (finalEvent (utf16 "since when")) ]))
   <> []).
Proof.
  apply (X14_background_tasks_never_overlap log10_stub en
           [ Recorder.Start true;
             Recorder.Result (finalEvent (utf16 "good morning"));
             Recorder.Result (finalEvent (utf16 "I have a fever"));
             Recorder.BackgroundDone None;
             Recorder.Result (finalEvent (utf16 "since when")) ]
           Recorder.initialSession);
    reflexivity.
Defined.

(** Stopping clears the flag while a task may still be running: after a
    stop and a new start two tasks are in flight. *)
Example Recorder_stop_lets_tasks_overlap :
  Recorder.inFlight
    (fst (Recorder.run log10_stub en Recorder.initialSession
            [ Recorder.Start true;
              Recorder.Result (finalEvent (utf16 "good morning"));
              Recorder.Stop;
              Recorder.Start true;
              Recorder.Result (finalEvent (utf16 "I have a fever")) ]))
  = [doctor; patient].
Proof. reflexivity. Qed.

Lemma X16_capture_labels_and_buffer_witness :
  VideoCallCapture.labels
    (snd (VideoCallCapture.run en (utf16 "Ana")
            (VideoCallCapture.startCapture VideoCallCapture.Capturing
               VideoCallCapture.initialState)
            [ VideoCallCapture.Result (finalEvent (utf16 "good morning"));
              VideoCallCapture.Result (interimEvent (utf16 "I ha"));
              VideoCallCapture.Result (finalEvent (utf16 "I have a fever"));
              VideoCallCapture.StopCapture ]))
  = [doctor; patient] /\
  VideoCallCapture.speechCountRef
    (fst (VideoCallCapture.run en (utf16 "Ana")
            (VideoCallCapture.startCapture VideoCallCapture.Capturing
               VideoCallCapture.initialState)
            [ VideoCallCapture.Result (finalEvent (utf16 "good morning"));
              VideoCallCapture.Result (interimEvent (utf16 "I ha"));
              VideoCallCapture.Result (finalEvent (utf16 "I have a fever"));
              VideoCallCapture.StopCapture ]))
  = 2 /\
  VideoCallCapture.finalTranscriptRef
    (fst (VideoCallCapture.run en (utf16 "Ana")
            (VideoCallCapture.startCapture VideoCallCapture.Capturing
               VideoCallCapture.initialState)
            [ VideoCallCapture.Result (finalEvent (utf16 "good morning"));
              VideoCallCapture.Result (interimEvent (utf16 "I ha"));
              VideoCallCapture.Result (finalEvent (utf16 "I have a fever"));
              VideoCallCapture.StopCapture ]))
  = utf16 "Doctor: good morning" ++ [10%N]
    ++ utf16 "Ana: I have a fever" ++ [10%N].
Proof.
  apply (X16_capture_labels_and_buffer en (utf16 "Ana")
           [ VideoCallCapture.Result (finalEvent (utf16 "good morning"));
             VideoCallCapture.Result (interimEvent (utf16 "I ha"));
             VideoCallCapture.Result (finalEvent (utf16 "I have a fever"));
             VideoCallCapture.StopCapture ]
           (VideoCallCapture.startCapture VideoCallCapture.Capturing
              VideoCallCapture.initialState)).
  reflexivity.
Defined.

(** A capture that started, was stopped, and is started again. *)
Lemma X17_capture_cannot_restart_witness :
  VideoCallCapture.status
    (CaptureLifecycle.capture
       (CaptureLifecycle.run true en []
          (CaptureLifecycle.step true en [] (CaptureLifecycle.mounted true)
             (CaptureLifecycle.StartCapture
                (CaptureLifecycle.WithAudio true)))
          [ CaptureLifecycle.StopCapture;
            CaptureLifecycle.StartCapture
              (CaptureLifecycle.WithAudio true) ]))
  <> VideoCallCapture.recording /\
  CaptureLifecycle.recognitionRef
    (CaptureLifecycle.run true en []
       (CaptureLifecycle.step true en [] (CaptureLifecycle.mounted true)
          (CaptureLifecycle.StartCapture (CaptureLifecycle.WithAudio true)))
       [ CaptureLifecycle.StopCapture;
         CaptureLifecycle.StartCapture (CaptureLifecycle.WithAudio true) ])
  = false.
Proof.
  apply (X17_capture_cannot_restart true en []
           (CaptureLifecycle.step true en [] (CaptureLifecycle.mounted true)
              (CaptureLifecycle.StartCapture
                 (CaptureLifecycle.WithAudio true)))
           CaptureLifecycle.StopCapture
           [ CaptureLifecycle.StartCapture
               (CaptureLifecycle.WithAudio true) ]);
    reflexivity.
Defined.

(** The first start of a mounted capture does reach the recording state. *)
Example capture_starts_once :
  VideoCallCapture.status
    (CaptureLifecycle.capture
       (CaptureLifecycle.step true en [] (CaptureLifecycle.mounted true)
          (CaptureLifecycle.StartCapture (CaptureLifecycle.WithAudio true))))
  = VideoCallCapture.recording.
Proof. reflexivity. Qed.

End LabelerRunWitnesses.

(* ================================================================== *)
(** * The history over several saves                                  *)
(* ================================================================== *)

Section HistoryRuns.
Import JS JSON History Observed.

Variable JSON_parse : jsstring -> completion value.
Variable JSON_stringify : value -> jsstring.

Lemma roundTrips_app (l1 l2 : list value) :
  roundTrips JSON_parse JSON_stringify (l1 ++ l2) ->
  roundTrips JSON_parse JSON_stringify l2.
Proof.
  induction l1 as [|x l1 IH]; [auto|]. intros (_ & _ & H). apply IH. exact H.
Qed.

Lemma saveAll_newest_first (items : list value) :
  forall (acc : list value) (w : Browser),
  loadHistory JSON_parse w = Normal (JArray acc) ->
  roundTrips JSON_parse JSON_stringify (rev items ++ acc) ->
  exists w',
    saveAll JSON_parse JSON_stringify items w = Normal w' /\
    loadHistory JSON_parse w' = Normal (JArray (rev items ++ acc)) /\
    dispatched w' = dispatched w + length items.
Proof.
  induction items as [|item items IH]; intros acc w Hload Hrt.
  - exists w. simpl. repeat split; [exact Hload | lia].
  - cbn [rev] in *. rewrite <- app_assoc in *. cbn [app] in *.
    pose proof (roundTrips_app _ _ Hrt) as (Ht & Hp & _).
    cbn [saveAll].
    rewrite (saveHistoryItem_array JSON_parse JSON_stringify w item acc Hload).
    cbn [bind].
    match goal with
    | |- context [saveAll _ _ items ?w1] =>
        destruct (IH (item :: acc) w1) as (w' & Hs & Hl & Hd);
          [eapply loadHistory_stored; [reflexivity | exact Ht | exact Hp]
          | exact Hrt |]
    end.
    exists w'. split; [exact Hs|]. split; [exact Hl|].
    rewrite Hd. cbn [dispatched length]. lia.
Qed.

(** X18: saving items one after the other into a history without an entry
    (never written, or cleared) leaves them newest first and dispatches one
    ['history-updated'] event per save, provided the arrays written survive
    [JSON.stringify] and [JSON.parse]. *)
Theorem X18_saves_newest_first (items : list value) (w : Browser) :
  JSON_parse (utf16 "[]") = Normal (JArray []) ->
  stored w = None ->
  roundTrips JSON_parse JSON_stringify (rev items) ->
  exists w',
    saveAll JSON_parse JSON_stringify items w = Normal w' /\
    loadHistory JSON_parse w' = Normal (JArray (rev items)) /\
    dispatched w' = dispatched w + length items.
Proof.
  intros Hempty Hs Hrt.
  destruct (saveAll_newest_first items [] w) as (w' & H1 & H2 & H3).
  - unfold loadHistory, getItemOrEmpty. rewrite Hs, Hempty. reflexivity.
  - rewrite app_nil_r. exact Hrt.
  - rewrite app_nil_r in H2. eauto.
Qed.

(** X19: a save over an entry that is not JSON replaces it by the array of
    the new item alone, so the earlier history is lost without an error;
    a save over an entry that is JSON but not an array throws, and then
    nothing is written and no event is dispatched. *)
Theorem X19_save_over_foreign_entry (item : value) (w : Browser)
        (s : jsstring) :
  stored w = Some s ->
  truthy s = true ->
  (forall e, JSON_parse s = Throw e ->
     saveHistoryItem JSON_parse JSON_stringify item w =
     Normal {| stored := Some (JSON_stringify (JArray [item]));
               dispatched := dispatched w + 1 |}) /\
  (forall v, JSON_parse s = Normal v ->
     (forall items, v <> JArray items) ->
     exists e, saveHistoryItem JSON_parse JSON_stringify item w = Throw e).
Proof.
  intros Hs Ht. split.
  - intros e He. unfold saveHistoryItem, loadHistory, getItemOrEmpty, or_else.
    rewrite Hs, Ht, He. reflexivity.
  - intros v Hv Hna.
    unfold saveHistoryItem.
    rewrite (loadHistory_stored JSON_parse w s v Hs Ht Hv). cbn [bind].
    destruct v; simpl; eauto. exfalso. eapply Hna. reflexivity.
Qed.

End HistoryRuns.

Section HistoryRunWitnesses.
Import JS JSON History Observed Samples.

Lemma X18_saves_newest_first_witness :
  exists w',
    saveAll MiniJSON.parse MiniJSON.stringify [olderItem; fluDiagnosis]
            (clearHistory visited) = Normal w' /\
    loadHistory MiniJSON.parse w'
    = Normal (JArray (rev [olderItem; fluDiagnosis])) /\
    dispatched w' = dispatched (clearHistory visited) + 2.
Proof.
  apply (X18_saves_newest_first MiniJSON.parse MiniJSON.stringify
           [olderItem; fluDiagnosis] (clearHistory visited)).
  - vm_compute. reflexivity.
  - reflexivity.
  - vm_compute. repeat split.
Defined.

Lemma X19_save_over_foreign_entry_witness :
  (forall e, MiniJSON.parse (utf16 "{not json") = Throw e ->
     saveHistoryItem MiniJSON.parse MiniJSON.stringify fluDiagnosis garbled =
     Normal {| stored := Some (MiniJSON.stringify (JArray [fluDiagnosis]));
               dispatched := dispatched garbled + 1 |}) /\
  (forall v, MiniJSON.parse (utf16 "{not json") = Normal v ->
     (forall items, v <> JArray items) ->
     exists e,
       saveHistoryItem MiniJSON.parse MiniJSON.stringify fluDiagnosis garbled
       = Throw e).
Proof.
  apply (X19_save_over_foreign_entry MiniJSON.parse MiniJSON.stringify
           fluDiagnosis garbled (utf16 "{not json"));
    reflexivity.
Defined.

(** The two cases on concrete entries. *)
Example save_over_garbled_entry :
  saveHistoryItem MiniJSON.parse MiniJSON.stringify fluDiagnosis garbled
  = Normal {| stored := Some (MiniJSON.stringify (JArray [fluDiagnosis]));
              dispatched := 1 |}.
Proof. vm_compute. reflexivity. Qed.

Example save_over_object_entry :
  saveHistoryItem MiniJSON.parse MiniJSON.stringify fluDiagnosis
    {| stored := Some (MiniJSON.stringify coldDiagnosis); dispatched := 0 |}
  = Throw "TypeError: arr.unshift is not a function".
Proof. vm_compute. reflexivity. Qed.

End HistoryRunWitnesses.

(* ================================================================== *)
(** * Every way a finalize action can go                              *)
(* ================================================================== *)

Section FinalizeOutcomes.
Import JS JSON Speech Diagnose Observed.

Variable JSON_parse : jsstring -> completion value.
Variable JSON_stringify : value -> jsstring.
Variable props : Props.
Variable env : Env.

(** The world after some more calls. *)
Let called (w : World) (cs : list Call) : World :=
  {| loading := loading w; result := result w; browser := browser w;
     calls := calls w ++ cs |}.

Let save (item : value) (w : World) : completion History.Browser :=
  History.saveHistoryItem JSON_parse JSON_stringify item (browser w).

Lemma saveAndReset_eq (json : value) (w : World) :
  saveAndReset JSON_parse JSON_stringify props env json w =
  match save (historyItem props env json) w with
  | Normal b =>
      (Normal tt,
       {| loading := false; result := Some json; browser := b;
          calls := calls w ++ [ saveHistoryItem (historyItem props env json);
                                onFinalizeComplete ] |})
  | Throw e =>
      (Throw e,
       {| loading := loading w; result := Some json; browser := browser w;
          calls := calls w ++ [saveHistoryItem (historyItem props env json)]
       |})
  end.
Proof.
  unfold save, saveAndReset, persist, bindM, setResult, setLoading, call.
  cbn [loading result browser calls].
  destruct (History.saveHistoryItem JSON_parse JSON_stringify
              (historyItem props env json) (browser w));
    cbn [loading result browser calls]; [|reflexivity].
  rewrite <- app_assoc. reflexivity.
Qed.

Lemma doFallbackRequest_eq (w : World) :
  doFallbackRequest JSON_parse JSON_stringify props env w =
  match response env with
  | Normal json =>
      saveAndReset JSON_parse JSON_stringify props env json
        (called w [diagnose (transcript props) (language props)])
  | Throw e =>
      (Throw e, called w [diagnose (transcript props) (language props)])
  end.
Proof.
  unfold doFallbackRequest, bindM, call, lift, called.
  destruct (response env); reflexivity.
Qed.

Lemma onTimeout_eq (accumulatedData : jsstring) (w : World) :
  onTimeout JSON_parse JSON_stringify props env accumulatedData w =
  if truthy accumulatedData then
    match JSON_parse accumulatedData with
    | Normal parsedResult =>
        match saveAndReset JSON_parse JSON_stringify props env parsedResult
                           (called w [stopStream]) with
        | (Normal _, w1) => (Normal tt, w1)
        | (Throw _, w1) =>
            doFallbackRequest JSON_parse JSON_stringify props env w1
        end
    | Throw _ =>
        doFallbackRequest JSON_parse JSON_stringify props env
                          (called w [stopStream])
    end
  else doFallbackRequest JSON_parse JSON_stringify props env
                         (called w [stopStream]).
Proof.
  unfold onTimeout, bindM, tryM, call, lift, ret, called.
  destruct (truthy accumulatedData); [|reflexivity].
  destruct (JSON_parse accumulatedData) as [r|e]; [|reflexivity].
  destruct (saveAndReset JSON_parse JSON_stringify props env r _)
    as [[[]|e] w1]; reflexivity.
Qed.

Lemma finalize_eq (w : World) :
  finalize JSON_parse JSON_stringify props env w =
  if truthy (trim (transcript props)) then
    match stream env with
    | Normal chunks =>
        onTimeout JSON_parse JSON_stringify props env (concat chunks)
          {| loading := true; result := None; browser := browser w;
             calls := calls w ++ [ onBeforeFinalize;
                                   streamDiagnose (transcript props)
                                                  (language props) ] |}
    | Throw _ =>
        doFallbackRequest JSON_parse JSON_stringify props env
          {| loading := true; result := None; browser := browser w;
             calls := calls w ++ [ onBeforeFinalize;
                                   streamDiagnose (transcript props)
                                                  (language props) ] |}
    end
  else (Normal tt, w).
Proof.
  unfold finalize, onFinalize.
  destruct (truthy (trim (transcript props))); [|reflexivity].
  unfold bindM at 1 2 3 4 5, call, setLoading, setResult, ret.
  cbn [negb loading result browser calls]. rewrite <- app_assoc. cbn [app].
  destruct (stream env) as [chunks|e]; [reflexivity|].
  unfold bindM.
  destruct (doFallbackRequest JSON_parse JSON_stringify props env _)
    as [[[]|e'] w1]; reflexivity.
Qed.

Lemma onTimeout_unusable (accumulatedData : jsstring) (w : World) :
  accumulatedData = [] \/
  (exists e, JSON_parse accumulatedData = Throw e) ->
  onTimeout JSON_parse JSON_stringify props env accumulatedData w =
  doFallbackRequest JSON_parse JSON_stringify props env
                    (called w [stopStream]).
Proof.
  intros Hbad. rewrite onTimeout_eq.
  destruct Hbad as [->|[e ->]]; [reflexivity|].
  destruct (truthy accumulatedData); reflexivity.
Qed.

(** A save that fails changes nothing in the browser; one that succeeds
    dispatches one event. *)
Lemma save_dispatched (item : value) (w : World) (b : History.Browser) :
  save item w = Normal b ->
  History.dispatched b = History.dispatched (browser w) + 1.
Proof.
  unfold save, History.saveHistoryItem.
  destruct (History.loadHistory JSON_parse (browser w)) as [arr|e];
    [|discriminate].
  cbn [bind]. destruct (History.unshift arr item); [|discriminate].
  cbn [bind]. intros H.
  apply (f_equal (fun c => match c with
                           | Normal x => History.dispatched x
                           | Throw _ => 0
                           end)) in H.
  symmetry. exact H.
Qed.

(** ** When the fallback request fails *)

(** X20: when the blocking fallback request fails (after the stream could
    not be opened, delivered nothing, or delivered text that is not JSON),
    the failure escapes the finalize action: nothing is shown or saved,
    [onFinalizeComplete] is not called, and [loading] stays set. *)
Theorem X20_fallback_failure_leaves_loading (w : World) (e : string) :
  truthy (trim (transcript props)) = true ->
  response env = Throw e ->
  ((exists e0, stream env = Throw e0) \/
   (exists chunks,
      stream env = Normal chunks /\
      (concat chunks = [] \/
       exists e1, JSON_parse (concat chunks) = Throw e1))) ->
  exists w1 made,
    finalize JSON_parse JSON_stringify props env w = (Throw e, w1) /\
    calls w1 = calls w ++ made /\
    fallbackRequests made = [(transcript props, language props)] /\
    savedItems made = [] /\
    ~ In onFinalizeComplete made /\
    loading w1 = true /\ result w1 = None /\ browser w1 = browser w.
Proof.
  intros Ht Hr Hs. rewrite finalize_eq, Ht.
  destruct Hs as [[e0 ->]|(chunks & -> & Hbad)].
  - rewrite doFallbackRequest_eq, Hr. unfold called.
    cbn [loading result browser calls].
    do 2 eexists. split; [reflexivity|]. cbn [calls loading result browser].
    split; [rewrite <- app_assoc; reflexivity|].
    repeat split. simpl. intuition discriminate.
  - rewrite (onTimeout_unusable _ _ Hbad).
    rewrite doFallbackRequest_eq, Hr. unfold called.
    cbn [loading result browser calls].
    do 2 eexists. split; [reflexivity|]. cbn [calls loading result browser].
    split; [rewrite <- !app_assoc; reflexivity|].
    repeat split. simpl. intuition discriminate.
Qed.

(** ** When the history cannot be written *)

Lemma save_unwritable (item : value) (w : World) (v : value) :
  History.loadHistory JSON_parse (browser w) = Normal v ->
  (forall items, v <> JArray items) ->
  exists e, save item w = Throw e.
Proof.
  intros Hl Hv. unfold save, History.saveHistoryItem. rewrite Hl.
  cbn [bind]. destruct v; simpl; eauto. exfalso. eapply Hv. reflexivity.
Qed.

(** X21: when the history entry is JSON but not an array, saving throws
    inside [saveAndReset].  On the streamed path the handler meant for parse
    errors catches it, so although the streamed text parsed, the blocking
    request is made as well and its answer replaces the streamed result on
    screen; saving that answer throws again, nothing is stored, and
    [loading] stays set. *)
Theorem X21_unwritable_history_doubles_request
        (w : World) (chunks : list jsstring) (r resp v : value) :
  truthy (trim (transcript props)) = true ->
  stream env = Normal chunks ->
  truthy (concat chunks) = true ->
  JSON_parse (concat chunks) = Normal r ->
  response env = Normal resp ->
  History.loadHistory JSON_parse (browser w) = Normal v ->
  (forall items, v <> JArray items) ->
  exists e w1,
    finalize JSON_parse JSON_stringify props env w = (Throw e, w1) /\
    calls w1 = calls w ++
      [ onBeforeFinalize;
        streamDiagnose (transcript props) (language props);
        stopStream;
        saveHistoryItem (historyItem props env r);
        diagnose (transcript props) (language props);
        saveHistoryItem (historyItem props env resp) ] /\
    result w1 = Some resp /\ loading w1 = true /\ browser w1 = browser w.
Proof.
  intros Ht Hs Hacc Hp Hr Hl Hv.
  destruct (save_unwritable (historyItem props env r) w v Hl Hv) as [e1 E1].
  destruct (save_unwritable (historyItem props env resp) w v Hl Hv)
    as [e2 E2].
  rewrite finalize_eq, Ht, Hs, onTimeout_eq, Hacc, Hp, saveAndReset_eq.
  unfold save, called in *. cbn [loading result browser calls].
  rewrite E1. rewrite doFallbackRequest_eq, Hr, saveAndReset_eq.
  unfold save, called. cbn [loading result browser calls]. rewrite E2.
  do 2 eexists. split; [reflexivity|]. cbn [calls loading result browser].
  split; [rewrite <- !app_assoc; reflexivity|]. auto.
Qed.

(** ** When the stream cannot be opened *)


(** ** Whatever happens *)

(** What a part of the action added to the world: [nf] fallback requests and
    [ns] stream requests, all for the transcript and language of the props,
    and [nd] history events. *)
Let effect (w w1 : World) (nf ns nd : nat) : Prop :=
  exists made,
    calls w1 = calls w ++ made /\
    fallbackRequests made = repeat (transcript props, language props) nf /\
    streamRequests made = repeat (transcript props, language props) ns /\
    History.dispatched (browser w1) = History.dispatched (browser w) + nd.

Lemma effect_trans (w w1 w2 : World) (nf ns nd nf' ns' nd' : nat) :
  effect w w1 nf ns nd -> effect w1 w2 nf' ns' nd' ->
  effect w w2 (nf + nf') (ns + ns') (nd + nd').
Proof.
  intros (m1 & C1 & F1 & S1 & D1) (m2 & C2 & F2 & S2 & D2).
  exists (m1 ++ m2). unfold fallbackRequests, streamRequests in *.
  rewrite !flat_map_app, F1, F2, S1, S2, !repeat_app, C2, C1, D2, D1.
  rewrite <- app_assoc. repeat split. lia.
Qed.

Lemma saveAndReset_effect (json : value) (w : World) :
  exists c w1,
    saveAndReset JSON_parse JSON_stringify props env json w = (c, w1) /\
    ((c = Normal tt /\ effect w w1 0 0 1) \/
     ((exists e, c = Throw e) /\ effect w w1 0 0 0)).
Proof.
  rewrite saveAndReset_eq.
  destruct (save (historyItem props env json) w) as [b|e] eqn:E.
  - do 2 eexists. split; [reflexivity|]. left. split; [reflexivity|].
    eexists. cbn [calls browser]. split; [reflexivity|].
    repeat split. apply (save_dispatched _ _ _ E).
  - do 2 eexists. split; [reflexivity|]. right. split; [eauto|].
    eexists. cbn [calls browser]. split; [reflexivity|].
    repeat split. lia.
Qed.

Lemma doFallbackRequest_effect (w : World) :
  exists c w1 nd,
    doFallbackRequest JSON_parse JSON_stringify props env w = (c, w1) /\
    effect w w1 1 0 nd /\ nd <= 1.
Proof.
  rewrite doFallbackRequest_eq.
  assert (H0 : effect w (called w [diagnose (transcript props)
                                            (language props)]) 1 0 0).
  { eexists. unfold called. cbn [calls browser]. split; [reflexivity|].
    repeat split. lia. }
  destruct (response env) as [json|e].
  - destruct (saveAndReset_effect json
                (called w [diagnose (transcript props) (language props)]))
      as (c & w1 & -> & [[_ H1]|[_ H1]]);
      pose proof (effect_trans _ _ _ _ _ _ _ _ _ H0 H1) as H;
      do 3 eexists; (split; [reflexivity|]); (split; [exact H|]); lia.
  - do 3 eexists. split; [reflexivity|]. split; [exact H0|]. lia.
Qed.

Lemma onTimeout_effect (accumulatedData : jsstring) (w : World) :
  exists c w1 nf nd,
    onTimeout JSON_parse JSON_stringify props env accumulatedData w
    = (c, w1) /\
    effect w w1 nf 0 nd /\ nf <= 1 /\ nd <= 1.
Proof.
  rewrite onTimeout_eq.
  assert (H0 : effect w (called w [stopStream]) 0 0 0).
  { eexists. unfold called. cbn [calls browser]. split; [reflexivity|].
    repeat split. lia. }
  assert (Hfb : exists c w1 nf nd,
             doFallbackRequest JSON_parse JSON_stringify props env
                               (called w [stopStream]) = (c, w1) /\
             effect w w1 nf 0 nd /\ nf <= 1 /\ nd <= 1).
  { destruct (doFallbackRequest_effect (called w [stopStream]))
      as (c & w1 & nd & E & H1 & Hd).
    pose proof (effect_trans _ _ _ _ _ _ _ _ _ H0 H1) as H.
    do 4 eexists. split; [exact E|]. split; [exact H|]. lia. }
  destruct (truthy accumulatedData); [|exact Hfb].
  destruct (JSON_parse accumulatedData) as [r|e]; [|exact Hfb].
  destruct (saveAndReset_effect r (called w [stopStream]))
    as (c & w1 & -> & [[-> H1]|[[e ->] H1]]);
    pose proof (effect_trans _ _ _ _ _ _ _ _ _ H0 H1) as H.
  - do 4 eexists. split; [reflexivity|]. split; [exact H|]. lia.
  - destruct (doFallbackRequest_effect w1) as (c & w2 & nd & -> & H2 & Hd).
    pose proof (effect_trans _ _ _ _ _ _ _ _ _ H H2) as H'.
    do 4 eexists. split; [reflexivity|]. split; [exact H'|]. lia.
Qed.

(** X23: whatever the stream delivers, the server answers and the storage
    holds, one finalize action makes at most one stream request and at most
    one blocking request, both for the transcript and language of the props,
    and stores at most one history item; on a blank transcript it does
    nothing at all. *)
Theorem X23_finalize_bounds (w : World) :
  exists c w1 made,
    finalize JSON_parse JSON_stringify props env w = (c, w1) /\
    calls w1 = calls w ++ made /\
    length (streamRequests made) <= 1 /\
    length (fallbackRequests made) <= 1 /\
    (forall q, In q (streamRequests made ++ fallbackRequests made) ->
               q = (transcript props, language props)) /\
    History.dispatched (browser w1) <= History.dispatched (browser w) + 1 /\
    (truthy (trim (transcript props)) = false -> c = Normal tt /\ w1 = w).
Proof.
  assert (H : exists c w1 nf ns nd,
             finalize JSON_parse JSON_stringify props env w = (c, w1) /\
             effect w w1 nf ns nd /\ nf <= 1 /\ ns <= 1 /\ nd <= 1 /\
             (truthy (trim (transcript props)) = false ->
              c = Normal tt /\ w1 = w)).
  { rewrite finalize_eq.
    destruct (truthy (trim (transcript props))).
    - set (w0 := {| loading := true; result := None; browser := browser w;
                    calls := calls w ++ [ onBeforeFinalize;
                                          streamDiagnose (transcript props)
                                                         (language props) ]
                 |}).
      assert (H0 : effect w w0 0 1 0).
      { eexists. cbn [w0 calls browser]. split; [reflexivity|].
        repeat split. lia. }
      destruct (stream env) as [chunks|e].
      + destruct (onTimeout_effect (concat chunks) w0)
          as (c & w1 & nf & nd & -> & H1 & Hf & Hd).
        pose proof (effect_trans _ _ _ _ _ _ _ _ _ H0 H1) as H.
        do 5 eexists. split; [reflexivity|]. split; [exact H|].
        repeat split; try lia; discriminate.
      + destruct (doFallbackRequest_effect w0)
          as (c & w1 & nd & -> & H1 & Hd).
        pose proof (effect_trans _ _ _ _ _ _ _ _ _ H0 H1) as H.
        do 5 eexists. split; [reflexivity|]. split; [exact H|].
        repeat split; try lia; discriminate.
    - exists (Normal tt), w, 0, 0, 0. split; [reflexivity|].
      split; [|repeat split; lia].
      exists []. rewrite app_nil_r. repeat split. lia. }
  destruct H as (c & w1 & nf & ns & nd & E & (made & C & F & S & D)
                 & Hf & Hs & Hd & Hblank).
  exists c, w1, made. split; [exact E|]. split; [exact C|].
  rewrite F, S, !repeat_length.
  split; [exact Hs|]. split; [exact Hf|]. split; [|split; [lia | exact Hblank]].
  intros q Hq. apply in_app_iff in Hq.
  destruct Hq as [Hq|Hq]; apply repeat_spec in Hq; exact Hq.
Qed.

End FinalizeOutcomes.

Section FinalizeWitnesses.
Import JS JSON Speech Diagnose Observed Samples.

(** The stream delivers nothing and the server is down. *)
Lemma X20_fallback_failure_leaves_loading_witness :
  exists w1 made,
    finalize MiniJSON.parse MiniJSON.stringify feverProps
      {| stream := Normal []; response := Throw "Erro 503";
         uuid := utf16 "9b2f"; now := 1762041600000 |} idleView
    = (Throw "Erro 503", w1) /\
    calls w1 = calls idleView ++ made /\
    fallbackRequests made = [(transcript feverProps, language feverProps)] /\
    savedItems made = [] /\
    ~ In onFinalizeComplete made /\
    loading w1 = true /\ result w1 = None /\ browser w1 = browser idleView.
Proof.
  apply (X20_fallback_failure_leaves_loading
           MiniJSON.parse MiniJSON.stringify feverProps
           {| stream := Normal []; response := Throw "Erro 503";
              uuid := utf16 "9b2f"; now := 1762041600000 |}
           idleView "Erro 503").
  - vm_compute. reflexivity.
  - reflexivity.
  - right. exists []. split; [reflexivity|]. left. reflexivity.
Defined.

(** The history entry holds an object instead of an array. *)
Lemma X21_unwritable_history_doubles_request_witness :
  exists e w1,
    finalize MiniJSON.parse MiniJSON.stringify feverProps streamed
      {| loading := false; result := None;
         browser := {| History.stored :=
                         Some (MiniJSON.stringify olderItem);
                       History.dispatched := 0 |};
         calls := [] |}
    = (Throw e, w1) /\
    calls w1 =
      [ onBeforeFinalize;
        streamDiagnose (transcript feverProps) (language feverProps);
        stopStream;
        saveHistoryItem (historyItem feverProps streamed fluDiagnosis);
        diagnose (transcript feverProps) (language feverProps);
        saveHistoryItem (historyItem feverProps streamed coldDiagnosis) ] /\
    result w1 = Some coldDiagnosis /\ loading w1 = true /\
    browser w1 = {| History.stored := Some (MiniJSON.stringify olderItem);
                    History.dispatched := 0 |}.
Proof.
  apply (X21_unwritable_history_doubles_request
           MiniJSON.parse MiniJSON.stringify feverProps streamed
           {| loading := false; result := None;
              browser := {| History.stored :=
                              Some (MiniJSON.stringify olderItem);
                            History.dispatched := 0 |};
              calls := [] |}
           [ firstn 20 (MiniJSON.stringify fluDiagnosis);
             skipn 20 (MiniJSON.stringify fluDiagnosis) ]
           fluDiagnosis coldDiagnosis olderItem);
    try (vm_compute; reflexivity).
  intros items. discriminate.
Defined.


End FinalizeWitnesses.

(* ================================================================== *)
(** * The chat about a diagnosis                                      *)
(* ================================================================== *)

Section Chat.
Import JS Speech ChatIA.

Variable language : Language.
Variable shown : option DiagnosisResponse.
Variable transcript : jsstring.

Lemma paired_app (n : nat) :
  forall ms tail : list Message,
  length ms <= n -> paired ms -> paired tail -> paired (ms ++ tail).
Proof.
  induction n as [|n IH]; intros ms tail Hn Hms Htail.
  - destruct ms; [exact Htail | simpl in Hn; lia].
  - destruct ms as [|u [|a rest]]; [exact Htail | destruct Hms |].
    destruct Hms as (H1 & H2 & H3 & H4 & Hrest).
    cbn [app paired]. repeat (split; [assumption|]).
    apply IH; [simpl in Hn; lia | exact Hrest | exact Htail].
Qed.

Lemma questions_app (ms1 ms2 : list Message) :
  questions (ms1 ++ ms2) = questions ms1 ++ questions ms2.
Proof. apply flat_map_app. Qed.

Lemma answer_shown (reply : Reply) :
  truthy (match reply with
          | Answer response =>
              match response with
              | Some r => or_else r noAnswer
              | None => noAnswer
              end
          | _ => apology language
          end) = true.
Proof.
  destruct reply as [| | |[r|]]; try (destruct language; reflexivity);
    try reflexivity.
  unfold or_else. destruct (truthy r) eqn:E; [exact E | reflexivity].
Qed.

(** One send: nothing at all, or one request and the two messages. *)
Lemma sendMessage_cases (reply : Reply) (st : State) :
  sendMessage language shown transcript reply st = (st, None) \/
  exists d answer,
    shown = Some d /\
    truthy (trim (inputMessage st)) = true /\
    truthy answer = true /\
    sendMessage language shown transcript reply st =
    ({| messages := messages st
                    ++ [ {| role := user; content := inputMessage st |};
                         {| role := assistant; content := answer |} ];
        inputMessage := [];
        loading := false |},
     Some {| message := inputMessage st;
             contextDiagnosis := diagnosis d;
             contextConditions := conditions d;
             contextExams := exams d;
             contextMedications := medications d;
             contextTranscript := transcript;
             requestLanguage := language |}).
Proof.
  unfold sendMessage. destruct shown as [d|]; [|left; reflexivity].
  destruct (truthy (trim (inputMessage st))) eqn:E; [|left; reflexivity].
  right. exists d. eexists. split; [reflexivity|]. split; [reflexivity|].
  split; [apply (answer_shown reply)|].
  cbn [negb]. destruct reply as [| | |[r|]]; reflexivity.
Qed.

(** What holds of the conversation and of the requests posted so far. *)
Let agrees (st : State) (requests : list Request) : Prop :=
  paired (messages st) /\
  loading st = false /\
  questions (messages st) = map message requests /\
  length (messages st) = 2 * length requests.

Lemma run_agrees (actions : list Action) :
  forall (st : State) (before : list Request),
  agrees st before ->
  agrees (run language shown transcript st actions)
         (before ++ posted language shown transcript st actions).
Proof.
  induction actions as [|a actions IH]; intros st before H.
  - simpl. rewrite app_nil_r. exact H.
  - cbn [posted].
    change (run language shown transcript st (a :: actions))
      with (run language shown transcript
                (step language shown transcript st a) actions).
    rewrite app_assoc. apply IH.
    destruct H as (Hp & Hl & Hq & Hn).
    destruct a as [text|reply]; cbn [step].
    + rewrite app_nil_r. repeat split; assumption.
    + destruct (sendMessage_cases reply st)
        as [->|(d & answer & _ & Ht & Ha & ->)]; cbn [fst snd].
      * rewrite app_nil_r. repeat split; assumption.
      * unfold agrees. cbn [messages loading].
        split; [|split; [reflexivity|split]].
        -- apply (paired_app (length (messages st)));
             [lia | exact Hp | simpl; auto].
        -- rewrite questions_app, map_app, Hq. reflexivity.
        -- rewrite !length_app. simpl. lia.
Qed.

Lemma posted_carry_props (actions : list Action) :
  forall st : State,
  Forall (fun r => contextTranscript r = transcript /\
                   requestLanguage r = language)
         (posted language shown transcript st actions).
Proof.
  induction actions as [|a actions IH]; intros st; [constructor|].
  cbn [posted]. apply Forall_app. split; [|apply IH].
  destruct a as [text|reply]; [constructor|].
  destruct (sendMessage_cases reply st)
    as [->|(d & answer & _ & _ & _ & ->)]; cbn [snd];
    repeat constructor.
Qed.

(** X24: in any sequence of typing and sending, the conversation consists of
    question-answer pairs: every question is not blank and is followed by
    one assistant message that is not empty, also when the request failed;
    the questions shown are, in order, the messages of the requests posted,
    as typed; every request carries the transcript and language of the props;
    and no request is still pending. *)
Theorem X24_chat_pairs_questions_and_answers (actions : list Action) :
  paired (messages (run language shown transcript initialState actions)) /\
  loading (run language shown transcript initialState actions) = false /\
  questions (messages (run language shown transcript initialState actions))
  = map message (posted language shown transcript initialState actions) /\
  length (messages (run language shown transcript initialState actions))
  = 2 * length (posted language shown transcript initialState actions) /\
  Forall (fun r => contextTranscript r = transcript /\
                   requestLanguage r = language)
         (posted language shown transcript initialState actions).
Proof.
  destruct (run_agrees actions initialState []) as (H1 & H2 & H3 & H4).
  { repeat split. }
  cbn [app] in *. repeat (split; [assumption|]).
  apply posted_carry_props.
Qed.

(** Without a diagnosis on screen, or with an input that is blank, a send
    posts nothing and changes nothing. *)
Lemma chat_ignores_blank_sends (reply : Reply) (st : State) :
  shown = None \/ trim (inputMessage st) = [] ->
  sendMessage language shown transcript reply st = (st, None).
Proof.
  intros [H|H]; unfold sendMessage.
  - rewrite H. reflexivity.
  - rewrite H. destruct shown; reflexivity.
Qed.

End Chat.

(* ================================================================== *)
(** * Ties between profiles                                           *)
(* ================================================================== *)

Section FirstBest.
Import JS VoiceHook VoiceAI Stated Samples.
Open Scope float_scope.

Variable f : Features.

Let sim (p : VoiceProfile) : float := calculateSimilarity f (features p).

(** Profiles that score below [m], or NaN, leave the running best below
    [m]. *)
Lemma fold_below (m : float) (l : list VoiceProfile) :
  forall b : SpeakerType * float,
  (snd b <? m) = true ->
  (forall q, In q l -> (sim q <? m) = true \/ is_nan (sim q) = true) ->
  (snd (fold_left (compareProfile f) l b) <? m) = true.
Proof.
  induction l as [|h l IH]; intros b Hb H; [exact Hb|].
  simpl. apply IH; [|intros q Hq; apply H; right; exact Hq].
  unfold compareProfile, gtb. fold (sim h).
  destruct (snd b <? sim h) eqn:Hlt; [|exact Hb].
  cbn [snd]. destruct (H h (or_introl eq_refl)) as [Hh|Hh]; [exact Hh|].
  destruct (float_cmp (snd b) (sim h))
    as [? ? ? ? ? ? _ ?|? ? ? ? ? ? _ ?|? ? ? ? ? ? _ ?|? ? ? ? ? ? ?];
    congruence.
Qed.

(** Profiles that score at most the running best, or NaN, leave it as it
    is. *)
Lemma fold_keep (l : list VoiceProfile) (b : SpeakerType * float) :
  (forall q, In q l ->
             (sim q <=? snd b) = true \/ is_nan (sim q) = true) ->
  fold_left (compareProfile f) l b = b.
Proof.
  induction l as [|h l IH]; intros H; [reflexivity|]. simpl.
  assert (E : compareProfile f b h = b).
  { unfold compareProfile, gtb. fold (sim h).
    destruct (H h (or_introl eq_refl)) as [Hh|Hh];
      destruct (float_cmp (snd b) (sim h))
        as [E ? ? ? ? ? ? ?|E ? ? ? ? ? ? ?|E ? ? ? ? ? ? ?|E ? ? ? ? ? ?];
      try congruence; rewrite E; reflexivity. }
  rewrite E. apply IH. intros q Hq. apply H. right. exact Hq.
Qed.

(** X25: when several stored profiles are equally similar to the sample,
    the one stored first is named: if a profile's similarity [m] exceeds
    0.4, every profile stored before it scores below [m] (or NaN) and every
    profile stored after it scores at most [m] (or NaN), the speaker is that
    profile's name and the confidence is [m]. *)
Theorem X25_first_best_profile_is_named
        (approx : float -> float) (st : State) (ctx : bool)
        (decoded : completion (list float)) (audio : list float)
        (m : float) (before after : list VoiceProfile) (p : VoiceProfile) :
  decoded = Normal audio ->
  extractVoiceFeatures approx ctx audio = Normal f ->
  Map_values (voiceProfiles st) = before ++ p :: after ->
  calculateSimilarity f (features p) = m ->
  (0.4 <? m) = true ->
  (forall q, In q before ->
     (calculateSimilarity f (features q) <? m) = true \/
     is_nan (calculateSimilarity f (features q)) = true) ->
  (forall q, In q after ->
     (calculateSimilarity f (features q) <=? m) = true \/
     is_nan (calculateSimilarity f (features q)) = true) ->
  exists st',
    identifySpeaker approx st ctx decoded =
    Normal ({| speaker := name p; confidence := m; analysisFeatures := f |},
            st').
Proof.
  intros Hd Hx Hv Hp Hgt Hbefore Hafter.
  pose proof (extract_needs_context _ _ _ _ Hx) as Hc. subst ctx decoded.
  assert (Hsz : Nat.eqb (Map_size (voiceProfiles st)) 0 = false).
  { unfold Map_size. rewrite <- (length_map snd).
    fold (Map_values (voiceProfiles st)). rewrite Hv.
    destruct before; reflexivity. }
  assert (H0 : (0 <? m) = true).
  { destruct (calculateSimilarity_clamp01 f (features p)) as [s E].
    rewrite E in Hp. rewrite <- Hp in *.
    assert (Hn : is_nan (clamp01 s) = false).
    { destruct (float_cmp 0.4 (clamp01 s))
        as [? ? ? ? ? ? _ ?|? ? ? ? ? ? _ ?|? ? ? ? ? ? _ ?|? ? ? ? ? ? ?];
        congruence. }
    destruct (clamp01_range s Hn) as [[H0|H0] _]; [|exact H0].
    rewrite H0 in Hgt. vm_compute in Hgt. discriminate Hgt. }
  assert (Hbest : bestMatchOf f (voiceProfiles st) = (name p, m)).
  { unfold bestMatchOf. rewrite Hv, fold_left_app. cbn [fold_left].
    pose proof (fold_below m before (auto, 0) H0 Hbefore) as Hb.
    set (b := fold_left (compareProfile f) before (auto, 0)) in *.
    assert (E : compareProfile f b p = (name p, m)).
    { unfold compareProfile, gtb. rewrite Hp, Hb. reflexivity. }
    rewrite E. apply fold_keep. exact Hafter. }
  unfold identifySpeaker.
  cbn -[extractVoiceFeatures bestMatchOf Map_size Nat.eqb]. rewrite Hx.
  cbn -[bestMatchOf Map_size Nat.eqb]. rewrite Hsz, Hbest.
  cbn [fst snd]. unfold gtb. rewrite Hgt.
  eexists. reflexivity.
Qed.

End FirstBest.

Section FirstBestWitness.
Import JS VoiceHook VoiceAI Stated Samples.
Open Scope float_scope.

(** The same voice filed under both labels: the label filed first wins. *)
Lemma X25_first_best_profile_is_named_witness :
  exists st',
    identifySpeaker log10_stub
      {| voiceProfiles :=
           [ (patient, {| id := patient; name := patient;
                          features := patientVoice; samples := 1 |});
             (doctor, {| id := doctor; name := doctor;
                         features := patientVoice; samples := 1 |}) ];
         isLearning := true; lastAnalysisRef := None |}
      true (Normal snippet) =
    Normal ({| speaker := patient;
               confidence := calculateSimilarity snippetFeatures patientVoice;
               analysisFeatures := snippetFeatures |}, st').
Proof.
  apply (X25_first_best_profile_is_named snippetFeatures log10_stub
           {| voiceProfiles :=
                [ (patient, {| id := patient; name := patient;
                               features := patientVoice; samples := 1 |});
                  (doctor, {| id := doctor; name := doctor;
                              features := patientVoice; samples := 1 |}) ];
              isLearning := true; lastAnalysisRef := None |}
           true (Normal snippet) snippet
           (calculateSimilarity snippetFeatures patientVoice)
           []
           [ {| id := doctor; name := doctor; features := patientVoice;
                samples := 1 |} ]
           {| id := patient; name := patient; features := patientVoice;
              samples := 1 |}).
  - reflexivity.
  - vm_compute. reflexivity.
  - reflexivity.
  - reflexivity.
  - vm_compute. reflexivity.
  - intros q [].
  - intros q [<-|[]]. left. vm_compute. reflexivity.
Defined.

End FirstBestWitness.

(* ================================================================== *)
(** * Resetting the recorder                                          *)
(* ================================================================== *)

Section RecorderReset.
Import JS Speech Stated Observed.
Import VoiceAI(SpeakerType, doctor, patient, auto).

(** The recorder's handler and methods read [isProcessingRef] only to
    decide whether to start a learning task. *)
Lemma Recorder_step_core (approx : float -> float) (language : Language)
      (s1 s2 : Recorder.Session) (a : Recorder.Action) :
  core (Recorder.component s1) = core (Recorder.component s2) ->
  core (Recorder.component (fst (Recorder.step approx language s1 a)))
  = core (Recorder.component (fst (Recorder.step approx language s2 a))) /\
  visible (snd (Recorder.step approx language s1 a))
  = visible (snd (Recorder.step approx language s2 a)).
Proof.
  destruct s1 as [[r1 n1 c1 f1 t1 p1 l1 x1] v1 q1].
  destruct s2 as [[r2 n2 c2 f2 t2 p2 l2 x2] v2 q2].
  unfold core. cbn [Recorder.component Recorder.recording
                    Recorder.patientName Recorder.speechCountRef
                    Recorder.finalRef Recorder.streamRef
                    Recorder.lastSpeakerRef Recorder.lastTranscriptRef].
  intros E. injection E as -> -> -> -> -> -> ->.
  destruct a as [microphone| | |event|captured]; cbn [Recorder.step].
  - destruct microphone; split; reflexivity.
  - split; reflexivity.
  - split; reflexivity.
  - unfold Recorder.onresult.
    destruct (transcriptsOf event) as [interim final].
    cbn -[trim str_eqb truthy Nat.modulo Nat.eqb app
          Recorder.getSpeakerPrefix].
    destruct (truthy final); [|split; reflexivity].
    destruct (str_eqb (trim final) x2); split; reflexivity.
  - cbn [Recorder.inFlight]. destruct q1, q2; split; reflexivity.
Qed.

Lemma Recorder_run_core (approx : float -> float) (language : Language)
      (actions : list Recorder.Action) :
  forall s1 s2 : Recorder.Session,
  core (Recorder.component s1) = core (Recorder.component s2) ->
  core (Recorder.component (fst (Recorder.run approx language s1 actions)))
  = core (Recorder.component (fst (Recorder.run approx language s2 actions)))
  /\
  map visible (snd (Recorder.run approx language s1 actions))
  = map visible (snd (Recorder.run approx language s2 actions)).
Proof.
  induction actions as [|a actions IH]; intros s1 s2 H; [auto|].
  rewrite !Recorder_run_cons. cbn [fst snd map].
  destruct (Recorder_step_core approx language s1 s2 a H) as [Hc Hv].
  destruct (IH _ _ Hc) as [IH1 IH2].
  split; [exact IH1|]. rewrite Hv, IH2. reflexivity.
Qed.

(** X26: a reset makes the recorder label and transcribe like a fresh one:
    whatever happened before, whatever the hook has learnt and whichever
    learning tasks are still running, the labels, lines and transcripts
    published after the reset are those of a new recorder given the same
    actions. *)
Theorem X26_reset_gives_fresh_labeler
        (approx : float -> float) (language : Language)
        (s : Recorder.Session) (actions : list Recorder.Action) :
  map visible
      (snd (Recorder.run approx language s (Recorder.Reset :: actions)))
  = (None, None, Some [])
    :: map visible
           (snd (Recorder.run approx language Recorder.initialSession
                              actions)).
Proof.
  rewrite Recorder_run_cons. cbn [fst snd map]. f_equal.
  apply Recorder_run_core. reflexivity.
Qed.

End RecorderReset.

(* ================================================================== *)
(** * The duration display                                            *)
(* ================================================================== *)

Section Duration.
Import JS CaptureLifecycle.

Lemma app_inj_length {A : Type} (l1 l2 t1 t2 : list A) :
  length t1 = length t2 -> l1 ++ t1 = l2 ++ t2 -> l1 = l2 /\ t1 = t2.
Proof.
  intros Hlen H.
  assert (Hl : length l1 = length l2).
  { apply (f_equal (@length A)) in H. rewrite !length_app in H. lia. }
  revert l2 Hl H. induction l1 as [|x l1 IH]; intros [|y l2] Hl H;
    try discriminate Hl.
  - auto.
  - simpl in H. injection H as -> H.
    destruct (IH l2 ltac:(simpl in Hl; lia) H) as [-> ->]. auto.
Qed.

Lemma utf16_inj (a b : string) : utf16 a = utf16 b -> a = b.
Proof.
  unfold utf16. revert b. induction a as [|x a IH]; intros [|y b] H;
    try discriminate H; [reflexivity|].
  simpl in H. injection H as Hx H.
  rewrite (IH b H). f_equal.
  rewrite <- (ascii_N_embedding x), <- (ascii_N_embedding y), Hx.
  reflexivity.
Qed.

Lemma Number_toString_inj (a b : nat) :
  Number_toString a = Number_toString b -> a = b.
Proof.
  unfold Number_toString. intros H. apply utf16_inj in H.
  apply Stdlib.Numbers.DecimalNat.Unsigned.to_uint_inj.
  pose proof (NilEmpty.usu (Nat.to_uint a)) as Ha.
  pose proof (NilEmpty.usu (Nat.to_uint b)) as Hb.
  rewrite H in Ha. congruence.
Qed.

(** The two digits shown for the seconds, read back. *)
Let secondsOf (s : jsstring) : nat :=
  match s with
  | [a; b] => (N.to_nat a - 48) * 10 + (N.to_nat b - 48)
  | _ => 60
  end.

Lemma seconds_shown (r : nat) :
  r < 60 ->
  length (padStart2 (Number_toString r)) = 2 /\
  secondsOf (padStart2 (Number_toString r)) = r.
Proof.
  intros H.
  assert (E : forallb
                (fun r => Nat.eqb (length (padStart2 (Number_toString r))) 2
                          && Nat.eqb (secondsOf
                                        (padStart2 (Number_toString r))) r)
                (seq 0 60) = true) by (vm_compute; reflexivity).
  rewrite forallb_forall in E.
  specialize (E r ltac:(apply in_seq; lia)).
  apply andb_true_iff in E. destruct E as [E1 E2].
  apply Nat.eqb_eq in E1, E2. auto.
Qed.

(** X27: the duration display tells durations apart: two different numbers
    of seconds are never shown as the same text. *)
Theorem X27_formatTime_distinguishes (a b : nat) :
  a <> b -> formatTime a <> formatTime b.
Proof.
  intros Hne H. apply Hne. unfold formatTime in H.
  assert (Ha : a mod 60 < 60) by (apply Nat.mod_upper_bound; lia).
  assert (Hb : b mod 60 < 60) by (apply Nat.mod_upper_bound; lia).
  destruct (seconds_shown _ Ha) as [La Sa].
  destruct (seconds_shown _ Hb) as [Lb Sb].
  rewrite !app_assoc in H.
  apply app_inj_length in H; [|congruence].
  destruct H as [Hm Hs].
  apply app_inj_length in Hm; [|reflexivity].
  destruct Hm as [Hm _]. apply Number_toString_inj in Hm.
  rewrite Hs in Sa. rewrite Sa in Sb.
  rewrite (Nat.div_mod_eq a 60), (Nat.div_mod_eq b 60).
  rewrite Hm, Sb. reflexivity.
Qed.

Lemma X27_formatTime_distinguishes_witness :
  formatTime 59 <> formatTime 60.
Proof.
  apply (X27_formatTime_distinguishes 59 60). lia.
Defined.

Example formatTime_one_minute_five :
  formatTime 65 = utf16 "1:05".
Proof. vm_compute. reflexivity. Qed.

End Duration.

(* ================================================================== *)
(** * The history drawer                                              *)
(* ================================================================== *)

Section Sorting.
Import JS HistoryDrawer.

Variable A : Type.
Variable compare : A -> A -> Z.

Lemma insert_perm (x : A) (l : list A) :
  Permutation (insert compare x l) (x :: l).
Proof.
  induction l as [|y r IH]; simpl; [reflexivity|].
  destruct (0 <? compare x y)%Z; [|reflexivity].
  rewrite IH. apply perm_swap.
Qed.

Lemma sort_perm (l : list A) : Permutation (sort compare l) l.
Proof.
  induction l as [|x r IH]; simpl; [constructor|].
  rewrite insert_perm. constructor. exact IH.
Qed.

Lemma insert_sorted (R : A -> A -> Prop) (x : A) (l : list A) :
  (forall y, In y l -> (0 <? compare x y)%Z = true -> R y x) ->
  (forall y, In y l -> (0 <? compare x y)%Z = false -> R x y) ->
  Sorted R l -> Sorted R (insert compare x l).
Proof.
  intros Hgt Hle Hs. induction Hs as [|y r Hs IH Hd]; simpl.
  - repeat constructor.
  - destruct (0 <? compare x y)%Z eqn:E.
    + constructor.
      * apply IH; intros z Hz; [apply Hgt | apply Hle]; right; exact Hz.
      * destruct r as [|z r]; simpl.
        -- constructor. apply Hgt; [left; reflexivity | exact E].
        -- destruct (0 <? compare x z)%Z.
           ++ constructor. inversion Hd; assumption.
           ++ constructor. apply Hgt; [left; reflexivity | exact E].
    + constructor; [constructor; assumption|].
      constructor. apply Hle; [left; reflexivity | exact E].
Qed.

End Sorting.

Section Drawer.
Import JS HistoryDrawer.

Variable toDateKey : Z -> jsstring.

Lemma str_ltb_total (a : jsstring) :
  forall b, a <> b -> str_ltb a b = false -> str_ltb b a = true.
Proof.
  induction a as [|x a IH]; intros [|y b] Hne H; simpl in *;
    try congruence.
  destruct (N.ltb_spec x y) as [Hxy|Hxy]; [discriminate H|].
  destruct (N.ltb_spec y x) as [Hyx|Hyx]; [reflexivity|].
  assert (x = y) by lia. subst y.
  apply IH; [congruence | exact H].
Qed.

Lemma sorted_by_time (l : list HistoryItem) :
  Sorted (fun a b => (timestamp b <= timestamp a)%Z)
         (sort (fun a b => (timestamp b - timestamp a)%Z) l).
Proof.
  induction l as [|x r IH]; simpl; [constructor|].
  apply insert_sorted; [| |exact IH]; intros y _ H.
  - apply Z.ltb_lt in H. lia.
  - apply Z.ltb_ge in H. lia.
Qed.

Lemma sorted_keys (l : list jsstring) :
  NoDup l ->
  Sorted (fun a b => str_ltb b a = true)
         (sort (fun a b => if str_ltb a b then 1%Z else (-1)%Z) l).
Proof.
  induction l as [|x r IH]; intros Hnd; simpl; [constructor|].
  inversion Hnd as [|? ? Hx Hr]; subst.
  apply insert_sorted; [| |apply IH; exact Hr]; intros y Hy H.
  - destruct (str_ltb x y); [reflexivity | discriminate H].
  - apply str_ltb_total.
    + intros ->. apply Hx.
      eapply Permutation_in; [apply sort_perm | exact Hy].
    + destruct (str_ltb x y); [discriminate H | reflexivity].
Qed.

(** ** Collecting *)

(** Every list is filed under the day of its items and is not empty; no day
    is filed twice. *)
Let tidy (g : Groups) : Prop :=
  NoDup (map fst g) /\
  Forall (fun kl => snd kl <> [] /\
                    Forall (fun it => toDateKey (timestamp it) = fst kl)
                           (snd kl)) g.

Lemma push_keys (g : Groups) (key : jsstring) (it : HistoryItem)
      (k : jsstring) :
  In k (map fst (push g key it)) -> k = key \/ In k (map fst g).
Proof.
  induction g as [|[k0 l] g IH]; simpl.
  - intros [<-|[]]. auto.
  - destruct (str_eqb k0 key); simpl; [auto|].
    intros [<-|H]; [auto|]. destruct (IH H); auto.
Qed.

Lemma push_tidy (g : Groups) (it : HistoryItem) :
  tidy g -> tidy (push g (toDateKey (timestamp it)) it).
Proof.
  intros [Hnd Hf]. induction g as [|[k0 l] g IH]; simpl.
  - split; [repeat constructor; simpl; tauto|].
    repeat constructor; simpl; congruence.
  - inversion Hnd as [|? ? Hk Hnd']; subst.
    inversion Hf as [|? ? [Hne Hl] Hf']; subst. cbn [fst snd] in *.
    destruct (str_eqb k0 (toDateKey (timestamp it))) eqn:E.
    + apply str_eqb_eq in E. split; [exact Hnd|].
      constructor; [|exact Hf']. cbn [fst snd]. split.
      * destruct l; discriminate.
      * apply Forall_app. split; [exact Hl|]. repeat constructor.
        symmetry. exact E.
    + apply str_eqb_neq in E. destruct (IH Hnd' Hf') as [IH1 IH2].
      split.
      * simpl. constructor; [|exact IH1].
        intros Hin. destruct (push_keys _ _ _ _ Hin); congruence.
      * constructor; [|exact IH2]. cbn [fst snd]. auto.
Qed.

Lemma push_perm (g : Groups) (key : jsstring) (it : HistoryItem) :
  Permutation (flat_map snd (push g key it)) (it :: flat_map snd g).
Proof.
  induction g as [|[k0 l] g IH]; simpl; [reflexivity|].
  destruct (str_eqb k0 key); simpl.
  - rewrite <- app_assoc. simpl. symmetry. apply Permutation_middle.
  - rewrite IH. symmetry. apply Permutation_middle.
Qed.

Lemma collected_from (items : list HistoryItem) :
  forall g : Groups,
  tidy g ->
  tidy (fold_left (fun g it => push g (toDateKey (timestamp it)) it)
                  items g) /\
  Permutation
    (flat_map snd
       (fold_left (fun g it => push g (toDateKey (timestamp it)) it)
                  items g))
    (items ++ flat_map snd g).
Proof.
  induction items as [|it items IH]; intros g Hg; simpl.
  - split; [exact Hg | reflexivity].
  - destruct (IH _ (push_tidy g it Hg)) as [H1 H2].
    split; [exact H1|]. rewrite H2, push_perm.
    symmetry. apply Permutation_middle.
Qed.

Lemma groups_tidy (items : list HistoryItem) :
  tidy (groups toDateKey items) /\
  Permutation (flat_map snd (groups toDateKey items)) items /\
  Forall (fun kl => Sorted (fun a b => (timestamp b <= timestamp a)%Z)
                           (snd kl))
         (groups toDateKey items).
Proof.
  unfold groups, collected.
  destruct (collected_from items []) as [[Hnd Hf] Hp].
  { split; constructor. }
  simpl in Hp. rewrite app_nil_r in Hp.
  set (g := fold_left (fun g it => push g (toDateKey (timestamp it)) it)
                      items []) in *.
  clearbody g.
  split; [split|split].
  - rewrite map_map. cbn [fst]. exact Hnd.
  - rewrite Forall_map. eapply Forall_impl; [|exact Hf].
    intros [k l] [Hne Hl]. cbn [fst snd] in *. split.
    + intros E. apply Hne. apply Permutation_nil.
      rewrite <- E. apply sort_perm.
    + eapply Permutation_Forall; [|exact Hl]. symmetry. apply sort_perm.
  - rewrite <- Hp. clear. induction g as [|[k l] g IH]; simpl; [constructor|].
    apply Permutation_app; [apply sort_perm | exact IH].
  - rewrite Forall_map. apply Forall_forall. intros kl _.
    apply sorted_by_time.
Qed.

(** ** Looking up *)

Lemma lookup_In (g : Groups) (k : jsstring) (l : list HistoryItem) :
  NoDup (map fst g) -> In (k, l) g -> lookup k g = l.
Proof.
  induction g as [|[k0 l0] g IH]; intros Hnd Hin; [destruct Hin|].
  inversion Hnd as [|? ? Hk Hnd']; subst. simpl.
  destruct Hin as [E|Hin].
  - injection E as -> ->.
    assert (str_eqb k k = true) as -> by (apply str_eqb_eq; reflexivity).
    reflexivity.
  - assert (str_eqb k0 k = false) as ->.
    { apply str_eqb_neq. intros ->. apply Hk.
      apply in_map_iff. exists (k, l). auto. }
    apply IH; assumption.
Qed.

Lemma lookup_keys (g : Groups) :
  NoDup (map fst g) ->
  flat_map (fun k => lookup k g) (map fst g) = flat_map snd g.
Proof.
  intros Hnd. rewrite !flat_map_concat_map, map_map. f_equal.
  apply map_ext_in. intros [k l] Hin. cbn [fst snd].
  apply lookup_In; assumption.
Qed.

(** X28: the history drawer shows every loaded item exactly once: the lists
    rendered, taken together, are a rearrangement of the items; every list
    is shown under the day of its items, is not empty and runs from the
    latest time stamp to the earliest; and the days run from the greatest
    key to the smallest, none of them twice. *)
Theorem X28_drawer_shows_every_item_once (items : list HistoryItem) :
  Permutation (flat_map snd (rendered toDateKey items)) items /\
  Sorted (fun a b => str_ltb b a = true)
         (map fst (rendered toDateKey items)) /\
  Forall (fun kl =>
            snd kl <> [] /\
            Forall (fun it => toDateKey (timestamp it) = fst kl) (snd kl) /\
            Sorted (fun a b => (timestamp b <= timestamp a)%Z) (snd kl))
         (rendered toDateKey items).
Proof.
  destruct (groups_tidy items) as ([Hnd Hf] & Hp & Hs).
  unfold rendered, orderedKeys.
  set (g := groups toDateKey items) in *.
  set (keys := sort (fun a b => if str_ltb a b then 1%Z else (-1)%Z)
                    (map fst g)).
  assert (Hk : Permutation keys (map fst g)) by apply sort_perm.
  split; [|split].
  - rewrite flat_map_concat_map, map_map. cbn [snd].
    rewrite <- flat_map_concat_map.
    rewrite (Permutation_flat_map _ Hk), lookup_keys by exact Hnd.
    exact Hp.
  - rewrite map_map. cbn [fst]. rewrite map_id.
    apply sorted_keys. exact Hnd.
  - rewrite Forall_map. apply Forall_forall. intros k Hin. cbn [fst snd].
    apply (Permutation_in _ Hk) in Hin. apply in_map_iff in Hin.
    destruct Hin as ([k' l] & <- & Hin). cbn [fst].
    rewrite (lookup_In g k' l Hnd Hin).
    rewrite Forall_forall in Hf, Hs.
    destruct (Hf _ Hin) as [H1 H2]. specialize (Hs _ Hin).
    cbn [fst snd] in *. auto.
Qed.

End Drawer.

Section DrawerExample.
Import JS HistoryDrawer.

(** Three consultations on two days, stored newest first. *)
Example drawer_two_days :
  rendered (fun ts => if (ts <? 1762041600000)%Z then utf16 "2025-11-01"
                      else utf16 "2025-11-02")
           [ {| id := utf16 "c"; timestamp := 1762050000000 |};
             {| id := utf16 "b"; timestamp := 1762045000000 |};
             {| id := utf16 "a"; timestamp := 1762000000000 |} ]
  = [ (utf16 "2025-11-02",
       [ {| id := utf16 "c"; timestamp := 1762050000000 |};
         {| id := utf16 "b"; timestamp := 1762045000000 |} ]);
      (utf16 "2025-11-01",
       [ {| id := utf16 "a"; timestamp := 1762000000000 |} ]) ].
Proof. vm_compute. reflexivity. Qed.

End DrawerExample.
